(** * OllamaService: the bounded inference gateway of the Express starter kit

    A shallow embedding of [services/ollamaService.js] (class [OllamaService])
    and the properties of its request queue, probes, response validation,
    error mapping and status report.

    JavaScript runs the methods of the service on one event loop: a method
    body runs without interruption up to its first [await], and the code
    after an [await] runs in a later turn.  The embedding follows that
    structure: every synchronous stretch of code is one function on the
    runtime state. *)

From Stdlib Require Import ZArith List String Ascii Bool Lia DecimalString.
From Stdlib Require Import Sorting.Sorted.
From Stdlib Require Import Floats.SpecFloat.
Import ListNotations.
Open Scope string_scope.
Open Scope Z_scope.
Set Warnings "-register-all".

(** ** JavaScript values and errors *)

(** JSON-shaped JavaScript values, as they arrive in [response.data].
    Numbers are integers (status codes, nanosecond durations) in the range
    a Number holds exactly.  An object lists its own properties, each key
    once. *)
Inductive JsVal : Type :=
| JUndefined
| JNull
| JBool (b : bool)
| JNum (n : Z)
| JStr (s : string)
| JArr (elems : list JsVal)
| JObj (fields : list (string * JsVal)).

(** The HTTP response object axios hands over: [response.status] and
    [response.data]. *)
Record HttpResponse : Type := mkResponse {
  status : Z;
  data : JsVal
}.

(** A JavaScript [Error] as the service reads it: [error.message],
    [error.code] and [error.response] (the last two are set by axios on
    transport failures and absent on a plain [new Error(msg)]). *)
Record JsError : Type := mkError {
  message : string;
  code : option string;
  response : option HttpResponse
}.

(** [new Error(msg)] *)
Definition new_Error (msg : string) : JsError :=
  {| message := msg; code := None; response := None |}.

(** What awaiting a promise gives, and what a body that may throw gives:
    a value, or the error thrown. *)
Inductive Settled (A : Type) : Type :=
| Fulfilled (value : A)
| Rejected (error : JsError).
Arguments Fulfilled {A} value.
Arguments Rejected {A} error.

Definition bind {A B : Type} (m : Settled A) (k : A -> Settled B)
  : Settled B :=
  match m with
  | Fulfilled a => k a
  | Rejected e => Rejected e
  end.

(** [try { body } catch (error) { handler }] *)
Definition try_catch {A : Type} (body : Settled A)
    (handler : JsError -> Settled A) : Settled A :=
  match body with
  | Fulfilled a => Fulfilled a
  | Rejected e => handler e
  end.

Notation "x <- m ;; k" := (bind m (fun x => k))
  (at level 61, m at next level, right associativity).

Module Js.

(** Where the engine throws a [TypeError] in the code embedded here:
    - [Reading v key]: [v.key] on [undefined] or [null];
    - [Calling v key]: [v.key(...)] where [v.key] is nothing that can be
      called;
    - [Searching key v]: [key in v] on a value that is no object;
    - [ToObject v]: [Object.values(v)] on [undefined] or [null]. *)
Inductive Fault : Type :=
| Reading (v : JsVal) (key : string)
| Calling (v : JsVal) (key : string)
| Searching (key : string) (v : JsVal)
| ToObject (v : JsVal).

(** The text of the message is the engine's own and differs between
    engines and versions; the service passes it on in
    [handleNetworkError]. *)
Class Engine : Type := {
  TypeError_message : Fault -> string
}.

Section Throwing.
Context {engine : Engine}.

(** The [TypeError] the engine throws: a plain error, with no [code] and
    no [response]. *)
Definition TypeError (fault : Fault) : JsError :=
  new_Error (TypeError_message fault).

End Throwing.

(** ToBoolean *)
Definition truthy (v : JsVal) : bool :=
  match v with
  | JUndefined | JNull => false
  | JBool b => b
  | JNum n => negb (n =? 0)
  | JStr s => negb (String.eqb s EmptyString)
  | JArr _ | JObj _ => true
  end.

Fixpoint lookup (key : string) (fields : list (string * JsVal))
  : option JsVal :=
  match fields with
  | [] => None
  | (k, v) :: rest => if String.eqb k key then Some v else lookup key rest
  end.

(** [v.key] for the keys the service reads ([models], [name], [response],
    [total_duration]), none of which is a built-in property of a string,
    number, boolean or array: reading off [undefined] or [null] throws,
    an object gives its own property, anything else gives [undefined]. *)
Definition get {engine : Engine} (v : JsVal) (key : string)
  : Settled JsVal :=
  match v with
  | JUndefined | JNull => Rejected (TypeError (Reading v key))
  | JObj fields =>
      match lookup key fields with
      | Some x => Fulfilled x
      | None => Fulfilled JUndefined
      end
  | _ => Fulfilled JUndefined
  end.

(** [v.hasOwnProperty(key)] for a key that is no index and not [length].
    The method is inherited from [Object.prototype]; a JSON object with an
    own property of that name shadows it with something that cannot be
    called. *)
Definition hasOwnProperty {engine : Engine} (v : JsVal) (key : string)
  : Settled bool :=
  match v with
  | JUndefined | JNull => Rejected (TypeError (Reading v "hasOwnProperty"))
  | JObj fields =>
      match lookup "hasOwnProperty" fields with
      | Some _ => Rejected (TypeError (Calling v "hasOwnProperty"))
      | None =>
          match lookup key fields with
          | Some _ => Fulfilled true
          | None => Fulfilled false
          end
      end
  | _ => Fulfilled false
  end.

Fixpoint prefix (p s : string) : bool :=
  match p, s with
  | EmptyString, _ => true
  | String a p', String b s' => Ascii.eqb a b && prefix p' s'
  | String _ _, EmptyString => false
  end.

(** [haystack.includes(needle)] on strings *)
Fixpoint includes (haystack needle : string) : bool :=
  prefix needle haystack ||
  match haystack with
  | EmptyString => false
  | String _ rest => includes rest needle
  end.

(** [v.includes(needle)] with a string [needle]: strings search for a
    substring, arrays for an element that is that string; no other JSON
    value has a callable [includes]. *)
Definition call_includes {engine : Engine} (v : JsVal) (needle : string)
  : Settled bool :=
  match v with
  | JStr s => Fulfilled (includes s needle)
  | JArr elems =>
      Fulfilled (existsb (fun x => match x with
                                   | JStr s => String.eqb s needle
                                   | _ => false
                                   end) elems)
  | JUndefined | JNull => Rejected (TypeError (Reading v "includes"))
  | _ => Rejected (TypeError (Calling v "includes"))
  end.

(** [Array.prototype.some] with a callback that may throw: stops at the
    first element the callback accepts or throws on. *)
Fixpoint some (elems : list JsVal) (callback : JsVal -> Settled bool)
  : Settled bool :=
  match elems with
  | [] => Fulfilled false
  | x :: rest =>
      b <- callback x ;;
      if b then Fulfilled true else some rest callback
  end.

(** [v.some(callback)]: only arrays have the method. *)
Definition call_some {engine : Engine} (v : JsVal)
    (callback : JsVal -> Settled bool) : Settled bool :=
  match v with
  | JArr elems => some elems callback
  | JUndefined | JNull => Rejected (TypeError (Reading v "some"))
  | _ => Rejected (TypeError (Calling v "some"))
  end.

(** Decimal text of an integer, as in [`${n}`]. *)
Definition Z_toString (n : Z) : string :=
  NilZero.string_of_int (Z.to_int n).

(** ** Numbers: IEEE 754 binary64 *)

Definition prec : Z := 53.
Definition emax : Z := 1024.

(** The Number that is the integer [n] (exact below 2^53). *)
Definition Number_of_Z (n : Z) : spec_float :=
  match n with
  | Z0 => S754_zero false
  | Zpos p => S754_finite false p 0
  | Zneg p => S754_finite true p 0
  end.

(** The same Number with its mantissa normalized. *)
Definition Number_canonical (n : Z) : spec_float :=
  binary_normalize prec emax n 0 false.

Definition Number_div (x y : spec_float) : spec_float := SFdiv prec emax x y.
Definition Number_mul (x y : spec_float) : spec_float := SFmul prec emax x y.

(** An integral Number, or what [Math.round] passes through. *)
Inductive Rounded : Type :=
| RInt (n : Z)
| RNaN
| RInfinity (negative : bool).

(** [Math.round(x)]: the integer closest to [x], the larger one on a tie,
    that is, the floor of [x + 1/2] computed exactly. *)
Definition Math_round (x : spec_float) : Rounded :=
  match x with
  | S754_zero _ => RInt 0
  | S754_nan => RNaN
  | S754_infinity s => RInfinity s
  | S754_finite s m e =>
      let sm := if s then Z.neg m else Z.pos m in
      if 0 <=? e then RInt (sm * 2 ^ e)
      else RInt ((2 * sm + 2 ^ (- e)) / 2 ^ (1 - e))
  end.

(** [`${x}`] for such a number (below 10^21, where every digit is
    printed) *)
Definition Rounded_toString (x : Rounded) : string :=
  match x with
  | RInt n => Z_toString n
  | RNaN => "NaN"
  | RInfinity false => "Infinity"
  | RInfinity true => "-Infinity"
  end.

(** Strings hold the UTF-8 bytes of the text.  The white space [trim]
    removes is TAB, LF, VT, FF, CR and the space, one byte each, and the
    other white space of the language: U+00A0 (two bytes), U+1680, U+2000
    to U+200A, U+2028, U+2029, U+202F, U+205F, U+3000 and U+FEFF (three
    bytes each). *)
Definition is_space (c : ascii) : bool :=
  match nat_of_ascii c with
  | 9%nat | 10%nat | 11%nat | 12%nat | 13%nat | 32%nat => true
  | _ => false
  end.

Definition is_space2 (a b : ascii) : bool :=
  Nat.eqb (nat_of_ascii a) 194 && Nat.eqb (nat_of_ascii b) 160.

Definition is_space3 (a b c : ascii) : bool :=
  let x := nat_of_ascii a in
  let y := nat_of_ascii b in
  let z := nat_of_ascii c in
  (Nat.eqb x 225 && Nat.eqb y 154 && Nat.eqb z 128)
  || (Nat.eqb x 226 && Nat.eqb y 128
      && ((Nat.leb 128 z && Nat.leb z 138)
          || Nat.eqb z 168 || Nat.eqb z 169 || Nat.eqb z 175))
  || (Nat.eqb x 226 && Nat.eqb y 129 && Nat.eqb z 159)
  || (Nat.eqb x 227 && Nat.eqb y 128 && Nat.eqb z 128)
  || (Nat.eqb x 239 && Nat.eqb y 187 && Nat.eqb z 191).

Fixpoint trimStart (s : string) : string :=
  match s with
  | EmptyString => EmptyString
  | String a rest1 =>
      if is_space a then trimStart rest1
      else
        match rest1 with
        | String b rest2 =>
            if is_space2 a b then trimStart rest2
            else
              match rest2 with
              | String c rest3 =>
                  if is_space3 a b c then trimStart rest3 else s
              | EmptyString => s
              end
        | EmptyString => s
        end
  end.

(** The same from the end, on the bytes in reverse order. *)
Fixpoint dropEnd (reversed : list ascii) : list ascii :=
  match reversed with
  | [] => []
  | c :: rest1 =>
      if is_space c then dropEnd rest1
      else
        match rest1 with
        | b :: rest2 =>
            if is_space2 b c then dropEnd rest2
            else
              match rest2 with
              | a :: rest3 =>
                  if is_space3 a b c then dropEnd rest3 else reversed
              | [] => reversed
              end
        | [] => reversed
        end
  end.

Definition trimEnd (s : string) : string :=
  string_of_list_ascii (rev (dropEnd (rev (list_ascii_of_string s)))).

(** [s.trim()] *)
Definition trim (s : string) : string := trimEnd (trimStart s).

End Js.

(** ** The service *)

Module Ollama.

(** [queueItem = { execute, resolve, reject, timestamp }].  [execute] names
    the submitted closure; [ticket] names the promise whose [resolve] and
    [reject] the item stores (every call of [queueRequest] creates a new
    promise). *)
Record QueueItem : Type := mkItem {
  execute : nat;
  ticket : nat;
  timestamp : Z
}.

(** The fields of [this]. *)
Record OllamaService : Type := mkService {
  baseURL : string;
  model : string;
  timeout : Z;
  maxConcurrentRequests : Z;
  maxQueueSize : Z;
  currentRequests : Z;
  requestQueue : list QueueItem
}.

(** [parseInt(process.env.X) || dflt]: [None] is [NaN] (the variable is
    unset or does not start with a number); [NaN] and [0] are falsy. *)
Definition parseInt_or (parsed : option Z) (dflt : Z) : Z :=
  match parsed with
  | Some n => if n =? 0 then dflt else n
  | None => dflt
  end.

(** [process.env.X || dflt]: unset and empty are falsy. *)
Definition env_or (value : option string) (dflt : string) : string :=
  match value with
  | Some s => if String.eqb s EmptyString then dflt else s
  | None => dflt
  end.

(** [constructor()], with the environment it reads. *)
Definition constructor (OLLAMA_API_URL OLLAMA_MODEL : option string)
    (OLLAMA_MAX_CONCURRENT OLLAMA_MAX_QUEUE_SIZE : option Z)
  : OllamaService :=
  {| baseURL := env_or OLLAMA_API_URL "http://localhost:11434";
     model := env_or OLLAMA_MODEL "moondream";
     timeout := 60000;
     maxConcurrentRequests := parseInt_or OLLAMA_MAX_CONCURRENT 3;
     maxQueueSize := parseInt_or OLLAMA_MAX_QUEUE_SIZE 10;
     currentRequests := 0;
     requestQueue := [] |}.

(** What the queue code does to the outside, one constructor per call site:
    - [Invoke]: [queueItem.execute()] in [executeRequest];
    - [Resolve]: [queueItem.resolve(result)] in [executeRequest];
    - [RejectWork]: [queueItem.reject(error)] in [executeRequest];
    - [RejectFull]: [reject(new Error('Request queue is full. ...'))] in
      [queueRequest];
    - [RejectTimeout]: [nextRequest.reject(new Error('Request timed out in
      queue'))] in [processQueue]. *)
Inductive Effect : Type :=
| Invoke (p : nat) (fn : nat)
| Resolve (p : nat) (result : JsVal)
| RejectWork (p : nat) (error : JsError)
| RejectFull (p : nat)
| RejectTimeout (p : nat).

Definition queue_full_message : string :=
  "Request queue is full. Please try again later.".
Definition queue_timeout_message : string :=
  "Request timed out in queue".

(** The promise an effect settles and what it is settled with. *)
Definition settlement (e : Effect) : option (nat * Settled JsVal) :=
  match e with
  | Invoke _ _ => None
  | Resolve p v => Some (p, Fulfilled v)
  | RejectWork p err => Some (p, Rejected err)
  | RejectFull p => Some (p, Rejected (new_Error queue_full_message))
  | RejectTimeout p => Some (p, Rejected (new_Error queue_timeout_message))
  end.

(** The service object together with what the event loop holds for it:
    [awaiting] are the calls of [executeRequest] suspended at
    [await queueItem.execute()], [promises] counts the promises created so
    far (the next ticket), [effects] is the history, newest first. *)
Record Runtime : Type := mkRuntime {
  this : OllamaService;
  awaiting : list QueueItem;
  promises : nat;
  effects : list Effect
}.

Definition boot (svc : OllamaService) : Runtime :=
  {| this := svc; awaiting := []; promises := 0%nat; effects := [] |}.

Definition set_this (rt : Runtime) (svc : OllamaService) : Runtime :=
  {| this := svc; awaiting := awaiting rt;
     promises := promises rt; effects := effects rt |}.

Definition emit (e : Effect) (rt : Runtime) : Runtime :=
  {| this := this rt; awaiting := awaiting rt;
     promises := promises rt; effects := e :: effects rt |}.

Definition set_currentRequests (svc : OllamaService) (n : Z) : OllamaService :=
  {| baseURL := baseURL svc; model := model svc; timeout := timeout svc;
     maxConcurrentRequests := maxConcurrentRequests svc;
     maxQueueSize := maxQueueSize svc;
     currentRequests := n;
     requestQueue := requestQueue svc |}.

Definition set_requestQueue (svc : OllamaService) (q : list QueueItem)
  : OllamaService :=
  {| baseURL := baseURL svc; model := model svc; timeout := timeout svc;
     maxConcurrentRequests := maxConcurrentRequests svc;
     maxQueueSize := maxQueueSize svc;
     currentRequests := currentRequests svc;
     requestQueue := q |}.

(** [requestQueue.length] *)
Definition queue_length (svc : OllamaService) : Z :=
  Z.of_nat (List.length (requestQueue svc)).

(** [executeRequest(queueItem)] up to its [await]: [this.currentRequests++]
    and the call [queueItem.execute()]; the rest of the body waits for the
    work to settle.  The work is an [async] function, as the one
    [classifyImage] submits: calling it returns a promise, and the rest of
    [executeRequest] runs in a later turn ([executeRequest_resume]). *)
Definition executeRequest (queueItem : QueueItem) (rt : Runtime) : Runtime :=
  let svc := this rt in
  {| this := set_currentRequests svc (currentRequests svc + 1);
     awaiting := queueItem :: awaiting rt;
     promises := promises rt;
     effects := Invoke (ticket queueItem) (execute queueItem) :: effects rt |}.

(** [queueRequest(requestFn)]: the executor of the returned promise, which
    runs synchronously; [now] is its one reading of [Date.now()].  Returns
    the ticket of the promise handed back to the caller. *)
Definition queueRequest (requestFn : nat) (now : Z) (rt : Runtime)
  : Runtime * nat :=
  let p := promises rt in
  let queueItem := {| execute := requestFn; ticket := p; timestamp := now |} in
  let rt := {| this := this rt; awaiting := awaiting rt;
               promises := S p; effects := effects rt |} in
  let svc := this rt in
  if currentRequests svc <? maxConcurrentRequests svc then
    (executeRequest queueItem rt, p)
  else if queue_length svc >=? maxQueueSize svc then
    (emit (RejectFull p) rt, p)
  else
    (set_this rt (set_requestQueue svc (requestQueue svc ++ [queueItem])), p).

(** [processQueue()].  The body pops at most one item per call and calls
    itself after rejecting an expired one, so the recursion is on the queue.
    [clock k] is the reading of the [k]-th [Date.now()] of this run. *)
Fixpoint processQueue_from (clock : nat -> Z) (k : nat)
    (queue : list QueueItem) (rt : Runtime) : Runtime :=
  match queue with
  | [] => rt
  | nextRequest :: rest =>
      if currentRequests (this rt) <? maxConcurrentRequests (this rt) then
        let rt := set_this rt (set_requestQueue (this rt) rest) in
        let waitTime := clock k - timestamp nextRequest in
        if waitTime >? 30000 then
          processQueue_from clock (S k) rest
            (emit (RejectTimeout (ticket nextRequest)) rt)
        else executeRequest nextRequest rt
      else rt
  end.

Definition processQueue (clock : nat -> Z) (rt : Runtime) : Runtime :=
  processQueue_from clock 0 (requestQueue (this rt)) rt.

(** The suspended call for [queueItem] leaves the event loop. *)
Definition resume (queueItem : QueueItem) (l : list QueueItem)
  : list QueueItem :=
  filter (fun i => negb (Nat.eqb (ticket i) (ticket queueItem))) l.

(** [executeRequest(queueItem)] after its [await]: the [try] settles the
    caller's promise with the outcome of the work, the [finally] runs
    [this.currentRequests--] and [this.processQueue()]. *)
Definition executeRequest_resume (queueItem : QueueItem)
    (outcome : Settled JsVal) (clock : nat -> Z) (rt : Runtime) : Runtime :=
  let settle :=
    match outcome with
    | Fulfilled result => Resolve (ticket queueItem) result
    | Rejected error => RejectWork (ticket queueItem) error
    end in
  let svc := this rt in
  let rt := {| this := set_currentRequests svc (currentRequests svc - 1);
               awaiting := resume queueItem (awaiting rt);
               promises := promises rt;
               effects := settle :: effects rt |} in
  processQueue clock rt.

(** One turn of the event loop that touches the queue: a submission, the
    completion of a running unit of work, or a call of [processQueue]. *)
Inductive step : Runtime -> Runtime -> Prop :=
| step_submit rt requestFn now :
    step rt (fst (queueRequest requestFn now rt))
| step_complete rt queueItem outcome clock :
    In queueItem (awaiting rt) ->
    step rt (executeRequest_resume queueItem outcome clock rt)
| step_drain rt clock :
    step rt (processQueue clock rt).

Inductive reachable (svc : OllamaService) : Runtime -> Prop :=
| reach_boot : reachable svc (boot svc)
| reach_step rt rt' : reachable svc rt -> step rt rt' -> reachable svc rt'.

(** *** Probes *)

(** [isAvailable()]; [probe] is what [await this.axiosInstance.get('/api/tags',
    { timeout: 5000 })] gives. *)
Definition isAvailable (probe : Settled HttpResponse) : Settled bool :=
  try_catch
    (response <- probe ;;
     Fulfilled (status response =? 200))
    (fun error => Fulfilled false).

(** [isModelAvailable()] *)
Definition isModelAvailable {engine : Js.Engine} (svc : OllamaService)
    (probe : Settled HttpResponse) : Settled bool :=
  try_catch
    (response <- probe ;;
     if status response =? 200 then
       models <- Js.get (data response) "models" ;;
       if Js.truthy models then
         modelExists <- Js.call_some models (fun m =>
           name <- Js.get m "name" ;;
           Js.call_includes name (model svc)) ;;
         Fulfilled modelExists
       else Fulfilled false
     else Fulfilled false)
    (fun error => Fulfilled false).

(** *** Error mapping *)

Definition timed_out_message : string :=
  "Request to Ollama service timed out. The image might be too large or complex, or the service may be overloaded.".
Definition connect_refused_message : string :=
  "Cannot connect to Ollama service. Please ensure Ollama is running and accessible at the configured URL.".
Definition not_found_message : string :=
  "Ollama service URL not found. Please check your OLLAMA_API_URL configuration.".
Definition unreachable_message : string :=
  "Network unreachable. Please check your network connection and Ollama service configuration.".
Definition endpoint_message : string :=
  "Ollama API endpoint not found. Please check your Ollama installation and version.".
Definition server_error_message : string :=
  "Ollama service is experiencing internal issues. Please try again later.".

(** [error.code === c] *)
Definition code_is (error : JsError) (c : string) : bool :=
  match code error with
  | Some c' => String.eqb c' c
  | None => false
  end.

(** A test on [error.response?.status], false when there is no response. *)
Definition status_is (error : JsError) (test : Z -> bool) : bool :=
  match response error with
  | Some r => test (status r)
  | None => false
  end.

Section Builtins.

(** Built-ins of the engine the service calls and the embedding leaves
    open: the texts of its [TypeError]s, the text [JSON.stringify(v)]
    contributes to a template string, [String(v)], and the numeric value
    of a value that is not a number, boolean, [null] or [undefined] (the
    last two may throw on objects). *)
Context {engine : Js.Engine}.
Variable JSON_stringify : JsVal -> string.
Variable String_of : JsVal -> Settled string.
Variable ToNumber_other : JsVal -> Settled spec_float.

(** ToNumber, as applied by the division in [classifyImage]. *)
Definition ToNumber (v : JsVal) : Settled spec_float :=
  match v with
  | JNum n => Fulfilled (Js.Number_of_Z n)
  | JBool b => Fulfilled (Js.Number_of_Z (if b then 1 else 0))
  | JNull => Fulfilled (S754_zero false)
  | JUndefined => Fulfilled S754_nan
  | _ => ToNumber_other v
  end.

(** [handleNetworkError(error)] always throws; this is the error it
    throws. *)
Definition handleNetworkError (error : JsError) : JsError :=
  if code_is error "ETIMEDOUT" || code_is error "TIMEOUT" then
    new_Error timed_out_message
  else if code_is error "ECONNREFUSED" then
    new_Error connect_refused_message
  else if code_is error "ENOTFOUND" then
    new_Error not_found_message
  else if code_is error "ENETUNREACH" then
    new_Error unreachable_message
  else if status_is error (fun s => s =? 404) then
    new_Error endpoint_message
  else if status_is error (fun s => s =? 400) then
    new_Error ("Ollama API error: " ++
               JSON_stringify (match response error with
                               | Some r => data r
                               | None => JUndefined
                               end))
  else if status_is error (fun s => s >=? 500) then
    new_Error server_error_message
  else
    new_Error ("Ollama service error: " ++ message error).

(** *** Classification *)

Record ClassificationResult : Type := mkResult {
  success : bool;
  classification : string;
  result_model : string;
  prompt : string;
  processingTime : Js.Rounded
}.

Definition dquote : string := String (ascii_of_nat 34) EmptyString.

Definition unavailable_message : string :=
  "Ollama service is not available. Please ensure Ollama is running.".
Definition model_unavailable_message (m : string) : string :=
  "Model '" ++ m ++ "' is not available. Please run: ollama pull " ++ m.
Definition empty_response_message : string :=
  "Empty response from Ollama API".
Definition bad_status_message (r : HttpResponse) : string :=
  "Ollama API returned status " ++ Js.Z_toString (status r) ++ ": " ++
  JSON_stringify (data r).
Definition missing_field_message : string :=
  "Ollama API response is missing the " ++ dquote ++ "response" ++ dquote ++
  " field".
Definition null_field_message : string :=
  "Ollama API response field is null or undefined".

(** [logResponseDebug(response)]: outside development it does nothing; in
    development it evaluates ['response' in response.data], which throws
    unless the data is an object or an array. *)
Definition logResponseDebug (development : bool) (r : HttpResponse)
  : Settled unit :=
  if development then
    match data r with
    | JObj _ | JArr _ => Fulfilled tt
    | _ => Rejected (Js.TypeError (Js.Searching "response" (data r)))
    end
  else Fulfilled tt.

(** The closure [classifyImage] hands to [queueRequest].  Its inputs are
    what its [await]s and its two readings of [Date.now()] give:
    [probe1] in [isAvailable], [probe2] in [isModelAvailable], [post] for
    [this.axiosInstance.post('/api/generate', payload)]; [development] is
    [process.env.NODE_ENV === 'development']. *)
Definition classifyImage_work (svc : OllamaService) (development : bool)
    (prompt_text : string) (probe1 probe2 post : Settled HttpResponse)
    (startTime endTime : Z) : Settled ClassificationResult :=
  try_catch
    (isServiceAvailable <- isAvailable probe1 ;;
     if negb isServiceAvailable then
       Rejected (new_Error unavailable_message)
     else
     isModelReady <- isModelAvailable svc probe2 ;;
     if negb isModelReady then
       Rejected (new_Error (model_unavailable_message (model svc)))
     else
     r <- post ;;
     let elapsed := endTime - startTime in
     _ <- logResponseDebug development r ;;
     if negb (Js.truthy (data r)) then
       Rejected (new_Error empty_response_message)
     else if negb (status r =? 200) then
       Rejected (new_Error (bad_status_message r))
     else
     has <- Js.hasOwnProperty (data r) "response" ;;
     if negb has then
       Rejected (new_Error missing_field_message)
     else
     answer <- Js.get (data r) "response" ;;
     match answer with
     | JUndefined | JNull => Rejected (new_Error null_field_message)
     | _ =>
         text <- String_of answer ;;
         total_duration <- Js.get (data r) "total_duration" ;;
         time <- (if Js.truthy total_duration then
                    ns <- ToNumber total_duration ;;
                    Fulfilled (Js.Math_round
                      (Js.Number_div ns (Js.Number_of_Z 1000000)))
                  else Fulfilled (Js.RInt elapsed)) ;;
         Fulfilled {| success := true;
                      classification := Js.trim text;
                      result_model := model svc;
                      prompt := prompt_text;
                      processingTime := time |}
     end)
    (fun error => Rejected (handleNetworkError error)).

End Builtins.

(** *** Status *)

Module StatusReport.

Record Service : Type := mkServiceInfo {
  available : bool;
  url : string;
  error : option string
}.

Record Model : Type := mkModelInfo {
  name : string;
  model_available : bool
}.

Record Configuration : Type := mkConfiguration {
  timeout : Z;
  baseURL : string;
  maxConcurrentRequests : Z;
  maxQueueSize : Z
}.

Record Queue : Type := mkQueueInfo {
  currentRequests : Z;
  queuedRequests : Z;
  queueUtilization : option string
}.

Record t : Type := mkStatus {
  service : Service;
  model : Model;
  configuration : option Configuration;
  queue : Queue
}.

End StatusReport.

(** [Math.round((this.currentRequests / this.maxConcurrentRequests) * 100)] *)
Definition utilization (svc : OllamaService) : Js.Rounded :=
  Js.Math_round
    (Js.Number_mul
       (Js.Number_div (Js.Number_of_Z (currentRequests svc))
                      (Js.Number_of_Z (maxConcurrentRequests svc)))
       (Js.Number_of_Z 100)).

(** [getStatus()]; [probe1] and [probe2] are what the probes of
    [isAvailable] and [isModelAvailable] give. *)
Definition getStatus {engine : Js.Engine} (svc : OllamaService)
    (probe1 probe2 : Settled HttpResponse) : Settled StatusReport.t :=
  try_catch
    (isAvailable' <- isAvailable probe1 ;;
     isModelReady <- isModelAvailable svc probe2 ;;
     Fulfilled
       {| StatusReport.service :=
            {| StatusReport.available := isAvailable';
               StatusReport.url := baseURL svc;
               StatusReport.error := None |};
          StatusReport.model :=
            {| StatusReport.name := model svc;
               StatusReport.model_available := isModelReady |};
          StatusReport.configuration :=
            Some {| StatusReport.timeout := timeout svc;
                    StatusReport.baseURL := baseURL svc;
                    StatusReport.maxConcurrentRequests :=
                      maxConcurrentRequests svc;
                    StatusReport.maxQueueSize := maxQueueSize svc |};
          StatusReport.queue :=
            {| StatusReport.currentRequests := currentRequests svc;
               StatusReport.queuedRequests := queue_length svc;
               StatusReport.queueUtilization :=
                 Some (Js.Rounded_toString (utilization svc) ++ "%") |} |})
    (fun error =>
       Fulfilled
         {| StatusReport.service :=
              {| StatusReport.available := false;
                 StatusReport.url := baseURL svc;
                 StatusReport.error := Some (message error) |};
            StatusReport.model :=
              {| StatusReport.name := model svc;
                 StatusReport.model_available := false |};
            StatusReport.configuration := None;
            StatusReport.queue :=
              {| StatusReport.currentRequests := currentRequests svc;
                 StatusReport.queuedRequests := queue_length svc;
                 StatusReport.queueUtilization := None |} |}).

End Ollama.

(** ** Vocabulary of the properties *)

Module QueueSpec.
Import Ollama.

(** The items of [l], popped one after the other from reading [k] of the
    clock on, have each waited more than 30 seconds when popped. *)
Fixpoint all_expired (clock : nat -> Z) (k : nat) (l : list QueueItem)
  : bool :=
  match l with
  | [] => true
  | x :: rest =>
      (clock k - timestamp x >? 30000) && all_expired clock (S k) rest
  end.

(** The rejections the drain issues for the expired items [l], newest
    first. *)
Definition timeouts (l : list QueueItem) : list Effect :=
  rev (map (fun x => RejectTimeout (ticket x)) l).

Definition has_ticket (p : nat) (i : QueueItem) : bool :=
  Nat.eqb (ticket i) p.

(** How often promise [p] occurs among the items [l]. *)
Definition occurrences (p : nat) (l : list QueueItem) : nat :=
  List.length (filter (has_ticket p) l).

Definition settles (p : nat) (e : Effect) : bool :=
  match settlement e with
  | Some (q, _) => Nat.eqb q p
  | None => false
  end.

Definition settles_by_work (p : nat) (e : Effect) : bool :=
  match e with
  | Resolve q _ | RejectWork q _ => Nat.eqb q p
  | _ => false
  end.

Definition invokes (p : nat) (e : Effect) : bool :=
  match e with
  | Invoke q _ => Nat.eqb q p
  | _ => false
  end.

Definition count (f : Effect -> bool) (history : list Effect) : nat :=
  List.length (filter f history).

(** How often promise [p] has been resolved or rejected. *)
Definition settled_count (rt : Runtime) (p : nat) : nat :=
  count (settles p) (effects rt).

(** An environment value that, once parsed, is no negative number. *)
Definition not_negative (parsed : option Z) : Prop :=
  match parsed with
  | Some n => 0 <= n
  | None => True
  end.

(** What holds of the runtime between any two turns. *)
Record consistent (rt : Runtime) : Prop := mkConsistent {
  cfg_concurrent : 1 <= maxConcurrentRequests (this rt);
  cfg_queue : 0 <= maxQueueSize (this rt);
  running_counted :
    currentRequests (this rt) = Z.of_nat (List.length (awaiting rt));
  running_bounded :
    currentRequests (this rt) <= maxConcurrentRequests (this rt);
  queue_bounded : queue_length (this rt) <= maxQueueSize (this rt);
  each_once : forall p,
    (settled_count rt p + occurrences p (requestQueue (this rt))
     + occurrences p (awaiting rt))%nat
    = if Nat.ltb p (promises rt) then 1%nat else 0%nat;
  invoked_running : forall p,
    count (invokes p) (effects rt)
    = (occurrences p (awaiting rt)
       + count (settles_by_work p) (effects rt))%nat
}.

(** The runtime after the drain popped and rejected the expired items
    [stale], with [rest] left in the queue. *)
Definition drained (rt : Runtime) (stale rest : list QueueItem) : Runtime :=
  {| this := set_requestQueue (this rt) rest;
     awaiting := awaiting rt;
     promises := promises rt;
     effects := timeouts stale ++ effects rt |}.

(** The runtime after [queueItem] settled with [outcome] and its slot was
    given back, before the drain. *)
Definition freed (queueItem : QueueItem) (outcome : Settled JsVal)
    (rt : Runtime) : Runtime :=
  {| this := set_currentRequests (this rt) (currentRequests (this rt) - 1);
     awaiting := resume queueItem (awaiting rt);
     promises := promises rt;
     effects := match outcome with
                | Fulfilled result => Resolve (ticket queueItem) result
                | Rejected error => RejectWork (ticket queueItem) error
                end :: effects rt |}.

(** The call of [queueRequest] that led from [rt] to [rt'] rejected its
    promise with the queue-full error. *)
Definition rejected_full (rt rt' : Runtime) : Prop :=
  effects rt' = RejectFull (promises rt) :: effects rt.

(** Items wait only while every slot is taken. *)
Definition saturated (rt : Runtime) : Prop :=
  requestQueue (this rt) <> [] ->
  maxConcurrentRequests (this rt) <= currentRequests (this rt).


End QueueSpec.


Module ServiceSpec.
Import Ollama.

Section OnAnEngine.
Context {engine : Js.Engine}.

(** [needle] occurs in [haystack] as a substring. *)
Definition substring (needle haystack : string) : Prop :=
  exists before after, haystack = before ++ needle ++ after.

(** The names of the models a [/api/tags] payload lists, when the payload
    has the documented shape [{ models: [{ name: string }, ...] }]. *)
Fixpoint model_names (entries : list JsVal) : option (list string) :=
  match entries with
  | [] => Some []
  | entry :: rest =>
      match Js.get entry "name", model_names rest with
      | Fulfilled (JStr n), Some names => Some (n :: names)
      | _, _ => None
      end
  end.

(** The messages [handleNetworkError] has for the conditions it knows. *)
Definition condition_messages : list string :=
  [timed_out_message; connect_refused_message; not_found_message;
   unreachable_message; endpoint_message; server_error_message].

(** The codes [handleNetworkError] knows. *)
Definition known_codes : list string :=
  ["ETIMEDOUT"; "TIMEOUT"; "ECONNREFUSED"; "ENOTFOUND"; "ENETUNREACH"].

(** The error has none of them. *)
Definition unknown_code (error : JsError) : Prop :=
  forall c, code error = Some c -> ~ In c known_codes.

(** The error has a code or a response status [handleNetworkError] has a
    fixed message for. *)
Definition recognized (error : JsError) : bool :=
  code_is error "ETIMEDOUT" || code_is error "TIMEOUT"
  || code_is error "ECONNREFUSED" || code_is error "ENOTFOUND"
  || code_is error "ENETUNREACH"
  || status_is error (fun s => s =? 404)
  || (negb (status_is error (fun s => s =? 400))
      && status_is error (fun s => s >=? 500)).

(** The data [handleNetworkError] prints for a status of 400. *)
Definition response_data (error : JsError) : JsVal :=
  match response error with
  | Some r => data r
  | None => JUndefined
  end.

(** The same error with another [message]. *)
Definition with_message (error : JsError) (text : string) : JsError :=
  {| message := text; code := code error; response := response error |}.

(** The response fails one of the four checks of [classifyImage]: no data,
    a status other than 200, no [response] field, or a [response] field
    that is [null] or [undefined]. *)
Definition malformed (r : HttpResponse) : Prop :=
  Js.truthy (data r) = false
  \/ status r <> 200
  \/ Js.hasOwnProperty (data r) "response" = Fulfilled false
  \/ Js.get (data r) "response" = Fulfilled JNull
  \/ Js.get (data r) "response" = Fulfilled JUndefined.




(** The pre-flight probes let the call through. *)
Definition preflight_ok (svc : OllamaService)
    (probe1 probe2 : Settled HttpResponse) : Prop :=
  isAvailable probe1 = Fulfilled true
  /\ isModelAvailable svc probe2 = Fulfilled true.

(** [logResponseDebug] does not throw on the response. *)
Definition debug_quiet (development : bool) (r : HttpResponse) : Prop :=
  logResponseDebug development r = Fulfilled tt.

(** What a result reports as processing time: the reported duration in
    milliseconds when [total_duration] is truthy, the time measured around
    the POST otherwise. *)
Definition reported_time (ToNumber_other : JsVal -> Settled spec_float)
    (r : HttpResponse) (elapsed : Z) : Settled Js.Rounded :=
  total_duration <- Js.get (data r) "total_duration" ;;
  if Js.truthy total_duration then
    ns <- ToNumber ToNumber_other total_duration ;;
    Fulfilled (Js.Math_round (Js.Number_div ns (Js.Number_of_Z 1000000)))
  else Fulfilled (Js.RInt elapsed).

(** The character occurs in the text. *)
Fixpoint occurs (c : ascii) (text : string) : bool :=
  match text with
  | EmptyString => false
  | String a rest => Ascii.eqb a c || occurs c rest
  end.

End OnAnEngine.

End ServiceSpec.

(** ** Scenarios *)

Module Scenario.
Import Ollama.

(** How Node.js (V8) words its [TypeError]s.  It names a callee that
    cannot be called by its source text; the calls of the service are
    [response.data.hasOwnProperty], [response.data.models.some] and
    [model.name.includes]. *)
Definition primitive_text (v : JsVal) : string :=
  match v with
  | JUndefined => "undefined"
  | JNull => "null"
  | JBool true => "true"
  | JBool false => "false"
  | JNum n => Js.Z_toString n
  | JStr text => text
  | JArr _ | JObj _ => "#<Object>"
  end.

Definition callee_text (key : string) : string :=
  if String.eqb key "hasOwnProperty" then "response.data.hasOwnProperty"
  else if String.eqb key "some" then "response.data.models.some"
  else if String.eqb key "includes" then "model.name.includes"
  else key.

Definition V8_message (fault : Js.Fault) : string :=
  match fault with
  | Js.Reading v key =>
      "Cannot read properties of " ++ primitive_text v
      ++ " (reading '" ++ key ++ "')"
  | Js.Calling _ key => callee_text key ++ " is not a function"
  | Js.Searching key v =>
      "Cannot use 'in' operator to search for '" ++ key ++ "' in "
      ++ primitive_text v
  | Js.ToObject _ => "Cannot convert undefined or null to object"
  end.

Definition Node : Js.Engine := {| Js.TypeError_message := V8_message |}.
#[local] Existing Instance Node.

(** One slot and room for two waiting items. *)
Definition service : OllamaService :=
  constructor None None (Some 1) (Some 2).

(** Work 10 is submitted at 1000 and runs. *)
Definition busy : Runtime := fst (queueRequest 10 1000 (boot service)).

(** Work 11 is submitted at 2000 and waits. *)
Definition one_waiting : Runtime := fst (queueRequest 11 2000 busy).

(** Work 12 is submitted at 40000 and waits too. *)
Definition two_waiting : Runtime := fst (queueRequest 12 40000 one_waiting).

(** Work 13 is submitted at 41000 and finds the queue full. *)
Definition overflow : Runtime := fst (queueRequest 13 41000 two_waiting).

Definition first : QueueItem :=
  {| execute := 10; ticket := 0; timestamp := 1000 |}.
Definition second : QueueItem :=
  {| execute := 11; ticket := 1; timestamp := 2000 |}.
Definition third : QueueItem :=
  {| execute := 12; ticket := 2; timestamp := 40000 |}.

(** The clock reads 45000 throughout the drain. *)
Definition at_45000 : nat -> Z := fun _ => 45000.

(** Responses of the models list off the documented shape: an entry
    without a name before the entry of the configured model, and an entry
    whose name is a list. *)
Definition tags_nameless_first : HttpResponse :=
  {| status := 200;
     data := JObj [("models", JArr [JObj [];
                                    JObj [("name", JStr "moondream:latest")]])]
  |}.
Definition tags_listed_name : HttpResponse :=
  {| status := 200;
     data := JObj [("models", JArr [JObj [("name", JArr [JStr "moondream"])]])]
  |}.

(** A response of the models list that has the configured model. *)
Definition tags_ok : HttpResponse :=
  {| status := 200;
     data := JObj [("models", JArr [JObj [("name", JStr "moondream:latest")];
                                    JObj [("name", JStr "llama2:7b")]])] |}.

(** The built-ins the scenarios run with.  No scenario prints data with
    [JSON.stringify] other than the empty object, converts an answer that
    is a list to text, or reads a duration that is no number: [no_JSON]
    and [no_number] stand for the built-ins there. *)
Definition no_JSON : JsVal -> string := fun _ => "{}".
Definition String_of_answer (v : JsVal) : Settled string :=
  match v with
  | JArr _ | JObj _ => Fulfilled "[object Object]"
  | _ => Fulfilled (primitive_text v)
  end.
Definition no_number : JsVal -> Settled spec_float :=
  fun _ => Fulfilled S754_nan.

(** White space beyond ASCII, in UTF-8: U+00A0, U+2003 and U+FEFF. *)
Definition nbsp : string :=
  String (ascii_of_nat 194) (String (ascii_of_nat 160) EmptyString).
Definition em_space : string :=
  String (ascii_of_nat 226)
    (String (ascii_of_nat 128) (String (ascii_of_nat 131) EmptyString)).
Definition byte_order_mark : string :=
  String (ascii_of_nat 239)
    (String (ascii_of_nat 187) (String (ascii_of_nat 191) EmptyString)).

(** A response whose answer is padded with such white space. *)
Definition padded : HttpResponse :=
  {| status := 200;
     data := JObj [("response",
                    JStr (nbsp ++ " a cat" ++ em_space ++ byte_order_mark))]
  |}.

(** The closure of [classifyImage] for the default service, with both
    probes answering [tags_ok], outside development. *)
Definition classify (post : Settled HttpResponse) (startTime endTime : Z)
  : Settled ClassificationResult :=
  classifyImage_work no_JSON String_of_answer no_number
    (constructor None None None None) false "What is in this image?"
    (Fulfilled tags_ok) (Fulfilled tags_ok) post startTime endTime.


(** The first item settles with a value and gives its slot back. *)
Definition first_done : Runtime :=
  QueueSpec.freed first (Fulfilled (JStr "cat")) two_waiting.

(** The same completion, with the drain at 45000. *)
Definition after_first : Runtime :=
  executeRequest_resume first (Fulfilled (JStr "cat")) at_45000 two_waiting.

(** Transport failures: one with a code the service knows, one without. *)
Definition refused : JsError :=
  {| message := "connect ECONNREFUSED 127.0.0.1:11434";
     code := Some "ECONNREFUSED"; response := None |}.
Definition hang_up : JsError :=
  {| message := "socket hang up"; code := Some "ECONNRESET";
     response := None |}.

(** Responses of the POST: without data, without the [response] field,
    with a duration of 1.5 seconds in nanoseconds (the response of the
    service's own test), and with a duration of 0. *)
Definition no_data : HttpResponse := {| status := 200; data := JUndefined |}.
Definition timed : HttpResponse :=
  {| status := 200;
     data := JObj [("response",
                    JStr "This is a test image classification result");
                   ("total_duration", JNum 1500000000)] |}.
Definition zero_timed : HttpResponse :=
  {| status := 200;
     data := JObj [("response", JStr "a cat"); ("total_duration", JNum 0)] |}.

End Scenario.

(** ** The HTTP layer around the service *)

Module Express.
Import Ollama.

(** An error as the handlers of the application read it: [err.name],
    [err.message], [err.stack], [err.code], [err.statusCode] (a number or
    absent), [err.errors] (the messages of its values, or absent) and
    whether it is an instance of [multer.MulterError]. *)
Record AppError : Type := mkAppError {
  err_name : string;
  err_message : string;
  err_stack : string;
  err_code : JsVal;
  err_statusCode : option Z;
  err_errors : option (list string);
  err_multer : bool
}.

(** An error of the service, as a handler sees it: a plain [Error]. *)
Definition of_JsError (stack : string) (e : JsError) : AppError :=
  {| err_name := "Error";
     err_message := message e;
     err_stack := stack;
     err_code := match code e with Some c => JStr c | None => JUndefined end;
     err_statusCode := None;
     err_errors := None;
     err_multer := false |}.

(** What a handler adds to the body in development, beside the stack. *)
Inductive Details : Type :=
| MaxSize (code : JsVal)
| ExpectedField (code : JsVal)
| CodeOnly (code : JsVal)
| SupportedFormats
| ErrorCopy (err : AppError)
| Override (text : string) (statusCode : Z).

(** The JSON body of an error response: [error], [message], [suggestion]
    and, in development, [stack] and [details]. *)
Record Body : Type := mkBody {
  error : string;
  detail : option string;
  suggestion : option string;
  debug : option (string * Details)
}.

(** [res.status(code).json(body)], or [next(...)]. *)
Inductive Outcome (A : Type) : Type :=
| Respond (http_status : Z) (body : Body)
| Next (passed : A).
Arguments Respond {A} http_status body.
Arguments Next {A} passed.

(** [...(process.env.NODE_ENV === 'development' && { stack, details })] *)
Definition in_development (development : bool) (stack : string)
    (details : Details) : option (string * Details) :=
  if development then Some (stack, details) else None.

(** *** middleware/authMiddleware.js *)

(** A header value reaches the handler with one character for each of its
    bytes (Latin-1), and is held here byte by byte.  Of these characters
    [trim] removes TAB, LF, VT, FF, CR, the space and U+00A0, the byte
    160. *)
Definition is_space (c : ascii) : bool :=
  match nat_of_ascii c with
  | 9%nat | 10%nat | 11%nat | 12%nat | 13%nat | 32%nat | 160%nat => true
  | _ => false
  end.

Fixpoint trimStart (s : string) : string :=
  match s with
  | EmptyString => EmptyString
  | String c rest => if is_space c then trimStart rest else s
  end.

Fixpoint trimEnd (s : string) : string :=
  match s with
  | EmptyString => EmptyString
  | String c rest =>
      match trimEnd rest with
      | EmptyString => if is_space c then EmptyString else String c EmptyString
      | t => String c t
      end
  end.

Definition trim (s : string) : string := trimEnd (trimStart s).

(** [s.substring(n)] *)
Fixpoint substring_from (n : nat) (s : string) : string :=
  match n, s with
  | O, _ => s
  | S n', String _ rest => substring_from n' rest
  | S _, EmptyString => EmptyString
  end.

(** What [jwt.verify(token, secret)] does: returns the payload, or throws
    an error of some [name]. *)
Inductive Verification : Type :=
| Decoded (payload : JsVal)
| Refused (name : string).

Definition unauthorized (error_text message_text : string) : Body :=
  {| error := error_text; detail := Some message_text;
     suggestion := None; debug := None |}.

(** [authMiddleware(req, res, next)]: [authorization] is
    [req.headers.authorization], [verify] is [jwt.verify] with the secret
    of the application; [Next payload] is [req.user = payload; next()].
    The log line reads [decoded.userId], which throws on a payload that is
    [null] or [undefined]. *)
Definition authMiddleware (authorization : option string)
    (verify : string -> Verification) : Outcome JsVal :=
  match authorization with
  | None | Some EmptyString =>
      Respond 401 (unauthorized "Authentication required"
                     "Please provide a valid Bearer token")
  | Some authHeader =>
      if negb (Js.prefix "Bearer " authHeader) then
        Respond 401 (unauthorized "Invalid token format"
                       ("Token must be provided as " ++ dquote
                        ++ "Bearer <token>" ++ dquote))
      else
        let token := trim (substring_from 7 authHeader) in
        if String.eqb token EmptyString then
          Respond 401 (unauthorized "Token not provided"
                         "Please provide a valid Bearer token")
        else
          let caught (name : string) : Outcome JsVal :=
            if String.eqb name "TokenExpiredError" then
              Respond 401 (unauthorized "Token expired"
                             "Please login again to get a new token")
            else if String.eqb name "JsonWebTokenError" then
              Respond 401 (unauthorized "Invalid token"
                             "Please provide a valid token")
            else
              Respond 500 (unauthorized "Authentication error"
                             "An error occurred during authentication") in
          match verify token with
          | Decoded JUndefined | Decoded JNull => caught "TypeError"
          | Decoded payload => Next payload
          | Refused name => caught name
          end
  end.

(** *** controllers/classifyController.js *)

(** [s.split(sep)] for a separator of one character *)
Fixpoint split (sep : ascii) (s : string) : list string :=
  match s with
  | EmptyString => [EmptyString]
  | String c rest =>
      if Ascii.eqb c sep then EmptyString :: split sep rest
      else match split sep rest with
           | piece :: pieces => String c piece :: pieces
           | [] => [String c EmptyString]
           end
  end.

Definition comma : ascii := ascii_of_nat 44.

Definition default_prompt : string :=
  "What object is in this image? Provide a brief, descriptive answer.".

(** [req.body.prompt || "What object is ..."] *)
Definition prompt_of (prompt : option string) : string :=
  env_or prompt default_prompt.

(** How the handler leaves its input stage: with a 400 response, with the
    base64 text of the image, or by throwing (the [TypeError] of
    [Buffer.from(undefined, 'base64')]). *)
Inductive ImageInput : Type :=
| BadRequest (body : Body)
| Accepted (imageBase64 : string)
| InputThrows.

Definition no_image : Body :=
  {| error := "No image provided";
     detail := Some
       "Please provide an image either as a file upload or base64 string";
     suggestion := None; debug := None |}.

Definition invalid_image : Body :=
  {| error := "Invalid image data";
     detail := Some "The provided image data is empty or invalid";
     suggestion := None; debug := None |}.

(** [if (!imageBase64 || imageBase64.length === 0)] *)
Definition validate_base64 (imageBase64 : string) : ImageInput :=
  if String.eqb imageBase64 EmptyString then BadRequest invalid_image
  else Accepted imageBase64.

Section Upload.

(** The buffer of an uploaded file and its [toString('base64')]. *)
Variable Buffer : Type.
Variable toString_base64 : Buffer -> string.

(** The input stage of [classifyImage]: [file] is [req.file] (its buffer),
    [image] is [req.body.image], a string when present (the route's
    validation has passed). *)
Definition read_image (file : option Buffer) (image : option string)
  : ImageInput :=
  match file with
  | Some buffer => validate_base64 (toString_base64 buffer)
  | None =>
      match image with
      | None | Some EmptyString => BadRequest no_image
      | Some text =>
          if Js.prefix "data:image/" text then
            match nth_error (split comma text) 1 with
            | Some imageBase64 => validate_base64 imageBase64
            | None => InputThrows
            end
          else validate_base64 text
      end
  end.

End Upload.

Definition service_unavailable (text : string) : Body :=
  {| error := "Service unavailable";
     detail := Some text;
     suggestion :=
       Some "Please ensure Ollama is running and the model is available";
     debug := None |}.

Definition request_timeout : Body :=
  {| error := "Request timeout";
     detail :=
       Some "Image processing took too long. Try with a smaller image.";
     suggestion := Some "Reduce image size or complexity";
     debug := None |}.

(** The [catch] of [classifyImage]: the answer to an error thrown in the
    handler, among them the rejections of [ollamaService.classifyImage]. *)
Definition classifyImage_catch (e : AppError) : Outcome AppError :=
  if Js.includes (err_message e) "Ollama service" then
    Respond 503 (service_unavailable (err_message e))
  else if Js.includes (err_message e) "timeout" then
    Respond 408 request_timeout
  else Next e.

(** The body of the status page, without its constant parts ([service],
    [capabilities], [usage]). *)
Record StatusPage : Type := mkStatusPage {
  page_status : string;
  page_ollama : StatusReport.t;
  total_classifications : JsVal;
  success_rate : string;
  avg_processing_time : string;
  last_24h : JsVal;
  page_models : JsVal
}.

Section StatusPageOf.
Context {engine : Js.Engine}.

(** [`${v}`], which may throw on an object. *)
Variable Template : JsVal -> Settled string.

(** [getStatus(req, res, next)] of the controller: [probe1] and [probe2]
    are the probes of [ollamaService.getStatus()], [stats] and
    [modelStats] what [Classification.getStats()] and
    [Classification.getModelStats()] give; [Fulfilled page] is
    [res.status(200).json(page)], [Rejected error] is [next(error)]. *)
Definition getStatus_page (svc : OllamaService)
    (probe1 probe2 : Settled HttpResponse) (stats modelStats : Settled JsVal)
  : Settled StatusPage :=
  status <- Ollama.getStatus svc probe1 probe2 ;;
  stats' <- stats ;;
  modelStats' <- modelStats ;;
  total <- Js.get stats' "total_classifications" ;;
  rate <- Js.get stats' "success_rate" ;;
  rate_text <- Template rate ;;
  avg <- Js.get stats' "avg_processing_time" ;;
  avg_text <- Template avg ;;
  last <- Js.get stats' "last_24h" ;;
  Fulfilled
    {| page_status :=
         if StatusReport.available (StatusReport.service status)
            && StatusReport.model_available (StatusReport.model status)
         then "healthy" else "degraded";
       page_ollama := status;
       total_classifications := total;
       success_rate := rate_text ++ "%";
       avg_processing_time := avg_text ++ "ms";
       last_24h := last;
       page_models := modelStats' |}.

End StatusPageOf.

(** *** routes/classifyRoutes.js: the error handler of the router *)

Definition routes_error_handler (development : bool) (e : AppError)
  : Outcome AppError :=
  if err_multer e then
    match err_code e with
    | JStr "LIMIT_FILE_SIZE" =>
        Respond 413
          {| error := "File size too large";
             detail := Some "Image size must be less than 10MB";
             suggestion := None;
             debug := in_development development (err_stack e)
                        (MaxSize (err_code e)) |}
    | JStr "LIMIT_UNEXPECTED_FILE" =>
        Respond 400
          {| error := "Unexpected file field";
             detail := Some ("Please upload the image using the " ++ dquote
                             ++ "image" ++ dquote ++ " field name");
             suggestion := None;
             debug := in_development development (err_stack e)
                        (ExpectedField (err_code e)) |}
    | _ =>
        Respond 400
          {| error := "File upload error";
             detail := Some (err_message e);
             suggestion := None;
             debug := in_development development (err_stack e)
                        (CodeOnly (err_code e)) |}
    end
  else if Js.includes (err_message e) "Invalid file type" then
    Respond 400
      {| error := "Invalid file type";
         detail := Some (err_message e);
         suggestion := None;
         debug := in_development development (err_stack e)
                    SupportedFormats |}
  else Next e.

(** *** middleware/errorHandler.js *)

(** [code === 'text'] *)
Definition code_is_text (c : JsVal) (text : string) : bool :=
  match c with
  | JStr s => String.eqb s text
  | _ => false
  end.

(** The local [error] of [errorHandler]: the copy of [err], or the
    [{ message, statusCode }] an [if] has put in its place. *)
Inductive Replaced : Type :=
| Copy
| Put (text : string) (statusCode : Z).

Definition replace_when (test : bool) (text : string) (statusCode : Z)
    (current : Replaced) : Replaced :=
  if test then Put text statusCode else current.

(** [v || w] on status codes: [0] and absent are falsy. *)
Definition status_or (v : option Z) (w : Z) : Z :=
  match v with
  | Some n => if n =? 0 then w else n
  | None => w
  end.

(** [errorHandler(err, req, res, next)].  It throws when [err.name] is
    ['ValidationError'] and [err.errors] is absent ([Object.values] of
    [undefined]). *)
Definition errorHandler {engine : Js.Engine} (development : bool)
    (err : AppError) : Settled (Z * Body) :=
  let error0 := Copy in
  let error1 :=
    replace_when (String.eqb (err_name err) "CastError")
      "Invalid resource ID format" 400 error0 in
  let error2 :=
    replace_when (match err_code err with
                  | JNum n => n =? 11000
                  | _ => false
                  end)
      "Duplicate field value entered" 400 error1 in
  error3 <-
    (if String.eqb (err_name err) "ValidationError" then
       match err_errors err with
       | Some messages =>
           Fulfilled (Put (String.concat ", " messages) 400)
       | None => Rejected (Js.TypeError (Js.ToObject JUndefined))
       end
     else Fulfilled error2) ;;
  let error4 :=
    replace_when (String.eqb (err_name err) "JsonWebTokenError")
      "Invalid token" 401 error3 in
  let error5 :=
    replace_when (String.eqb (err_name err) "TokenExpiredError")
      "Token expired" 401 error4 in
  let error6 :=
    replace_when (code_is_text (err_code err) "LIMIT_FILE_SIZE")
      "File size too large" 413 error5 in
  let error7 :=
    replace_when (code_is_text (err_code err) "LIMIT_UNEXPECTED_FILE")
      "Unexpected file field" 400 error6 in
  let statusCode :=
    match error7 with
    | Put _ code => status_or (Some code) (status_or (err_statusCode err) 500)
    | Copy =>
        status_or (err_statusCode err) (status_or (err_statusCode err) 500)
    end in
  let text :=
    match error7 with
    | Put t _ => t
    | Copy => err_message err
    end in
  let shown :=
    if String.eqb text EmptyString then "Internal server error" else text in
  Fulfilled
    (statusCode,
     {| error := shown;
        detail := None;
        suggestion := None;
        debug := in_development development (err_stack err)
                   match error7 with
                   | Put t code => Override t code
                   | Copy => ErrorCopy err
                   end |}).

(** *** routes/classifyRoutes.js: the upload filter and the routes *)

Definition allowedMimes : list string :=
  ["image/jpeg"; "image/jpg"; "image/png"; "image/gif"; "image/webp"].

Definition invalid_file_type : string :=
  "Invalid file type. Only JPEG, PNG, GIF, and WebP images are allowed.".

(** [fileFilter(req, file, cb)]: [None] is [cb(null, true)], [Some e] is
    [cb(e, false)], which multer passes to [next]. *)
Definition fileFilter (stack mimetype : string) : option AppError :=
  if existsb (String.eqb mimetype) allowedMimes then None
  else Some (of_JsError stack (new_Error invalid_file_type)).

Inductive Method : Type := GET | HEAD | POST | DELETE | OtherMethod.

(** A route answers its own method; a [get] route answers [HEAD] too. *)
Definition handles (route request : Method) : bool :=
  match route, request with
  | GET, GET | GET, HEAD | POST, POST | DELETE, DELETE => true
  | _, _ => false
  end.

(** A segment of a route path: literal text, or a parameter [:name]. *)
Inductive Segment : Type :=
| Lit (text : string)
| Param (name : string).

Inductive Handler : Type :=
| info
| classifyImage
| getStatus
| getSamples
| getHistory
| getClassification
| deleteClassification
| searchClassifications.

(** A route: method, path, whether [authMiddleware] comes first, and the
    handler the chain ends in. *)
Record Route : Type := mkRoute {
  route_method : Method;
  route_path : list Segment;
  route_auth : bool;
  route_handler : Handler
}.

(** The routes of the router, in the order they are registered. *)
Definition routes : list Route :=
  [ mkRoute GET [] false info;
    mkRoute POST [Lit "image"] true classifyImage;
    mkRoute GET [Lit "status"] false getStatus;
    mkRoute GET [Lit "samples"] false getSamples;
    mkRoute GET [Lit "history"] true getHistory;
    mkRoute GET [Param "id"] true getClassification;
    mkRoute DELETE [Param "id"] true deleteClassification;
    mkRoute GET [Lit "search"] true searchClassifications ].

Definition lower (c : ascii) : ascii :=
  let n := nat_of_ascii c in
  if (Nat.leb 65 n && Nat.leb n 90)%bool then ascii_of_nat (n + 32) else c.

Fixpoint lowercase (s : string) : string :=
  match s with
  | EmptyString => EmptyString
  | String c rest => String (lower c) (lowercase rest)
  end.

Definition slash : ascii := ascii_of_nat 47.

(** The segments of a request path under the router: the path starts with
    a slash and may end in one more. *)
Definition segments (path : string) : option (list string) :=
  match path with
  | String c rest =>
      if Ascii.eqb c slash then
        match rev (split slash rest) with
        | EmptyString :: before => Some (rev before)
        | pieces => Some (rev pieces)
        end
      else None
  | EmptyString => None
  end.

(** A literal matches its text whatever the case, a parameter any
    non-empty segment. *)
Definition segment_matches (pattern : Segment) (piece : string) : bool :=
  match pattern with
  | Lit text => String.eqb (lowercase text) (lowercase piece)
  | Param _ => negb (String.eqb piece EmptyString)
  end.

Fixpoint path_matches (pattern : list Segment) (pieces : list string)
  : bool :=
  match pattern, pieces with
  | [], [] => true
  | p :: pattern', piece :: pieces' =>
      segment_matches p piece && path_matches pattern' pieces'
  | _, _ => false
  end.

Definition route_matches (request : Method) (path : string) (r : Route)
  : bool :=
  handles (route_method r) request
  && match segments path with
     | Some pieces => path_matches (route_path r) pieces
     | None => false
     end.

(** The route a request is dispatched to: the first one that matches. *)
Definition dispatch (request : Method) (path : string) : option Route :=
  find (route_matches request path) routes.

(** An error the handler of [classifyImage] passes on goes through the
    error handler of the router and then through [errorHandler]. *)
Definition classify_error_route {engine : Js.Engine} (development : bool)
    (e : AppError) : Settled (Z * Body) :=
  match classifyImage_catch e with
  | Respond code body => Fulfilled (code, body)
  | Next e1 =>
      match routes_error_handler development e1 with
      | Respond code body => Fulfilled (code, body)
      | Next e2 => errorHandler development e2
      end
  end.

End Express.

(** ** Vocabulary and scenarios of the HTTP layer *)

Module HttpSpec.
#[local] Existing Instance Scenario.Node.

(** The routes [GET /search] and [GET /:id] of the router. *)
Definition search_route : Express.Route :=
  Express.mkRoute Express.GET [Express.Lit "search"] true
    Express.searchClassifications.

Definition id_route : Express.Route :=
  Express.mkRoute Express.GET [Express.Param "id"] true
    Express.getClassification.

(** Both probes fail: Ollama is down. *)
Definition down : Settled HttpResponse := Rejected Scenario.refused.

(** A probe that answers 200 without a body: the service is there, the
    model cannot be read. *)
Definition no_models : Settled HttpResponse := Fulfilled Scenario.no_data.

(** The error of a connection attempt the system gave up on, which
    carries the code ETIMEDOUT; and the error axios makes when the POST
    exceeds its own timeout, which carries the code ECONNABORTED. *)
Definition connect_timeout : JsError :=
  {| message := "connect ETIMEDOUT 10.0.0.5:11434"; code := Some "ETIMEDOUT";
     response := None |}.

Definition axios_timeout : JsError :=
  {| message := "timeout of 60000ms exceeded"; code := Some "ECONNABORTED";
     response := None |}.

(** A stack, as [err.stack] holds one. *)
Definition stack : string := "Error: at classifyImage".

(** An error of the application with nothing special about it, and a
    validation error that lacks its [errors]. *)
Definition boom : Express.AppError :=
  Express.of_JsError stack (new_Error "boom").

Definition validation_without_errors : Express.AppError :=
  {| Express.err_name := "ValidationError";
     Express.err_message := "Validation failed";
     Express.err_stack := stack;
     Express.err_code := JUndefined;
     Express.err_statusCode := None;
     Express.err_errors := None;
     Express.err_multer := false |}.

(** A [jwt.verify] that knows one token. *)
Definition verify_one (token : string) : Express.Verification :=
  if String.eqb token "abc.def.ghi" then
    Express.Decoded (JObj [("userId", JNum 1)])
  else Express.Refused "JsonWebTokenError".

(** Buffers that hold their base64 text. *)
Definition text_of_buffer (buffer : string) : string := buffer.

(** The statistics of the database, and template literals on the values
    they hold. *)
Definition stats : JsVal :=
  JObj [("total_classifications", JNum 12); ("success_rate", JNum 75);
        ("avg_processing_time", JNum 1500); ("last_24h", JNum 3)].

Definition Template_of_scalar (v : JsVal) : Settled string :=
  match v with
  | JUndefined => Fulfilled "undefined"
  | JNull => Fulfilled "null"
  | JBool true => Fulfilled "true"
  | JBool false => Fulfilled "false"
  | JNum n => Fulfilled (Js.Z_toString n)
  | JStr text => Fulfilled text
  | JArr _ | JObj _ => Fulfilled "[object Object]"
  end.

(** The status page while Ollama is down. *)
Definition page_when_down : Settled Express.StatusPage :=
  Express.getStatus_page Template_of_scalar
    (Ollama.constructor None None None None) down down
    (Fulfilled stats) (Fulfilled (JArr [])).

End HttpSpec.

(** ** More vocabulary for the queue *)

Module QueueRuns.
Import Ollama QueueSpec.

(** A burst: the works are submitted one after the other, each with its
    reading of the clock, and none completes in between. *)
Definition submit_all (works : list (nat * Z)) (rt : Runtime) : Runtime :=
  fold_left (fun r w => fst (queueRequest (fst w) (snd w) r)) works rt.

Definition is_invoke (e : Effect) : bool :=
  match e with Invoke _ _ => true | _ => false end.

Definition is_full (e : Effect) : bool :=
  match e with RejectFull _ => true | _ => false end.

(** The tickets of the waiting items, head first. *)
Definition waiting (rt : Runtime) : list nat :=
  map ticket (requestQueue (this rt)).

(** The promises whose work has been invoked. *)
Definition invoked (rt : Runtime) (p : nat) : Prop :=
  exists fn, In (Invoke p fn) (effects rt).

(** The numbers of a burst of [k] submissions. *)
Definition burst_numbers (rt : Runtime) (k : Z) : Prop :=
  let m := maxConcurrentRequests (this rt) in
  let q := maxQueueSize (this rt) in
  currentRequests (this rt) = Z.min k m
  /\ queue_length (this rt) = Z.min (Z.max 0 (k - m)) q
  /\ Z.of_nat (count is_full (effects rt)) = Z.max 0 (k - m - q)
  /\ Z.of_nat (count is_invoke (effects rt)) = Z.min k m.

(** The promise an effect is about. *)
Definition handled (e : Effect) : nat :=
  match e with
  | Invoke p _ | Resolve p _ | RejectWork p _ | RejectFull p
  | RejectTimeout p => p
  end.

(** The effects by which an item leaves the line: its work is invoked, or
    it is rejected as expired. *)
Definition taken (e : Effect) : bool :=
  match e with
  | Invoke _ _ | RejectTimeout _ => true
  | _ => false
  end.

(** The queue holds the waiting promises in the order of their
    submission, and whatever has left the line was submitted before
    everything that still waits. *)
Record in_order (rt : Runtime) : Prop := mkInOrder {
  waiting_sorted : StronglySorted Nat.lt (waiting rt);
  waiting_issued : Forall (fun p => (p < promises rt)%nat) (waiting rt);
  effects_issued : Forall (fun e => (handled e < promises rt)%nat)
                     (effects rt);
  waiting_last : forall e p,
    In e (effects rt) -> taken e = true -> In p (waiting rt) ->
    (handled e < p)%nat
}.

(** Fifteen submissions in a row, one millisecond apart. *)
Definition burst : list (nat * Z) :=
  map (fun i => (i, 1000 + Z.of_nat i)) (seq 0 15).

(** The service of the repository after the burst. *)
Definition after_burst : Runtime :=
  submit_all burst (boot (constructor None None None None)).

(** The first work of the scenario is submitted and settles while nobody
    waits. *)
Definition first_alone : Runtime :=
  executeRequest_resume Scenario.first (Fulfilled (JStr "cat"))
    Scenario.at_45000 Scenario.busy.

(** Tickets are handed out in order: whatever the history, the queue and
    the suspended calls mention has been issued; and the work of every
    suspended call has been invoked. *)
Record numbered (rt : Runtime) : Prop := mkNumbered {
  effects_numbered :
    Forall (fun e => (handled e < promises rt)%nat) (effects rt);
  queue_numbered :
    Forall (fun i => (ticket i < promises rt)%nat) (requestQueue (this rt));
  awaiting_numbered :
    Forall (fun i => (ticket i < promises rt)%nat) (awaiting rt);
  awaiting_invoked :
    Forall (fun i => In (Invoke (ticket i) (execute i)) (effects rt))
      (awaiting rt)
}.

(** Nothing runs and nothing has run: the bound on the running work is
    [n], nothing is in flight, and the history holds queue-full rejections
    only. *)
Record starved (n : Z) (rt : Runtime) : Prop := mkStarved {
  starved_bound : maxConcurrentRequests (this rt) = n;
  starved_idle : currentRequests (this rt) = 0;
  starved_nobody : awaiting rt = [];
  starved_effects : Forall (fun e => is_full e = true) (effects rt)
}.

(** A service with a negative bound on the running work, after two
    submissions. *)
Definition starving : Runtime :=
  submit_all [(10%nat, 1000); (11%nat, 2000)]
    (boot (constructor None None (Some (-1)) None)).

(** A service with a negative queue size, after three submissions. *)
Definition no_room : Runtime :=
  fst (queueRequest 12 2000
         (fst (queueRequest 11 1500
                 (fst (queueRequest 10 1000
                         (boot (constructor None None None (Some (-1))))))))).

End QueueRuns.

(** ** Properties of the request queue *)

Section QueueFacts.
Import Ollama QueueSpec QueueRuns.
Local Open Scope list_scope.

Lemma occurrences_app p l1 l2 :
  occurrences p (l1 ++ l2) = (occurrences p l1 + occurrences p l2)%nat.
Proof.
  unfold occurrences. now rewrite filter_app, length_app.
Qed.

Lemma occurrences_nil p : occurrences p [] = 0%nat.
Proof. reflexivity. Qed.

Lemma occurrences_cons p x l :
  occurrences p (x :: l)
  = ((if Nat.eqb (ticket x) p then 1 else 0) + occurrences p l)%nat.
Proof.
  unfold occurrences, has_ticket. simpl.
  destruct (Nat.eqb (ticket x) p); reflexivity.
Qed.

Lemma occurrences_resume p item l :
  occurrences p (resume item l)
  = if Nat.eqb (ticket item) p then 0%nat else occurrences p l.
Proof.
  induction l as [|x l IH]; simpl.
  - now destruct (Nat.eqb (ticket item) p).
  - unfold resume in *. simpl.
    destruct (Nat.eqb (ticket x) (ticket item)) eqn:E; simpl.
    + rewrite IH, occurrences_cons. apply Nat.eqb_eq in E. rewrite E.
      destruct (Nat.eqb (ticket item) p); reflexivity.
    + rewrite !occurrences_cons, IH.
      destruct (Nat.eqb (ticket item) p) eqn:E'; [|reflexivity].
      apply Nat.eqb_eq in E'. subst p. now rewrite E.
Qed.

Lemma length_resume item l :
  (List.length (resume item l) + occurrences (ticket item) l)%nat
  = List.length l.
Proof.
  induction l as [|x l IH]; [reflexivity|].
  unfold resume in *. rewrite occurrences_cons. simpl.
  destruct (Nat.eqb (ticket x) (ticket item)); simpl; lia.
Qed.

Lemma occurrences_In item l :
  In item l -> (1 <= occurrences (ticket item) l)%nat.
Proof.
  induction l as [|x l IH]; simpl; [tauto|].
  rewrite occurrences_cons. intros [->|H].
  - rewrite Nat.eqb_refl. lia.
  - specialize (IH H). lia.
Qed.

Lemma occurrences_positive p l :
  (1 <= occurrences p l)%nat -> exists item, In item l /\ ticket item = p.
Proof.
  induction l as [|x l IH]; simpl; [unfold occurrences; simpl; lia|].
  rewrite occurrences_cons.
  destruct (Nat.eqb (ticket x) p) eqn:E.
  - apply Nat.eqb_eq in E. intros _. exists x. auto.
  - intros H. destruct IH as [i [Hi Ht]]; [lia|]. exists i. auto.
Qed.

Lemma count_cons f e l :
  count f (e :: l) = ((if f e then 1 else 0) + count f l)%nat.
Proof.
  unfold count. simpl. destruct (f e); reflexivity.
Qed.

Lemma count_app f l1 l2 :
  count f (l1 ++ l2) = (count f l1 + count f l2)%nat.
Proof.
  unfold count. now rewrite filter_app, length_app.
Qed.



(** The source shape of [processQueue]: one test, one [shift], one reading
    of the clock, then either the rejection and the recursive call with the
    clock moved on, or the call of [executeRequest]. *)
Lemma processQueue_unfold clock rt :
  processQueue clock rt =
  if (0 <? queue_length (this rt))
     && (currentRequests (this rt) <? maxConcurrentRequests (this rt)) then
    match requestQueue (this rt) with
    | [] => rt
    | nextRequest :: rest =>
        let rt' := set_this rt (set_requestQueue (this rt) rest) in
        if clock 0%nat - timestamp nextRequest >? 30000 then
          processQueue (fun k => clock (S k))
            (emit (RejectTimeout (ticket nextRequest)) rt')
        else executeRequest nextRequest rt'
    end
  else rt.
Proof.
  unfold processQueue, queue_length.
  destruct (requestQueue (this rt)) as [|x rest] eqn:Q; [reflexivity|].
  cbn [processQueue_from].
  replace (0 <? Z.of_nat (List.length (x :: rest))) with true
    by (symmetry; apply Z.ltb_lt; simpl List.length; lia).
  cbn [andb].
  destruct (currentRequests (this rt) <? maxConcurrentRequests (this rt));
    [|reflexivity].
  cbv zeta.
  destruct (clock 0%nat - timestamp x >? 30000); [|reflexivity].
  cbn [emit set_this this set_requestQueue requestQueue].
  generalize (emit (RejectTimeout (ticket x))
                (set_this rt (set_requestQueue (this rt) rest))).
  generalize 0%nat. clear.
  induction rest as [|y rest IH]; intros k r; [reflexivity|].
  cbn [processQueue_from]. 
  destruct (currentRequests (this r) <? maxConcurrentRequests (this r));
    [|reflexivity].
  cbv zeta. destruct (clock (S k) - timestamp y >? 30000); [|reflexivity].
  apply IH.
Qed.

Ltac ticket_cases :=
  repeat match goal with
  | |- context [Nat.eqb ?a ?b] =>
      let E := fresh "E" in
      destruct (Nat.eqb a b) eqn:E;
      [apply Nat.eqb_eq in E | apply Nat.eqb_neq in E]
  | |- context [Nat.ltb ?a ?b] =>
      let E := fresh "E" in
      destruct (Nat.ltb a b) eqn:E;
      [apply Nat.ltb_lt in E | apply Nat.ltb_ge in E]
  | H : context [Nat.ltb ?a ?b] |- _ =>
      let E := fresh "E" in
      destruct (Nat.ltb a b) eqn:E;
      [apply Nat.ltb_lt in E | apply Nat.ltb_ge in E]
  end.

(** Reads the fields of a runtime written out as a record. *)
Ltac fields :=
  cbn [this awaiting promises effects executeRequest emit set_this
       set_currentRequests set_requestQueue currentRequests
       maxConcurrentRequests maxQueueSize requestQueue ticket execute
       timestamp fst snd] in *.

Ltac counts :=
  unfold settled_count in *; fields;
  rewrite ?occurrences_app, ?occurrences_cons, ?occurrences_nil,
    ?count_cons, ?occurrences_resume;
  cbn [settles settles_by_work invokes settlement ticket];
  ticket_cases; lia.

Lemma boot_consistent svc :
  1 <= maxConcurrentRequests svc -> 0 <= maxQueueSize svc ->
  currentRequests svc = 0 -> requestQueue svc = [] ->
  consistent (boot svc) /\ saturated (boot svc).
Proof.
  intros Hc Hq H0 Hnil. split.
  - constructor; unfold boot, queue_length, settled_count; fields;
      rewrite ?H0, ?Hnil; try (simpl; lia); reflexivity.
  - intros H. unfold boot in H. fields. contradiction.
Qed.

Lemma constructor_boot url mdl conc size :
  not_negative conc -> not_negative size ->
  consistent (boot (constructor url mdl conc size))
  /\ saturated (boot (constructor url mdl conc size)).
Proof.
  intros Hc Hs. apply boot_consistent; simpl; try reflexivity.
  - destruct conc as [n|]; simpl in *; [|lia].
    destruct (n =? 0) eqn:E; [lia|]. apply Z.eqb_neq in E. lia.
  - destruct size as [n|]; simpl in *; [|lia].
    destruct (n =? 0) eqn:E; lia.
Qed.

Lemma queueRequest_consistent requestFn now rt :
  consistent rt -> saturated rt ->
  consistent (fst (queueRequest requestFn now rt))
  /\ saturated (fst (queueRequest requestFn now rt)).
Proof.
  intros [Hc Hq Hrun Hle Hlen Honce Hinv] Hsat.
  unfold saturated in *. unfold queueRequest. fields.
  destruct (currentRequests (this rt) <? maxConcurrentRequests (this rt))
    eqn:Hfree; [apply Z.ltb_lt in Hfree | apply Z.ltb_ge in Hfree].
  - (* a slot is free *)
    split.
    + constructor; unfold queue_length in *; fields; try lia.
      * rewrite Hrun. simpl List.length. lia.
      * intros p. specialize (Honce p). counts.
      * intros p. specialize (Hinv p). counts.
    + intros Hne. fields. specialize (Hsat Hne). lia.
  - destruct (queue_length (this rt) >=? maxQueueSize (this rt)) eqn:Hfull.
    + (* the queue is full *)
      split.
      * constructor; unfold queue_length in *; fields; try assumption.
        all: intros p; specialize (Honce p); specialize (Hinv p); counts.
      * intros Hne. fields. exact (Hsat Hne).
    + (* the item joins the queue *)
      assert (queue_length (this rt) < maxQueueSize (this rt)) as Hroom.
      { unfold Z.geb in Hfull.
        destruct (queue_length (this rt) ?= maxQueueSize (this rt)) eqn:C;
          try discriminate. now apply Z.compare_lt_iff. }
      split.
      * constructor; unfold queue_length in *; fields; try assumption.
        all: try (rewrite length_app; simpl List.length; lia).
        all: intros p; specialize (Honce p); specialize (Hinv p); counts.
      * intros _. fields. lia.
Qed.

Lemma processQueue_from_consistent clock queue :
  forall k rt,
    requestQueue (this rt) = queue ->
    consistent rt ->
    (queue <> [] ->
     maxConcurrentRequests (this rt) <= currentRequests (this rt) + 1) ->
    consistent (processQueue_from clock k queue rt)
    /\ saturated (processQueue_from clock k queue rt).
Proof.
  induction queue as [|x rest IH]; intros k rt Hq Hrt Hcap.
  - cbn [processQueue_from]. split; [exact Hrt|]. intros H. congruence.
  - cbn [processQueue_from]. specialize (Hcap ltac:(discriminate)).
    destruct Hrt as [Hc Hqs Hrun Hle Hlen Honce Hinv].
    destruct (currentRequests (this rt) <? maxConcurrentRequests (this rt))
      eqn:Hfree; [apply Z.ltb_lt in Hfree | apply Z.ltb_ge in Hfree].
    + cbv zeta. unfold queue_length in *. rewrite Hq in *.
      simpl List.length in Hlen.
      destruct (clock k - timestamp x >? 30000).
      * (* expired: rejected, then the next one *)
        apply IH; [reflexivity| |fields; intros _; lia].
        constructor; unfold queue_length; fields; try assumption; try lia.
        all: intros p; generalize (Honce p) (Hinv p); rewrite ?Hq; counts.
      * (* admitted *)
        split.
        -- constructor; unfold queue_length; fields; try assumption;
             try lia.
           ++ rewrite Hrun. simpl List.length. lia.
           ++ intros p. generalize (Honce p). rewrite ?Hq. counts.
           ++ intros p. specialize (Hinv p). counts.
        -- intros _. fields. lia.
    + split; [constructor; assumption|]. intros _. lia.
Qed.

Lemma processQueue_consistent clock rt :
  consistent rt -> saturated rt ->
  consistent (processQueue clock rt) /\ saturated (processQueue clock rt).
Proof.
  intros Hrt Hsat. apply processQueue_from_consistent; auto.
  intros H. specialize (Hsat H). lia.
Qed.

Lemma awaiting_once rt queueItem :
  consistent rt -> In queueItem (awaiting rt) ->
  occurrences (ticket queueItem) (awaiting rt) = 1%nat.
Proof.
  intros Hrt Hin. apply occurrences_In in Hin.
  pose proof (each_once rt Hrt (ticket queueItem)) as H.
  destruct (Nat.ltb (ticket queueItem) (promises rt)); lia.
Qed.

Lemma executeRequest_resume_consistent queueItem outcome clock rt :
  consistent rt -> saturated rt -> In queueItem (awaiting rt) ->
  consistent (executeRequest_resume queueItem outcome clock rt)
  /\ saturated (executeRequest_resume queueItem outcome clock rt).
Proof.
  intros Hrt Hsat Hin. unfold executeRequest_resume, processQueue.
  pose proof (awaiting_once rt queueItem Hrt Hin) as Hone.
  pose proof (length_resume queueItem (awaiting rt)) as Hlen'.
  destruct Hrt as [Hc Hqs Hrun Hle Hlen Honce Hinv].
  apply processQueue_from_consistent; fields; [reflexivity| |].
  - constructor; unfold queue_length in *; fields; try assumption; try lia.
    + intros p. specialize (Honce p).
      destruct (Nat.eq_dec (ticket queueItem) p) as [<-|Hp];
        destruct outcome; counts.
    + intros p. specialize (Hinv p).
      destruct (Nat.eq_dec (ticket queueItem) p) as [<-|Hp];
        destruct outcome; counts.
  - intros H. specialize (Hsat H). lia.
Qed.

Lemma step_consistent rt rt' :
  step rt rt' -> consistent rt /\ saturated rt ->
  consistent rt' /\ saturated rt'.
Proof.
  intros Hstep [Hrt Hsat]. destruct Hstep.
  - now apply queueRequest_consistent.
  - now apply executeRequest_resume_consistent.
  - now apply processQueue_consistent.
Qed.

Lemma reachable_consistent svc rt :
  consistent (boot svc) /\ saturated (boot svc) ->
  reachable svc rt -> consistent rt /\ saturated rt.
Proof.
  intros Hboot Hreach. induction Hreach; [exact Hboot|].
  eapply step_consistent; eauto.
Qed.

Lemma drain_expired clock stale :
  forall k rt rest,
    requestQueue (this rt) = stale ++ rest ->
    currentRequests (this rt) < maxConcurrentRequests (this rt) ->
    all_expired clock k stale = true ->
    processQueue_from clock k (stale ++ rest) rt
    = processQueue_from clock (k + List.length stale) rest
        (drained rt stale rest).
Proof.
  induction stale as [|x stale IH]; intros k rt rest Hq Hfree Hold.
  - rewrite Nat.add_0_r. f_equal.
    destruct rt as [[u m t mc mq c q] a n e]. unfold drained. fields.
    simpl in Hq. subst q. reflexivity.
  - cbn [all_expired] in Hold. apply andb_prop in Hold as [Hx Hold].
    cbn [app processQueue_from]. apply Z.ltb_lt in Hfree. rewrite Hfree.
    cbv zeta. rewrite Hx. rewrite IH; fields; auto.
    + f_equal; [simpl; lia|]. unfold drained, timeouts. fields.
      simpl. rewrite <- app_assoc. reflexivity.
    + now apply Z.ltb_lt.
Qed.

Lemma step_config rt rt' :
  step rt rt' ->
  maxConcurrentRequests (this rt') = maxConcurrentRequests (this rt)
  /\ maxQueueSize (this rt') = maxQueueSize (this rt).
Proof.
  assert (forall clock q k r,
    maxConcurrentRequests (this (processQueue_from clock k q r))
      = maxConcurrentRequests (this r)
    /\ maxQueueSize (this (processQueue_from clock k q r))
      = maxQueueSize (this r)) as Hdrain.
  { intros clock q. induction q as [|x q IH]; intros k r;
      cbn [processQueue_from]; [tauto|].
    destruct (currentRequests (this r) <? maxConcurrentRequests (this r));
      [|tauto].
    cbv zeta. destruct (clock k - timestamp x >? 30000); [|fields; tauto].
    destruct (IH (S k) (emit (RejectTimeout (ticket x))
                (set_this r (set_requestQueue (this r) q)))) as [H1 H2].
    rewrite H1, H2. fields. tauto. }
  intros Hstep. destruct Hstep.
  - unfold queueRequest. fields.
    destruct (currentRequests (this rt) <? maxConcurrentRequests (this rt));
      [fields; tauto|].
    destruct (queue_length (this rt) >=? maxQueueSize (this rt));
      fields; tauto.
  - unfold executeRequest_resume, processQueue.
    match goal with |- context [processQueue_from ?c ?k ?q ?r] =>
      destruct (Hdrain c q k r) as [H1 H2] end.
    rewrite H1, H2. fields. tauto.
  - unfold processQueue. apply Hdrain.
Qed.

Lemma reachable_config svc rt :
  reachable svc rt ->
  maxConcurrentRequests (this rt) = maxConcurrentRequests svc
  /\ maxQueueSize (this rt) = maxQueueSize svc.
Proof.
  induction 1 as [|rt rt' _ [IH1 IH2] Hstep]; [simpl; tauto|].
  apply step_config in Hstep as [H1 H2]. rewrite H1, H2. tauto.
Qed.

(** *** Invariants that hold whatever the environment *)

Lemma Forall_resume (P : QueueItem -> Prop) item l :
  Forall P l -> Forall P (resume item l).
Proof.
  intros H. apply Forall_forall. intros x Hx. unfold resume in Hx.
  apply filter_In in Hx. rewrite Forall_forall in H. now apply H.
Qed.

Ltac numbered_fields :=
  constructor; fields;
  repeat match goal with
  | |- Forall _ (_ :: _) => constructor
  | |- Forall _ (_ ++ _) => apply Forall_app; split
  | |- Forall _ [] => constructor
  end;
  try assumption;
  try (cbn [handled ticket execute]; lia);
  try (now left);
  try match goal with
      | H : Forall _ ?l |- Forall _ ?l =>
          solve [eapply Forall_impl; [|exact H]; cbv beta; intros;
                 first [lia | now right]]
      end.

Lemma numbered_drain clock queue :
  forall k rt,
    requestQueue (this rt) = queue -> numbered rt ->
    numbered (processQueue_from clock k queue rt).
Proof.
  induction queue as [|x rest IH]; intros k rt Hq Hrt;
    cbn [processQueue_from]; [exact Hrt|].
  destruct (currentRequests (this rt) <? maxConcurrentRequests (this rt));
    [|exact Hrt].
  destruct Hrt as [He Hw Ha Hi]. rewrite Hq in Hw.
  inversion Hw as [|? ? Hx Hrest]; subst.
  cbv zeta. destruct (clock k - timestamp x >? 30000).
  - apply IH; [reflexivity|]. numbered_fields.
  - numbered_fields.
Qed.

Lemma numbered_step rt rt' : step rt rt' -> numbered rt -> numbered rt'.
Proof.
  intros Hstep [He Hw Ha Hi].
  destruct Hstep as [rt requestFn now|rt queueItem outcome clock Hin|rt clock].
  - unfold queueRequest. fields.
    destruct (currentRequests (this rt) <? maxConcurrentRequests (this rt));
      [numbered_fields|].
    destruct (queue_length (this rt) >=? maxQueueSize (this rt));
      numbered_fields.
  - unfold executeRequest_resume, processQueue.
    apply numbered_drain; [reflexivity|].
    assert (ticket queueItem < promises rt)%nat as Hp.
    { rewrite Forall_forall in Ha. now apply Ha. }
    numbered_fields.
    + now destruct outcome.
    + now apply Forall_resume.
    + apply Forall_resume. eapply Forall_impl; [|exact Hi].
      cbv beta. intros. now right.
  - unfold processQueue. apply numbered_drain; [reflexivity|].
    now constructor.
Qed.

Lemma reachable_numbered url mdl conc size rt :
  reachable (constructor url mdl conc size) rt -> numbered rt.
Proof.
  induction 1 as [|rt rt' _ IH Hstep].
  - constructor; cbn [boot constructor this awaiting effects requestQueue];
      constructor.
  - exact (numbered_step rt rt' Hstep IH).
Qed.

(** The next ticket is new. *)
Lemma numbered_fresh rt :
  numbered rt ->
  settled_count rt (promises rt) = 0%nat
  /\ count (invokes (promises rt)) (effects rt) = 0%nat
  /\ occurrences (promises rt) (requestQueue (this rt)) = 0%nat
  /\ occurrences (promises rt) (awaiting rt) = 0%nat.
Proof.
  intros [He Hw Ha _].
  assert (forall f,
            (forall e, f e = true -> handled e = promises rt) ->
            count f (effects rt) = 0%nat) as Hcount.
  { intros f Hf. induction He as [|e l Hlt _ IH]; [reflexivity|].
    rewrite count_cons, IH. destruct (f e) eqn:E; [|reflexivity].
    apply Hf in E. lia. }
  assert (forall l,
            Forall (fun i => (ticket i < promises rt)%nat) l ->
            occurrences (promises rt) l = 0%nat) as Hocc.
  { induction 1 as [|i l Hlt _ IH]; [reflexivity|].
    rewrite occurrences_cons, IH.
    destruct (Nat.eqb (ticket i) (promises rt)) eqn:E; [|reflexivity].
    apply Nat.eqb_eq in E. lia. }
  repeat apply conj; auto.
  - apply Hcount. intros e. unfold settles.
    destruct e; cbn [settlement handled]; try discriminate;
      intros E; now apply Nat.eqb_eq in E.
  - apply Hcount. intros e.
    destruct e; cbn [invokes handled]; try discriminate;
      intros E; now apply Nat.eqb_eq in E.
Qed.

Lemma starved_step n rt rt' :
  n < 0 -> starved n rt -> step rt rt' -> starved n rt'.
Proof.
  intros Hn [Hb Hi Ha He] Hstep.
  destruct Hstep as [rt requestFn now|rt queueItem outcome clock Hin|rt clock].
  - unfold queueRequest. cbn [this awaiting promises effects].
    rewrite Hb, Hi.
    destruct (0 <? n) eqn:E; [apply Z.ltb_lt in E; lia|].
    destruct (queue_length (this rt) >=? maxQueueSize (this rt));
      cbn [fst]; constructor;
      cbn [this awaiting promises effects emit set_this set_requestQueue
           maxConcurrentRequests currentRequests]; auto.
  - rewrite Ha in Hin. destruct Hin.
  - unfold processQueue.
    destruct (requestQueue (this rt)) as [|nextRequest rest];
      cbn [processQueue_from]; [now constructor|].
    rewrite Hb, Hi.
    destruct (0 <? n) eqn:E; [apply Z.ltb_lt in E; lia|].
    now constructor.
Qed.

(** With a negative bound on the running work nothing ever runs. *)
Lemma reachable_starved url mdl n size rt :
  n < 0 -> reachable (constructor url mdl (Some n) size) rt -> starved n rt.
Proof.
  intros Hn Hreach. induction Hreach as [|rt rt' _ IH Hstep].
  - constructor; cbn [boot this awaiting effects constructor
      maxConcurrentRequests currentRequests]; auto.
    unfold parseInt_or. destruct (n =? 0) eqn:E; [|reflexivity].
    apply Z.eqb_eq in E. lia.
  - exact (starved_step n rt rt' Hn IH Hstep).
Qed.

(** With a negative queue size nothing ever waits. *)
Lemma reachable_no_room url mdl conc n rt :
  n < 0 -> reachable (constructor url mdl conc (Some n)) rt ->
  maxQueueSize (this rt) = n /\ requestQueue (this rt) = [].
Proof.
  intros Hn Hreach. induction Hreach as [|rt rt' _ [Hs Hq] Hstep].
  - split; [|reflexivity].
    cbn [boot this constructor maxQueueSize]. unfold parseInt_or.
    destruct (n =? 0) eqn:E; [|reflexivity]. apply Z.eqb_eq in E. lia.
  - destruct Hstep
      as [rt requestFn now|rt queueItem outcome clock Hin|rt clock].
    + unfold queueRequest. cbn [this awaiting promises effects].
      unfold queue_length. rewrite Hs, Hq. cbn [List.length Z.of_nat].
      destruct (currentRequests (this rt) <? maxConcurrentRequests (this rt));
        [cbn [fst executeRequest this set_currentRequests maxQueueSize
              requestQueue]; auto|].
      destruct (0 >=? n) eqn:E;
        [|rewrite Z.geb_leb in E; apply Z.leb_gt in E; lia].
      cbn [fst emit this]. auto.
    + unfold executeRequest_resume, processQueue.
      cbn [this set_currentRequests requestQueue]. rewrite Hq.
      cbn [processQueue_from this set_currentRequests maxQueueSize
           requestQueue]. auto.
    + unfold processQueue. rewrite Hq. cbn [processQueue_from]. auto.
Qed.

(** Whatever the environment, items wait only while no slot is free. *)
Lemma reachable_saturated url mdl conc size rt :
  reachable (constructor url mdl conc size) rt -> saturated rt.
Proof.
  intros Hreach.
  assert (not_negative conc \/ exists n, conc = Some n /\ n < 0) as [Hc|Hc].
  { destruct conc as [n|]; [|now left].
    destruct (Z_lt_dec n 0); [right; eauto|left; simpl; lia]. }
  2: { destruct Hc as [n [-> Hn]].
       destruct (reachable_starved _ _ _ _ _ Hn Hreach) as [Hb Hi _ _].
       intros _. lia. }
  assert (not_negative size \/ exists n, size = Some n /\ n < 0) as [Hs|Hs].
  { destruct size as [n|]; [|now left].
    destruct (Z_lt_dec n 0); [right; eauto|left; simpl; lia]. }
  2: { destruct Hs as [n [-> Hn]].
       destruct (reachable_no_room _ _ _ _ _ Hn Hreach) as [_ Hq].
       intros H. contradiction. }
  exact (proj2 (reachable_consistent _ _
                  (constructor_boot url mdl conc size Hc Hs) Hreach)).
Qed.

(** C1.  What [queueRequest] does with a submission.  It hands back a
    new promise and leaves the configuration alone.  With a free slot the
    item is admitted at once: [currentRequests] goes up by one, the work is
    invoked, and the queue stays as it is.  Without a free slot and with
    room in the queue, the item is appended to the queue with the reading
    of the clock, and nothing else happens: no effect is added.  Otherwise
    the promise is rejected with the queue-full message, the work is not
    invoked and nothing else changes.  In every state the service can
    reach, whatever its environment, the new promise has not been settled,
    invoked, queued or run before; so the promise of an item that has just
    been queued is still pending, and a promise that has just been
    rejected belongs to no item that waits or runs and to no work that was
    invoked. *)
Theorem queueRequest_admits_queues_or_rejects requestFn now rt :
  let svc := this rt in
  let p := promises rt in
  let queueItem :=
    {| execute := requestFn; ticket := p; timestamp := now |} in
  let rt' := fst (queueRequest requestFn now rt) in
  let queued := Z.of_nat (List.length (requestQueue svc)) in
  snd (queueRequest requestFn now rt) = p
  /\ promises rt' = S p
  /\ maxConcurrentRequests (this rt') = maxConcurrentRequests svc
  /\ maxQueueSize (this rt') = maxQueueSize svc
  /\ (currentRequests svc < maxConcurrentRequests svc ->
      currentRequests (this rt') = currentRequests svc + 1
      /\ requestQueue (this rt') = requestQueue svc
      /\ awaiting rt' = queueItem :: awaiting rt
      /\ effects rt' = Invoke p requestFn :: effects rt)
  /\ (maxConcurrentRequests svc <= currentRequests svc ->
      queued < maxQueueSize svc ->
      currentRequests (this rt') = currentRequests svc
      /\ requestQueue (this rt') = requestQueue svc ++ [queueItem]
      /\ awaiting rt' = awaiting rt
      /\ effects rt' = effects rt)
  /\ (maxConcurrentRequests svc <= currentRequests svc ->
      maxQueueSize svc <= queued ->
      currentRequests (this rt') = currentRequests svc
      /\ requestQueue (this rt') = requestQueue svc
      /\ awaiting rt' = awaiting rt
      /\ effects rt' = RejectFull p :: effects rt
      /\ settlement (RejectFull p)
         = Some (p, Rejected
                      (new_Error
                         "Request queue is full. Please try again later.")))
  /\ (forall url mdl conc size,
        reachable (constructor url mdl conc size) rt ->
        settled_count rt p = 0%nat
        /\ count (invokes p) (effects rt) = 0%nat
        /\ occurrences p (requestQueue svc) = 0%nat
        /\ occurrences p (awaiting rt) = 0%nat
        /\ (currentRequests svc < maxConcurrentRequests svc ->
            settled_count rt' p = 0%nat
            /\ count (invokes p) (effects rt') = 1%nat
            /\ occurrences p (requestQueue (this rt')) = 0%nat
            /\ occurrences p (awaiting rt') = 1%nat)
        /\ (maxConcurrentRequests svc <= currentRequests svc ->
            queued < maxQueueSize svc ->
            settled_count rt' p = 0%nat
            /\ count (invokes p) (effects rt') = 0%nat
            /\ occurrences p (requestQueue (this rt')) = 1%nat
            /\ occurrences p (awaiting rt') = 0%nat)
        /\ (maxConcurrentRequests svc <= currentRequests svc ->
            maxQueueSize svc <= queued ->
            settled_count rt' p = 1%nat
            /\ count (invokes p) (effects rt') = 0%nat
            /\ occurrences p (requestQueue (this rt')) = 0%nat
            /\ occurrences p (awaiting rt') = 0%nat)).
Proof.
  cbv zeta.
  assert (fst (queueRequest requestFn now rt)
          = if currentRequests (this rt) <? maxConcurrentRequests (this rt)
            then
              {| this := set_currentRequests (this rt)
                           (currentRequests (this rt) + 1);
                 awaiting := {| execute := requestFn; ticket := promises rt;
                                timestamp := now |} :: awaiting rt;
                 promises := S (promises rt);
                 effects := Invoke (promises rt) requestFn :: effects rt |}
            else if Z.of_nat (List.length (requestQueue (this rt)))
                    <? maxQueueSize (this rt)
            then
              {| this := set_requestQueue (this rt)
                           (requestQueue (this rt)
                            ++ [{| execute := requestFn;
                                   ticket := promises rt;
                                   timestamp := now |}]);
                 awaiting := awaiting rt;
                 promises := S (promises rt);
                 effects := effects rt |}
            else
              {| this := this rt;
                 awaiting := awaiting rt;
                 promises := S (promises rt);
                 effects := RejectFull (promises rt) :: effects rt |})
    as Hcases.
  { unfold queueRequest, queue_length. fields.
    destruct (currentRequests (this rt) <? maxConcurrentRequests (this rt));
      [reflexivity|].
    rewrite Z.geb_leb, Z.leb_antisym.
    destruct (Z.of_nat (List.length (requestQueue (this rt)))
              <? maxQueueSize (this rt)); reflexivity. }
  assert (snd (queueRequest requestFn now rt) = promises rt) as Hsnd.
  { unfold queueRequest. fields.
    destruct (currentRequests (this rt) <? maxConcurrentRequests (this rt));
      [reflexivity|].
    destruct (queue_length (this rt) >=? maxQueueSize (this rt));
      reflexivity. }
  rewrite Hcases. clear Hcases.
  destruct (Z.ltb_spec (currentRequests (this rt))
              (maxConcurrentRequests (this rt))) as [Hfree|Hbusy];
    [|destruct (Z.ltb_spec (Z.of_nat (List.length (requestQueue (this rt))))
                 (maxQueueSize (this rt))) as [Hroom|Hfull]];
    fields.
  - split; [exact Hsnd|].
    do 3 (split; [reflexivity|]).
    split; [intros _; repeat apply conj; reflexivity|].
    split; [intros H; lia|]. split; [intros H; lia|].
    intros url mdl conc size Hreach.
    destruct (numbered_fresh rt (reachable_numbered _ _ _ _ _ Hreach))
      as [H1 [H2 [H3 H4]]].
    split; [exact H1|]. split; [exact H2|]. split; [exact H3|].
    split; [exact H4|]. split; [|split; intros; lia].
    intros _. unfold settled_count in *. fields.
    rewrite !count_cons, occurrences_cons, H1, H2, H4.
    cbn [settles settlement invokes ticket]. rewrite Nat.eqb_refl. auto.
  - split; [exact Hsnd|].
    do 3 (split; [reflexivity|]).
    split; [intros H; lia|].
    split; [intros _ _; repeat apply conj; reflexivity|].
    split; [intros _ H; lia|].
    intros url mdl conc size Hreach.
    destruct (numbered_fresh rt (reachable_numbered _ _ _ _ _ Hreach))
      as [H1 [H2 [H3 H4]]].
    split; [exact H1|]. split; [exact H2|]. split; [exact H3|].
    split; [exact H4|]. split; [intros; lia|]. split; [|intros; lia].
    intros _ _.
    unfold settled_count in *. fields.
    rewrite occurrences_app, occurrences_cons, occurrences_nil, H3.
    cbn [ticket]. rewrite Nat.eqb_refl. auto.
  - split; [exact Hsnd|].
    do 3 (split; [reflexivity|]).
    split; [intros H; lia|].
    split; [intros _ H; lia|].
    split; [intros _ _; repeat apply conj; reflexivity|].
    intros url mdl conc size Hreach.
    destruct (numbered_fresh rt (reachable_numbered _ _ _ _ _ Hreach))
      as [H1 [H2 [H3 H4]]].
    split; [exact H1|]. split; [exact H2|]. split; [exact H3|].
    split; [exact H4|]. split; [intros; lia|]. split; [intros; lia|].
    intros _ _. unfold settled_count in *. fields.
    rewrite !count_cons, H1, H2.
    cbn [settles settlement invokes]. rewrite Nat.eqb_refl. auto.
Qed.

(** C10.  A submission rejected with the queue-full error leaves the
    service object and the running work as they were, and invokes
    nothing: the rejection is the only effect. *)
Theorem queue_full_rejection_is_atomic requestFn now rt :
  rejected_full rt (fst (queueRequest requestFn now rt)) ->
  this (fst (queueRequest requestFn now rt)) = this rt
  /\ currentRequests (this (fst (queueRequest requestFn now rt)))
     = currentRequests (this rt)
  /\ requestQueue (this (fst (queueRequest requestFn now rt)))
     = requestQueue (this rt)
  /\ awaiting (fst (queueRequest requestFn now rt)) = awaiting rt
  /\ forall p fn,
       In (Invoke p fn) (effects (fst (queueRequest requestFn now rt))) ->
       In (Invoke p fn) (effects rt).
Proof.
  unfold rejected_full, queueRequest. fields.
  destruct (currentRequests (this rt) <? maxConcurrentRequests (this rt)).
  - fields. intros H. discriminate.
  - destruct (queue_length (this rt) >=? maxQueueSize (this rt)); fields.
    + intros _. repeat split; auto.
      intros p fn [H|H]; [discriminate|exact H].
    + intros H. exfalso. clear -H.
      assert (List.length (effects rt)
              = List.length (RejectFull (promises rt) :: effects rt)) as L
        by now rewrite <- H.
      simpl in L. lia.
Qed.




(** C3.  In every state reachable from a freshly constructed service whose
    configured bounds are not negative, the bounds stay as configured,
    [0 <= currentRequests <= maxConcurrentRequests] and
    [0 <= requestQueue.length <= maxQueueSize]; [currentRequests] is the
    number of units of work in execution, which therefore never exceeds
    [maxConcurrentRequests]. *)
Theorem bounds_hold_in_every_reachable_state url mdl conc size rt :
  not_negative conc -> not_negative size ->
  reachable (constructor url mdl conc size) rt ->
  maxConcurrentRequests (this rt)
  = match conc with
    | Some n => if n =? 0 then 3 else n
    | None => 3
    end
  /\ maxQueueSize (this rt)
     = match size with
       | Some n => if n =? 0 then 10 else n
       | None => 10
       end
  /\ 0 <= currentRequests (this rt) <= maxConcurrentRequests (this rt)
  /\ 0 <= Z.of_nat (List.length (requestQueue (this rt)))
     <= maxQueueSize (this rt)
  /\ Z.of_nat (List.length (awaiting rt)) = currentRequests (this rt)
  /\ Z.of_nat (List.length (awaiting rt))
     <= maxConcurrentRequests (this rt).
Proof.
  intros Hc Hs Hreach.
  destruct (reachable_config _ _ Hreach) as [H1 H2].
  destruct (reachable_consistent _ _ (constructor_boot url mdl conc size Hc Hs)
              Hreach) as [[? ? Hrun Hle Hlen _ _] _].
  unfold queue_length in *. simpl in H1, H2. unfold parseInt_or in H1, H2.
  repeat apply conj; try lia; assumption.
Qed.

(** What one call of [processQueue] does, by the state it finds. *)
Lemma processQueue_cases clock r :
  (requestQueue (this r) = []
   \/ maxConcurrentRequests (this r) <= currentRequests (this r) ->
   processQueue clock r = r)
  /\ (forall stale next rest,
        currentRequests (this r) < maxConcurrentRequests (this r) ->
        requestQueue (this r) = stale ++ next :: rest ->
        all_expired clock 0 stale = true ->
        clock (List.length stale) - timestamp next <= 30000 ->
        processQueue clock r = executeRequest next (drained r stale rest))
  /\ (currentRequests (this r) < maxConcurrentRequests (this r) ->
      all_expired clock 0 (requestQueue (this r)) = true ->
      processQueue clock r = drained r (requestQueue (this r)) []).
Proof.
  repeat apply conj.
  - intros [Hq|Hfull]; unfold processQueue.
    + now rewrite Hq.
    + destruct (requestQueue (this r)); [reflexivity|].
      cbn [processQueue_from]. apply Z.ltb_ge in Hfull. now rewrite Hfull.
  - intros stale next rest Hfree Hq Hold Hfresh. unfold processQueue.
    rewrite Hq. rewrite (drain_expired clock stale 0%nat r (next :: rest));
      auto.
    cbn [processQueue_from drained this set_requestQueue currentRequests
         maxConcurrentRequests Nat.add].
    apply Z.ltb_lt in Hfree. rewrite Hfree. cbv zeta.
    replace (clock (List.length stale) - timestamp next >? 30000) with false
      by (symmetry; rewrite Z.gtb_ltb; apply Z.ltb_ge; lia).
    unfold executeRequest, drained. fields. reflexivity.
  - intros Hfree Hold. unfold processQueue.
    pose proof (drain_expired clock (requestQueue (this r)) 0%nat r []) as H.
    rewrite app_nil_r in H. now rewrite H.
Qed.

(** C2.  When a unit of work settles, with a value or with an error, the
    caller's promise is settled with it, the suspended call is gone,
    [currentRequests] goes down by one, and the drain runs on the result.
    With an empty queue, or no slot free even so, nothing more happens.
    Otherwise items are popped from the head, in queue order: the leading
    items that have waited more than 30 seconds when popped are rejected
    with the timeout error, are not invoked and leave [currentRequests]
    alone; the first item that has not is admitted ([currentRequests] up
    by one, its work invoked, the call suspended) and the items behind it
    stay queued in their order; when every item has expired the queue ends
    empty.  After a completion in a state the service can reach, whatever
    its environment, the queue is empty or no slot is free. *)
Theorem completion_frees_slot_and_drains_fifo queueItem outcome clock rt :
  let settled :=
    match outcome with
    | Fulfilled result => Resolve (ticket queueItem) result
    | Rejected error => RejectWork (ticket queueItem) error
    end in
  let others :=
    filter (fun i => negb (Nat.eqb (ticket i) (ticket queueItem)))
      (awaiting rt) in
  let free := currentRequests (this rt) - 1 in
  let rt' := executeRequest_resume queueItem outcome clock rt in
  settlement settled = Some (ticket queueItem, outcome)
  /\ (forall p,
        settlement (RejectTimeout p)
        = Some (p, Rejected (new_Error "Request timed out in queue")))
  /\ rt' = processQueue clock (freed queueItem outcome rt)
  /\ (requestQueue (this rt) = []
      \/ maxConcurrentRequests (this rt) <= free ->
      currentRequests (this rt') = free
      /\ requestQueue (this rt') = requestQueue (this rt)
      /\ awaiting rt' = others
      /\ effects rt' = settled :: effects rt)
  /\ (forall stale next rest,
        free < maxConcurrentRequests (this rt) ->
        requestQueue (this rt) = stale ++ next :: rest ->
        all_expired clock 0 stale = true ->
        clock (List.length stale) - timestamp next <= 30000 ->
        currentRequests (this rt') = free + 1
        /\ requestQueue (this rt') = rest
        /\ awaiting rt' = next :: others
        /\ effects rt'
           = Invoke (ticket next) (execute next)
             :: rev (map (fun x => RejectTimeout (ticket x)) stale)
             ++ settled :: effects rt)
  /\ (free < maxConcurrentRequests (this rt) ->
      all_expired clock 0 (requestQueue (this rt)) = true ->
      currentRequests (this rt') = free
      /\ requestQueue (this rt') = []
      /\ awaiting rt' = others
      /\ effects rt'
         = rev (map (fun x => RejectTimeout (ticket x))
                  (requestQueue (this rt)))
           ++ settled :: effects rt)
  /\ (forall url mdl conc size,
        reachable (constructor url mdl conc size) rt ->
        In queueItem (awaiting rt) ->
        requestQueue (this rt') = []
        \/ maxConcurrentRequests (this rt') <= currentRequests (this rt')).
Proof.
  cbv zeta.
  change (executeRequest_resume queueItem outcome clock rt)
    with (processQueue clock (freed queueItem outcome rt)).
  destruct (processQueue_cases clock (freed queueItem outcome rt))
    as [Hstay [Hadmit Hstale]].
  split; [now destruct outcome|]. split; [reflexivity|].
  split; [reflexivity|]. split; [|split; [|split]].
  - intros H. rewrite (Hstay H). repeat apply conj; reflexivity.
  - intros stale next rest Hfree Hq Hold Hfresh.
    rewrite (Hadmit stale next rest Hfree Hq Hold Hfresh).
    repeat apply conj; reflexivity.
  - intros Hfree Hold. rewrite (Hstale Hfree Hold).
    repeat apply conj; reflexivity.
  - intros url mdl conc size Hreach Hin.
    assert (saturated (processQueue clock (freed queueItem outcome rt)))
      as Hsat.
    { apply (reachable_saturated url mdl conc size).
      eapply reach_step; [exact Hreach|].
      exact (step_complete rt queueItem outcome clock Hin). }
    destruct (requestQueue
                (this (processQueue clock (freed queueItem outcome rt))))
      eqn:Hq; [now left|right].
    apply Hsat. rewrite Hq. discriminate.
Qed.


(** *** The scenario, run *)

Lemma scenario_consistent :
  consistent Scenario.busy /\ saturated Scenario.busy
  /\ consistent Scenario.two_waiting /\ saturated Scenario.two_waiting.
Proof.
  assert (consistent Scenario.busy /\ saturated Scenario.busy) as [H1 S1].
  { apply queueRequest_consistent;
      apply (constructor_boot None None (Some 1) (Some 2)); simpl; lia. }
  destruct (queueRequest_consistent 11 2000 _ H1 S1) as [H2 S2].
  destruct (queueRequest_consistent 12 40000 _ H2 S2) as [H3 S3].
  auto.
Qed.

Lemma scenario_reachable :
  reachable Scenario.service Scenario.two_waiting
  /\ reachable Scenario.service Scenario.overflow.
Proof.
  assert (reachable Scenario.service Scenario.two_waiting) as H.
  { repeat (eapply reach_step; [|apply step_submit]). apply reach_boot. }
  split; [exact H|]. eapply reach_step; [exact H|apply step_submit].
Qed.

Example scenario_overflow :
  this Scenario.overflow
  = {| baseURL := "http://localhost:11434"; model := "moondream";
       timeout := 60000; maxConcurrentRequests := 1; maxQueueSize := 2;
       currentRequests := 1;
       requestQueue := [Scenario.second; Scenario.third] |}
  /\ awaiting Scenario.overflow = [Scenario.first]
  /\ effects Scenario.overflow = [RejectFull 3; Invoke 0 10].
Proof. repeat split. Qed.

(** The first item completes at 45000: the second has waited 43 seconds
    and is rejected, the third has waited 5 and runs. *)
Example scenario_drain :
  currentRequests (this Scenario.after_first) = 1
  /\ requestQueue (this Scenario.after_first) = []
  /\ awaiting Scenario.after_first = [Scenario.third]
  /\ effects Scenario.after_first
     = [Invoke 2 12; RejectTimeout 1; Resolve 0 (JStr "cat"); Invoke 0 10].
Proof. repeat split. Qed.

Lemma queueRequest_admits_queues_or_rejects_witness :
  (currentRequests (this Scenario.busy) = 1
   /\ awaiting Scenario.busy = [Scenario.first]
   /\ effects Scenario.busy = [Invoke 0 10])
  /\ (currentRequests (this Scenario.one_waiting) = 1
      /\ requestQueue (this Scenario.one_waiting) = [Scenario.second]
      /\ effects Scenario.one_waiting = [Invoke 0 10]
      /\ settled_count Scenario.one_waiting 1 = 0%nat)
  /\ (requestQueue (this Scenario.overflow)
      = [Scenario.second; Scenario.third]
      /\ effects Scenario.overflow = [RejectFull 3; Invoke 0 10]).
Proof.
  split; [|split].
  - destruct (queueRequest_admits_queues_or_rejects 10 1000
                (boot Scenario.service))
      as [_ [_ [_ [_ [Hadmit _]]]]].
    destruct (Hadmit ltac:(vm_compute; reflexivity))
      as [Hcount [_ [Hrunning Heffects]]].
    exact (conj Hcount (conj Hrunning Heffects)).
  - destruct (queueRequest_admits_queues_or_rejects 11 2000 Scenario.busy)
      as [_ [_ [_ [_ [_ [Hqueue [_ Hfresh]]]]]]].
    destruct (Hqueue ltac:(vm_compute; discriminate)
                ltac:(vm_compute; reflexivity))
      as [Hcount [Hqueued [_ Heffects]]].
    assert (reachable Scenario.service Scenario.busy) as Hreach
      by (eapply reach_step; [apply reach_boot|apply step_submit]).
    destruct (Hfresh None None (Some 1) (Some 2) Hreach)
      as [_ [_ [_ [_ [_ [Hpending _]]]]]].
    destruct (Hpending ltac:(vm_compute; discriminate)
                ltac:(vm_compute; reflexivity)) as [Hnone _].
    exact (conj Hcount (conj Hqueued (conj Heffects Hnone))).
  - destruct (queueRequest_admits_queues_or_rejects 13 41000
                Scenario.two_waiting)
      as [_ [_ [_ [_ [_ [_ [Hreject _]]]]]]].
    destruct (Hreject ltac:(vm_compute; discriminate)
                ltac:(vm_compute; discriminate))
      as [_ [Hqueued [_ [Heffects _]]]].
    exact (conj Hqueued Heffects).
Defined.

Lemma queue_full_rejection_is_atomic_witness :
  rejected_full Scenario.two_waiting Scenario.overflow
  /\ this Scenario.overflow = this Scenario.two_waiting
  /\ awaiting Scenario.overflow = awaiting Scenario.two_waiting.
Proof.
  assert (rejected_full Scenario.two_waiting Scenario.overflow) as H
    by reflexivity.
  split; [exact H|].
  destruct (queue_full_rejection_is_atomic 13 41000 Scenario.two_waiting H)
    as [Hthis [_ [_ [Hrun _]]]].
  split; [exact Hthis|exact Hrun].
Defined.

Lemma bounds_hold_in_every_reachable_state_witness :
  0 <= currentRequests (this Scenario.overflow) <= 1
  /\ 0 <= Z.of_nat (List.length (requestQueue (this Scenario.overflow))) <= 2.
Proof.
  destruct (bounds_hold_in_every_reachable_state None None (Some 1) (Some 2)
              Scenario.overflow ltac:(simpl; lia) ltac:(simpl; lia)
              (proj2 scenario_reachable))
    as [Hc [Hq [Hrun [Hlen _]]]].
  rewrite Hc in Hrun. rewrite Hq in Hlen. exact (conj Hrun Hlen).
Defined.

(** C3 as stated fails: the constructor keeps a negative setting.  With
    [OLLAMA_MAX_CONCURRENT=-1] the service queues two requests while
    [currentRequests], 0, is above [maxConcurrentRequests]; with
    [OLLAMA_MAX_QUEUE_SIZE=-1] the length of the queue, 0, is above
    [maxQueueSize]. *)
Lemma negative_bounds_break_the_invariants :
  reachable (constructor None None (Some (-1)) None) starving
  /\ currentRequests (this starving) = 0
  /\ maxConcurrentRequests (this starving) = -1
  /\ ~ (0 <= currentRequests (this starving)
        <= maxConcurrentRequests (this starving))
  /\ reachable (constructor None None None (Some (-1))) no_room
  /\ Z.of_nat (List.length (requestQueue (this no_room))) = 0
  /\ maxQueueSize (this no_room) = -1
  /\ ~ (0 <= Z.of_nat (List.length (requestQueue (this no_room)))
        <= maxQueueSize (this no_room)).
Proof.
  split; [|split; [|split; [|split; [|split; [|split; [|split]]]]]].
  - repeat (eapply reach_step; [|apply step_submit]). apply reach_boot.
  - reflexivity.
  - reflexivity.
  - vm_compute. intros [_ H]. now apply H.
  - repeat (eapply reach_step; [|apply step_submit]). apply reach_boot.
  - reflexivity.
  - reflexivity.
  - vm_compute. intros [_ H]. now apply H.
Qed.

Lemma completion_frees_slot_and_drains_fifo_witness :
  currentRequests (this Scenario.after_first) = 1
  /\ requestQueue (this Scenario.after_first) = []
  /\ awaiting Scenario.after_first = [Scenario.third]
  /\ effects Scenario.after_first
     = [Invoke 2 12; RejectTimeout 1; Resolve 0 (JStr "cat"); Invoke 0 10]
  /\ maxConcurrentRequests (this Scenario.after_first)
     <= currentRequests (this Scenario.after_first).
Proof.
  destruct (completion_frees_slot_and_drains_fifo Scenario.first
              (Fulfilled (JStr "cat")) Scenario.at_45000
              Scenario.two_waiting)
    as [_ [_ [_ [_ [Hdrain [_ Hstop]]]]]].
  destruct (Hdrain [Scenario.second] Scenario.third []
              ltac:(vm_compute; reflexivity) eq_refl eq_refl
              ltac:(vm_compute; discriminate))
    as [Hcount [Hqueue [Hrunning Heffects]]].
  split; [exact Hcount|]. split; [exact Hqueue|].
  split; [exact Hrunning|]. split; [exact Heffects|].
  destruct (Hstop None None (Some 1) (Some 2) (proj1 scenario_reachable)
              ltac:(left; reflexivity)) as [Hempty|Hfull];
    [|exact Hfull].
  vm_compute. discriminate.
Defined.



End QueueFacts.

(** ** Properties of the probes and the status report *)

Section ProbeFacts.
Import Ollama ServiceSpec.
Context {engine : Js.Engine}.

Lemma try_catch_answers {A : Type} (body : Settled A) (dflt : A) :
  exists a, try_catch body (fun _ => Fulfilled dflt) = Fulfilled a.
Proof.
  destruct body as [a|e]; simpl; eauto.
Qed.

Lemma prefix_spec p s :
  Js.prefix p s = true <-> exists rest, s = (p ++ rest)%string.
Proof.
  revert s. induction p as [|a p IH]; intros s; simpl.
  - split; eauto.
  - destruct s as [|b s].
    + split; [discriminate|]. intros [rest H]. discriminate.
    + rewrite andb_true_iff, IH. split.
      * intros [Hab [rest ->]]. apply Ascii.eqb_eq in Hab. subst.
        now exists rest.
      * intros [rest H]. injection H as -> ->. split.
        -- apply Ascii.eqb_refl.
        -- now exists rest.
Qed.

Lemma includes_spec haystack needle :
  Js.includes haystack needle = true <-> substring needle haystack.
Proof.
  unfold substring. induction haystack as [|c h IH]; simpl.
  - rewrite orb_false_r, prefix_spec. split.
    + intros [rest H]. now exists EmptyString, rest.
    + intros [[|b before] [after H]]; simpl in H; [eauto|discriminate].
  - rewrite orb_true_iff, prefix_spec, IH. split.
    + intros [[rest H]|[before [after H]]].
      * now exists EmptyString, rest.
      * exists (String c before), after. simpl. now rewrite H.
    + intros [[|b before] [after H]]; simpl in H.
      * left. eauto.
      * right. injection H as -> ->. eauto.
Qed.

Lemma isAvailable_answer probe :
  isAvailable probe
  = Fulfilled match probe with
              | Fulfilled r => status r =? 200
              | Rejected _ => false
              end.
Proof.
  now destruct probe.
Qed.

(** On a list of the documented shape [some] looks through the names. *)
Lemma some_model_names wanted entries :
  forall names,
    model_names entries = Some names ->
    Js.some entries (fun m =>
      name <- Js.get m "name" ;; Js.call_includes name wanted)
    = Fulfilled (existsb (fun n => Js.includes n wanted) names).
Proof.
  induction entries as [|entry rest IH]; intros names H; simpl in *.
  - now injection H as <-.
  - destruct (Js.get entry "name") as [[| | | |n| |]|]; try discriminate.
    destruct (model_names rest) as [names'|]; [|discriminate].
    injection H as <-. simpl.
    destruct (Js.includes n wanted); [reflexivity|]. simpl. now apply IH.
Qed.

(** [some] answers true exactly when the callback accepts an element and
    has declined, without throwing, every element before it. *)
Lemma some_true entries callback :
  Js.some entries callback = Fulfilled true <->
  exists before entry after,
    entries = (before ++ entry :: after)%list
    /\ callback entry = Fulfilled true
    /\ Forall (fun x => callback x = Fulfilled false) before.
Proof.
  induction entries as [|x rest IH]; simpl.
  - split; [discriminate|]. intros [[|b before] [entry [after [H _]]]];
      discriminate H.
  - destruct (callback x) as [[|]|e] eqn:Hx; simpl.
    + split; [|reflexivity]. intros _. exists [], x, rest. auto.
    + rewrite IH. split.
      * intros [before [entry [after [-> [Hyes Hno]]]]].
        exists (x :: before), entry, after. auto.
      * intros [[|b before] [entry [after [H [Hyes Hno]]]]];
          simpl in H; injection H as H1 H2; subst.
        -- congruence.
        -- inversion Hno; subst. exists before, entry, after. auto.
    + split; [discriminate|].
      intros [[|b before] [entry [after [H [Hyes Hno]]]]];
        simpl in H; injection H as H1 H2; subst.
      * congruence.
      * inversion Hno; subst. congruence.
Qed.

Lemma isModelAvailable_on_list svc r entries :
  status r = 200 ->
  Js.get (data r) "models" = Fulfilled (JArr entries) ->
  isModelAvailable svc (Fulfilled r)
  = try_catch
      (Js.some entries (fun m =>
         name <- Js.get m "name" ;; Js.call_includes name (model svc)))
      (fun _ => Fulfilled false).
Proof.
  intros Hs Hm. unfold isModelAvailable. cbn [bind].
  apply Z.eqb_eq in Hs. rewrite Hs, Hm. cbn [bind Js.truthy Js.call_some].
  now destruct (Js.some _ _).
Qed.

Lemma isModelAvailable_true svc probe :
  isModelAvailable svc probe = Fulfilled true ->
  exists r entries,
    probe = Fulfilled r /\ status r = 200
    /\ Js.get (data r) "models" = Fulfilled (JArr entries).
Proof.
  unfold isModelAvailable. destruct probe as [r|e]; simpl; [|discriminate].
  destruct (status r =? 200) eqn:Hs; simpl; [|discriminate].
  apply Z.eqb_eq in Hs.
  destruct (Js.get (data r) "models") as [models|e] eqn:Hm; simpl;
    [|discriminate].
  destruct models as [| |b|n|s|entries|fields]; simpl;
    try discriminate.
  - destruct b; simpl; discriminate.
  - destruct (negb (n =? 0)); simpl; discriminate.
  - destruct (negb (String.eqb s EmptyString)); simpl; discriminate.
  - intros _. exists r, entries. auto.
Qed.

(** C6.  [isAvailable] and [isModelAvailable] always answer with a boolean,
    whatever the probe gives.  [isAvailable] answers true exactly when the
    probe resolves with status 200.  [isModelAvailable] answers true
    exactly when the probe resolves with status 200, the payload has a
    models list, and the test [model.name.includes(this.model)] accepts a
    listed model after declining those before it; on a models list of the
    documented shape, where every entry has a string for a name, that is:
    exactly when the configured name is a substring of the name of some
    listed model.  It answers false when the probe fails. *)
Theorem probes_answer_with_a_boolean svc probe :
  (exists b, isAvailable probe = Fulfilled b
     /\ (b = true <-> exists r, probe = Fulfilled r /\ status r = 200))
  /\ (exists b, isModelAvailable svc probe = Fulfilled b
        /\ (b = true <->
            exists r entries before entry after,
              probe = Fulfilled r /\ status r = 200
              /\ Js.get (data r) "models" = Fulfilled (JArr entries)
              /\ entries = (before ++ entry :: after)%list
              /\ (name <- Js.get entry "name" ;;
                  Js.call_includes name (model svc)) = Fulfilled true
              /\ Forall (fun x =>
                   (name <- Js.get x "name" ;;
                    Js.call_includes name (model svc)) = Fulfilled false)
                   before)
        /\ (forall r entries names,
              probe = Fulfilled r ->
              Js.get (data r) "models" = Fulfilled (JArr entries) ->
              model_names entries = Some names ->
              (b = true <->
               status r = 200
               /\ exists n, In n names /\ substring (model svc) n))
        /\ (forall error, probe = Rejected error -> b = false)).
Proof.
  split.
  - rewrite isAvailable_answer. eexists. split; [reflexivity|].
    destruct probe as [r|e].
    + rewrite Z.eqb_eq. split; [eauto|]. intros [r' [H Hs]].
      now injection H as ->.
    + split; [discriminate|]. intros [r [H _]]. discriminate.
  - destruct (try_catch_answers
                (response <- probe ;;
                 if status response =? 200 then
                   models <- Js.get (data response) "models" ;;
                   if Js.truthy models then
                     modelExists <- Js.call_some models (fun m =>
                       name <- Js.get m "name" ;;
                       Js.call_includes name (model svc)) ;;
                     Fulfilled modelExists
                   else Fulfilled false
                 else Fulfilled false) false) as [b Hb].
    fold (isModelAvailable svc probe) in Hb.
    exists b. split; [exact Hb|]. split; [|split].
    + split.
      * intros ->.
        destruct (isModelAvailable_true _ _ Hb) as [r [entries [-> [Hs Hm]]]].
        rewrite (isModelAvailable_on_list svc r entries Hs Hm) in Hb.
        destruct (Js.some entries _) as [[|]|e] eqn:Hsome;
          try discriminate Hb.
        apply some_true in Hsome
          as [before [entry [after [Hsplit [Hyes Hno]]]]].
        exists r, entries, before, entry, after. auto 10.
      * intros [r [entries [before [entry [after
                 [-> [Hs [Hm [Hsplit [Hyes Hno]]]]]]]]]].
        rewrite (isModelAvailable_on_list svc r entries Hs Hm) in Hb.
        assert (Js.some entries (fun m =>
                  name <- Js.get m "name" ;;
                  Js.call_includes name (model svc)) = Fulfilled true)
          as Hsome by (apply some_true; eauto 10).
        rewrite Hsome in Hb. now injection Hb as <-.
    + intros r entries names -> Hmodels Hnames.
      unfold isModelAvailable in Hb. simpl in Hb.
      destruct (status r =? 200) eqn:Hs.
      * apply Z.eqb_eq in Hs. rewrite Hmodels in Hb. simpl in Hb.
        rewrite (some_model_names _ _ _ Hnames) in Hb. simpl in Hb.
        injection Hb as <-. rewrite existsb_exists.
        split.
        -- intros [n [Hin Hn]]. split; [exact Hs|]. exists n.
           now rewrite <- includes_spec.
        -- intros [_ [n [Hin Hn]]]. exists n. now rewrite includes_spec.
      * simpl in Hb. injection Hb as <-. apply Z.eqb_neq in Hs.
        split; [discriminate|]. intros [H _]. contradiction.
    + intros error ->. unfold isModelAvailable in Hb. simpl in Hb.
      now injection Hb as <-.
Qed.


End ProbeFacts.

Section StatusFacts.
Import Ollama ServiceSpec.
Context {engine : Js.Engine}.

Lemma isModelAvailable_answers svc probe :
  exists b, isModelAvailable svc probe = Fulfilled b.
Proof.
  unfold isModelAvailable. apply try_catch_answers.
Qed.



(** The division and the rounding are those of the engine: 29 of 200 is
    14.499999999999998 percent, reported as 14; 1 of 8 is 12.5 percent,
    reported as 13. *)
Example utilization_samples :
  utilization (set_currentRequests (constructor None None (Some 200) None) 29)
  = Js.RInt 14
  /\ utilization (set_currentRequests (constructor None None (Some 8) None) 1)
     = Js.RInt 13
  /\ utilization (set_currentRequests (constructor None None None None) 1)
     = Js.RInt 33
  /\ utilization (set_currentRequests (constructor None None None None) 3)
     = Js.RInt 100.
Proof. vm_compute. repeat split. Qed.

(** Division and multiplication do not depend on how the mantissa of an
    operand is written: with normalized operands the percentages are the
    same. *)
Example utilization_of_canonical_operands :
  forallb (fun m =>
    forallb (fun c =>
      match utilization
              (set_currentRequests
                 (constructor None None (Some (Z.of_nat m)) None)
                 (Z.of_nat c)),
            Js.Math_round
              (Js.Number_mul
                 (Js.Number_div (Js.Number_canonical (Z.of_nat c))
                                (Js.Number_canonical (Z.of_nat m)))
                 (Js.Number_canonical 100))
      with
      | Js.RInt a, Js.RInt b => a =? b
      | _, _ => false
      end) (seq 0 (S m))) (seq 1 48)
  = true.
Proof. vm_compute. reflexivity. Qed.



End StatusFacts.

Section ProbeScenarios.
Import Ollama ServiceSpec.
#[local] Existing Instance Scenario.Node.
Local Open Scope list_scope.

Lemma probes_answer_with_a_boolean_witness :
  isModelAvailable (constructor None None None None)
    (Fulfilled Scenario.tags_ok) = Fulfilled true
  /\ substring "moondream" "moondream:latest".
Proof.
  destruct (probes_answer_with_a_boolean (constructor None None None None)
              (Fulfilled Scenario.tags_ok)) as [_ [b [Hb [_ [Hiff _]]]]].
  (* the shape of the payload is read off the scenario *)
  specialize (Hiff Scenario.tags_ok _ ["moondream:latest"; "llama2:7b"]
                eq_refl eq_refl eq_refl).
  assert (b = true) as -> by (vm_compute in Hb; now injection Hb as <-).
  split; [exact Hb|].
  destruct (proj1 Hiff eq_refl) as [_ [n [Hin Hsub]]].
  destruct Hin as [<-|[<-|[]]]; [exact Hsub|].
  apply includes_spec in Hsub. vm_compute in Hsub. discriminate.
Defined.

(** C6 as stated fails off the documented shape of the payload.  A list
    with an entry that has no name before the entry of the configured
    model makes the test throw, and the probe answers false although a
    listed name contains the configured name; an entry whose name is a
    list holding the configured name makes the probe answer true although
    no listed name is a text that contains it. *)
Lemma model_probe_is_not_a_search_of_the_names :
  isModelAvailable (constructor None None None None)
    (Fulfilled Scenario.tags_nameless_first) = Fulfilled false
  /\ Js.get (data Scenario.tags_nameless_first) "models"
     = Fulfilled (JArr [JObj []; JObj [("name", JStr "moondream:latest")]])
  /\ substring "moondream" "moondream:latest"
  /\ isModelAvailable (constructor None None None None)
       (Fulfilled Scenario.tags_listed_name) = Fulfilled true
  /\ Js.get (data Scenario.tags_listed_name) "models"
     = Fulfilled (JArr [JObj [("name", JArr [JStr "moondream"])]])
  /\ model_names [JObj [("name", JArr [JStr "moondream"])]] = None.
Proof.
  repeat apply conj; try reflexivity.
  now exists EmptyString, ":latest".
Qed.


End ProbeScenarios.

(** ** Properties of the inference call *)

Section InferenceFacts.
Import Ollama ServiceSpec.
Context {engine : Js.Engine}.

Variable JSON_stringify : JsVal -> string.
Variable String_of : JsVal -> Settled string.
Variable ToNumber_other : JsVal -> Settled spec_float.

Lemma handleNetworkError_plain text :
  handleNetworkError JSON_stringify (new_Error text)
  = new_Error ("Ollama service error: " ++ text).
Proof. reflexivity. Qed.

Lemma handleNetworkError_recognized error :
  recognized error = true ->
  In (message (handleNetworkError JSON_stringify error)) condition_messages
  /\ forall text,
       handleNetworkError JSON_stringify (with_message error text)
       = handleNetworkError JSON_stringify error.
Proof.
  unfold recognized, handleNetworkError, condition_messages, code_is,
    status_is.
  cbn [with_message code response].
  destruct (code error) as [c|]; destruct (response error) as [r|];
    repeat match goal with
    | |- context [String.eqb ?a ?b] => destruct (String.eqb a b)
    | |- context [?a =? ?b] => destruct (a =? b)
    | |- context [?a >=? ?b] => destruct (a >=? b)
    end; cbn; intros H; try discriminate; split; auto; tauto.
Qed.

Lemma handleNetworkError_unrecognized error :
  recognized error = false ->
  handleNetworkError JSON_stringify error
  = new_Error (if status_is error (fun s => s =? 400)
               then "Ollama API error: "
                    ++ JSON_stringify (response_data error)
               else "Ollama service error: " ++ message error).
Proof.
  unfold recognized, handleNetworkError, response_data, code_is, status_is.
  destruct (code error) as [c|]; destruct (response error) as [r|];
    repeat match goal with
    | |- context [String.eqb ?a ?b] => destruct (String.eqb a b)
    | |- context [?a =? ?b] => destruct (a =? b)
    | |- context [?a >=? ?b] => destruct (a >=? b)
    end; cbn; intros H; try discriminate; reflexivity.
Qed.

(** When the pre-flight probes pass, a failed POST is delivered as what
    [handleNetworkError] throws for it. *)
Lemma classifyImage_transport svc development prompt_text probe1 probe2
    error startTime endTime :
  preflight_ok svc probe1 probe2 ->
  classifyImage_work JSON_stringify String_of ToNumber_other svc development
    prompt_text probe1 probe2 (Rejected error) startTime endTime
  = Rejected (handleNetworkError JSON_stringify error).
Proof.
  intros [H1 H2]. unfold classifyImage_work. rewrite H1, H2. reflexivity.
Qed.

(** C8, as the code has it.  When the pre-flight probes pass, a failed
    POST is delivered as the error [handleNetworkError] throws, a plain
    error with no code and no response.  For an error with a code or
    response status the function knows the message is the fixed one of
    that condition, code before status, and does not depend on the text of
    the error: timed out for ETIMEDOUT and TIMEOUT, cannot connect for
    ECONNREFUSED, URL not found for ENOTFOUND, network unreachable for
    ENETUNREACH, endpoint not found for 404, internal issues for 500 and
    above.  For any other error the message is ['Ollama service error: ']
    followed by the text of the error, or, for a status of 400,
    ['Ollama API error: '] followed by the JSON of the response data. *)
Theorem transport_errors_are_mapped_by_condition svc development prompt_text
    probe1 probe2 error startTime endTime :
  (preflight_ok svc probe1 probe2 ->
   classifyImage_work JSON_stringify String_of ToNumber_other svc development
     prompt_text probe1 probe2 (Rejected error) startTime endTime
   = Rejected (handleNetworkError JSON_stringify error))
  /\ code (handleNetworkError JSON_stringify error) = None
  /\ response (handleNetworkError JSON_stringify error) = None
  /\ (code error = Some "ETIMEDOUT" \/ code error = Some "TIMEOUT" ->
      message (handleNetworkError JSON_stringify error)
      = "Request to Ollama service timed out. The image might be too large or complex, or the service may be overloaded.")
  /\ (code error = Some "ECONNREFUSED" ->
      message (handleNetworkError JSON_stringify error)
      = "Cannot connect to Ollama service. Please ensure Ollama is running and accessible at the configured URL.")
  /\ (code error = Some "ENOTFOUND" ->
      message (handleNetworkError JSON_stringify error)
      = "Ollama service URL not found. Please check your OLLAMA_API_URL configuration.")
  /\ (code error = Some "ENETUNREACH" ->
      message (handleNetworkError JSON_stringify error)
      = "Network unreachable. Please check your network connection and Ollama service configuration.")
  /\ (forall r,
        unknown_code error -> response error = Some r -> status r = 404 ->
        message (handleNetworkError JSON_stringify error)
        = "Ollama API endpoint not found. Please check your Ollama installation and version.")
  /\ (forall r,
        unknown_code error -> response error = Some r -> status r = 400 ->
        message (handleNetworkError JSON_stringify error)
        = "Ollama API error: " ++ JSON_stringify (data r))
  /\ (forall r,
        unknown_code error -> response error = Some r -> 500 <= status r ->
        message (handleNetworkError JSON_stringify error)
        = "Ollama service is experiencing internal issues. Please try again later.")
  /\ (unknown_code error ->
      (forall r,
         response error = Some r ->
         status r <> 404 /\ status r <> 400 /\ status r < 500) ->
      message (handleNetworkError JSON_stringify error)
      = "Ollama service error: " ++ message error)
  /\ (recognized error = true ->
      forall text,
        handleNetworkError JSON_stringify (with_message error text)
        = handleNetworkError JSON_stringify error).
Proof.
  assert (unknown_code error ->
          code_is error "ETIMEDOUT" = false
          /\ code_is error "TIMEOUT" = false
          /\ code_is error "ECONNREFUSED" = false
          /\ code_is error "ENOTFOUND" = false
          /\ code_is error "ENETUNREACH" = false) as Hnone.
  { intros Hu. unfold code_is. destruct (code error) as [c|] eqn:Hc; [|auto].
    specialize (Hu c Hc). unfold known_codes in Hu. cbn [In] in Hu.
    repeat apply conj; apply String.eqb_neq; intros ->; tauto. }
  split; [apply classifyImage_transport|].
  split; [unfold handleNetworkError;
          repeat match goal with
          | |- context [if ?b then _ else _] => destruct b
          end; reflexivity|].
  split; [unfold handleNetworkError;
          repeat match goal with
          | |- context [if ?b then _ else _] => destruct b
          end; reflexivity|].
  split; [intros [H|H]; unfold handleNetworkError, code_is; rewrite H;
          reflexivity|].
  split; [intros H; unfold handleNetworkError, code_is; rewrite H;
          reflexivity|].
  split; [intros H; unfold handleNetworkError, code_is; rewrite H;
          reflexivity|].
  split; [intros H; unfold handleNetworkError, code_is; rewrite H;
          reflexivity|].
  split; [|split; [|split; [|split]]].
  - intros r Hu Hr Hs. destruct (Hnone Hu) as [H1 [H2 [H3 [H4 H5]]]].
    unfold handleNetworkError, status_is. rewrite H1, H2, H3, H4, H5, Hr, Hs.
    reflexivity.
  - intros r Hu Hr Hs. destruct (Hnone Hu) as [H1 [H2 [H3 [H4 H5]]]].
    unfold handleNetworkError, status_is. rewrite H1, H2, H3, H4, H5, Hr, Hs.
    reflexivity.
  - intros r Hu Hr Hs. destruct (Hnone Hu) as [H1 [H2 [H3 [H4 H5]]]].
    unfold handleNetworkError, status_is. rewrite H1, H2, H3, H4, H5, Hr.
    cbn [orb].
    destruct (status r =? 404) eqn:E4;
      [apply Z.eqb_eq in E4; lia|].
    destruct (status r =? 400) eqn:E0;
      [apply Z.eqb_eq in E0; lia|].
    destruct (status r >=? 500) eqn:E5; [reflexivity|].
    rewrite Z.geb_leb in E5. apply Z.leb_gt in E5. lia.
  - intros Hu Hstatus. destruct (Hnone Hu) as [H1 [H2 [H3 [H4 H5]]]].
    unfold handleNetworkError, status_is. rewrite H1, H2, H3, H4, H5.
    cbn [orb].
    destruct (response error) as [r|]; [|reflexivity].
    destruct (Hstatus r eq_refl) as [N4 [N0 N5]].
    apply Z.eqb_neq in N4, N0. rewrite N4, N0.
    destruct (status r >=? 500) eqn:E5; [|reflexivity].
    rewrite Z.geb_leb in E5. apply Z.leb_le in E5. lia.
  - intros Hr. apply (handleNetworkError_recognized error Hr).
Qed.


Lemma hasOwnProperty_cases v key :
  (exists b, Js.hasOwnProperty v key = Fulfilled b)
  \/ (exists fault, Js.hasOwnProperty v key = Rejected (Js.TypeError fault)).
Proof.
  destruct v; simpl; eauto.
  destruct (Js.lookup "hasOwnProperty" fields); [eauto|].
  destruct (Js.lookup key fields); eauto.
Qed.

Lemma hasOwnProperty_get v key :
  Js.hasOwnProperty v key = Fulfilled true ->
  exists x, Js.get v key = Fulfilled x.
Proof.
  destruct v; simpl; try discriminate.
  destruct (Js.lookup "hasOwnProperty" fields); [discriminate|].
  destruct (Js.lookup key fields); eauto.
Qed.




Lemma try_catch_fulfilled {A : Type} (body : Settled A)
    (handler : JsError -> JsError) (a : A) :
  try_catch body (fun e => Rejected (handler e)) = Fulfilled a ->
  body = Fulfilled a.
Proof.
  destruct body; simpl; [auto|discriminate].
Qed.

(** The division is the engine's, the rounding goes up on a tie: 1.5
    seconds, just under and exactly one and a half milliseconds, just
    under half a millisecond. *)
Example duration_samples :
  map (fun n => Js.Math_round
                  (Js.Number_div (Js.Number_of_Z n) (Js.Number_of_Z 1000000)))
      [1500000000; 1499999; 1500000; 499999]
  = [Js.RInt 1500; Js.RInt 1; Js.RInt 2; Js.RInt 0].
Proof. vm_compute. reflexivity. Qed.

(** C9, as the code has it.  A call that yields a result had its POST
    resolved, and the result reports as [processingTime]
    [Math.round(total_duration / 1000000)] when the response carries a
    [total_duration] that is a number other than 0 (in general: a truthy
    value, converted to a number), and the time measured around the POST
    when [total_duration] is absent or falsy ([0], [null], [false] or the
    empty string). *)
Theorem processingTime_prefers_reported_duration svc development prompt_text
    probe1 probe2 post startTime endTime res :
  classifyImage_work JSON_stringify String_of ToNumber_other svc development
    prompt_text probe1 probe2 post startTime endTime = Fulfilled res ->
  exists r,
    post = Fulfilled r
    /\ success res = true
    /\ (forall n,
          Js.get (data r) "total_duration" = Fulfilled (JNum n) ->
          n <> 0 ->
          processingTime res
          = Js.Math_round
              (Js.Number_div (Js.Number_of_Z n) (Js.Number_of_Z 1000000)))
    /\ (forall v,
          Js.get (data r) "total_duration" = Fulfilled v ->
          Js.truthy v = true ->
          exists ns,
            ToNumber ToNumber_other v = Fulfilled ns
            /\ processingTime res
               = Js.Math_round (Js.Number_div ns (Js.Number_of_Z 1000000)))
    /\ (forall v,
          Js.get (data r) "total_duration" = Fulfilled v ->
          Js.truthy v = false ->
          processingTime res = Js.RInt (endTime - startTime)).
Proof.
  intros H. apply try_catch_fulfilled in H.
  destruct (isAvailable probe1) as [[|]|e1]; cbn [bind negb] in H;
    try discriminate H.
  destruct (isModelAvailable svc probe2) as [[|]|e2]; cbn [bind negb] in H;
    try discriminate H.
  destruct post as [r|e]; cbn [bind] in H; [|discriminate H].
  exists r. split; [reflexivity|].
  destruct (logResponseDebug development r) as [[]|e3]; cbn [bind] in H;
    [|discriminate H].
  destruct (Js.truthy (data r)); cbn [negb] in H; [|discriminate H].
  destruct (status r =? 200); cbn [negb] in H; [|discriminate H].
  destruct (Js.hasOwnProperty (data r) "response") as [[|]|e4];
    cbn [bind negb] in H; try discriminate H.
  destruct (Js.get (data r) "response") as [answer|e5]; cbn [bind] in H;
    [|discriminate H].
  assert (forall text total_duration,
    (time <- (if Js.truthy total_duration then
                ns <- ToNumber ToNumber_other total_duration ;;
                Fulfilled (Js.Math_round
                  (Js.Number_div ns (Js.Number_of_Z 1000000)))
              else Fulfilled (Js.RInt (endTime - startTime))) ;;
     Fulfilled {| success := true;
                  classification := Js.trim text;
                  result_model := model svc;
                  prompt := prompt_text;
                  processingTime := time |}) = Fulfilled res ->
    success res = true
    /\ (forall n,
          Fulfilled total_duration = Fulfilled (JNum n) -> n <> 0 ->
          processingTime res
          = Js.Math_round
              (Js.Number_div (Js.Number_of_Z n) (Js.Number_of_Z 1000000)))
    /\ (forall v,
          Fulfilled total_duration = Fulfilled v (A := JsVal) ->
          Js.truthy v = true ->
          exists ns,
            ToNumber ToNumber_other v = Fulfilled ns
            /\ processingTime res
               = Js.Math_round (Js.Number_div ns (Js.Number_of_Z 1000000)))
    /\ (forall v,
          Fulfilled total_duration = Fulfilled v (A := JsVal) ->
          Js.truthy v = false ->
          processingTime res = Js.RInt (endTime - startTime))) as Hbuild.
  { intros text td Hres. destruct (Js.truthy td) eqn:Htd.
    - destruct (ToNumber ToNumber_other td) as [ns|e6] eqn:Hns;
        cbn [bind] in Hres; [|discriminate Hres].
      injection Hres as <-. cbn [success processingTime].
      repeat apply conj; [reflexivity| | |].
      + intros n Hn _. injection Hn as ->. cbn in Hns.
        now injection Hns as <-.
      + intros v Hv _. injection Hv as <-. exists ns. auto.
      + intros v Hv Hfalsy. injection Hv as <-. congruence.
    - cbn [bind] in Hres. injection Hres as <-.
      cbn [success processingTime].
      repeat apply conj; [reflexivity| | |reflexivity].
      + intros n Hn Hnz. injection Hn as ->. cbn in Htd.
        apply negb_false_iff, Z.eqb_eq in Htd. contradiction.
      + intros v Hv Htruthy. injection Hv as <-. congruence. }
  destruct answer; try discriminate H;
    (destruct (String_of _) as [text|e6]; cbn [bind] in H;
       [|discriminate H]);
    (destruct (Js.get (data r) "total_duration") as [td|e7];
       cbn [bind] in H; [|discriminate H]);
    exact (Hbuild _ _ H).
Qed.

End InferenceFacts.

Section InferenceScenarios.
Import Ollama ServiceSpec.
#[local] Existing Instance Scenario.Node.

Lemma scenario_preflight :
  preflight_ok (constructor None None None None)
    (Fulfilled Scenario.tags_ok) (Fulfilled Scenario.tags_ok).
Proof. split; reflexivity. Qed.

(** C8 as stated fails: an error with a code the function does not know
    is delivered with its own text after the generic prefix. *)
Lemma raw_transport_text_reaches_the_caller :
  Scenario.classify (Rejected Scenario.hang_up) 0 5
  = Rejected (new_Error "Ollama service error: socket hang up")
  /\ ~ In "Ollama service error: socket hang up" condition_messages
  /\ Js.includes "Ollama service error: socket hang up"
       (message Scenario.hang_up) = true.
Proof.
  repeat apply conj; [reflexivity| |reflexivity].
  unfold condition_messages. simpl.
  intros [H|[H|[H|[H|[H|[H|[]]]]]]]; discriminate H.
Qed.

Lemma transport_errors_are_mapped_by_condition_witness :
  Scenario.classify (Rejected Scenario.refused) 0 5
  = Rejected (handleNetworkError Scenario.no_JSON Scenario.refused)
  /\ message (handleNetworkError Scenario.no_JSON Scenario.refused)
     = "Cannot connect to Ollama service. Please ensure Ollama is running and accessible at the configured URL."
  /\ message (handleNetworkError Scenario.no_JSON Scenario.hang_up)
     = "Ollama service error: socket hang up".
Proof.
  destruct (transport_errors_are_mapped_by_condition Scenario.no_JSON
              Scenario.String_of_answer Scenario.no_number
              (constructor None None None None) false
              "What is in this image?"
              (Fulfilled Scenario.tags_ok) (Fulfilled Scenario.tags_ok)
              Scenario.refused 0 5)
    as [Hdeliver [_ [_ [_ [Hrefused _]]]]].
  destruct (transport_errors_are_mapped_by_condition Scenario.no_JSON
              Scenario.String_of_answer Scenario.no_number
              (constructor None None None None) false
              "What is in this image?"
              (Fulfilled Scenario.tags_ok) (Fulfilled Scenario.tags_ok)
              Scenario.hang_up 0 5)
    as [_ [_ [_ [_ [_ [_ [_ [_ [_ [_ [Hother _]]]]]]]]]]].
  split; [exact (Hdeliver scenario_preflight)|].
  split; [exact (Hrefused eq_refl)|].
  apply Hother.
  - intros c Hc. injection Hc as <-. cbn [known_codes In].
    intros [H|[H|[H|[H|[H|[]]]]]]; discriminate H.
  - intros r Hr. discriminate Hr.
Defined.

(** [trim] removes the white space of the language at both ends, and
    only there. *)
Example trimmed_answers :
  Js.trim (Scenario.nbsp ++ " a cat" ++ Scenario.em_space
           ++ Scenario.byte_order_mark) = "a cat"
  /\ Js.trim ("a" ++ Scenario.nbsp ++ "cat") = "a" ++ Scenario.nbsp ++ "cat"
  /\ Js.trim (Scenario.em_space ++ Scenario.nbsp) = EmptyString
  /\ exists res,
       Scenario.classify (Fulfilled Scenario.padded) 0 5 = Fulfilled res
       /\ classification res = "a cat".
Proof.
  repeat apply conj; try reflexivity. eexists. split; reflexivity.
Qed.

Example reported_duration :
  exists res,
    Scenario.classify (Fulfilled Scenario.timed) 1000 1020 = Fulfilled res
    /\ classification res = "This is a test image classification result"
    /\ processingTime res = Js.RInt 1500.
Proof. eexists. vm_compute. repeat split. Qed.



(** C9 as stated fails: a response that includes [total_duration: 0] is
    reported with the time measured around the POST, not with 0. *)
Lemma zero_duration_is_not_reported :
  Js.get (data Scenario.zero_timed) "total_duration" = Fulfilled (JNum 0)
  /\ Js.Math_round (Js.Number_div (Js.Number_of_Z 0)
                      (Js.Number_of_Z 1000000)) = Js.RInt 0
  /\ exists res,
       Scenario.classify (Fulfilled Scenario.zero_timed) 1000 2234
       = Fulfilled res
       /\ processingTime res = Js.RInt 1234.
Proof.
  repeat apply conj; [reflexivity|reflexivity|].
  eexists. split; reflexivity.
Qed.

Lemma processingTime_prefers_reported_duration_witness :
  exists res,
    Scenario.classify (Fulfilled Scenario.timed) 1000 1020 = Fulfilled res
    /\ processingTime res = Js.RInt 1500.
Proof.
  assert (exists res,
            Scenario.classify (Fulfilled Scenario.timed) 1000 1020
            = Fulfilled res) as [res Hres] by (eexists; reflexivity).
  exists res. split; [exact Hres|].
  destruct (processingTime_prefers_reported_duration Scenario.no_JSON
              Scenario.String_of_answer Scenario.no_number
              (constructor None None None None) false
              "What is in this image?"
              (Fulfilled Scenario.tags_ok) (Fulfilled Scenario.tags_ok)
              (Fulfilled Scenario.timed) 1000 1020 res Hres)
    as [r' [Hr [_ [Hreported _]]]].
  injection Hr as <-.
  exact (Hreported 1500000000 eq_refl ltac:(discriminate)).
Defined.

End InferenceScenarios.

(** ** More properties of the request queue *)

Section MoreQueueFacts.
Import Ollama QueueSpec QueueRuns.
Local Open Scope list_scope.

Ltac record_fields :=
  cbn [this awaiting promises effects executeRequest emit set_this
       set_currentRequests set_requestQueue currentRequests
       maxConcurrentRequests maxQueueSize requestQueue ticket execute
       timestamp fst snd] in *.

Lemma queueRequest_cases requestFn now rt :
  let svc := this rt in
  let p := promises rt in
  let queueItem :=
    {| execute := requestFn; ticket := p; timestamp := now |} in
  fst (queueRequest requestFn now rt)
  = if currentRequests svc <? maxConcurrentRequests svc then
      {| this := set_currentRequests svc (currentRequests svc + 1);
         awaiting := queueItem :: awaiting rt;
         promises := S p;
         effects := Invoke p requestFn :: effects rt |}
    else if queue_length svc <? maxQueueSize svc then
      {| this := set_requestQueue svc (requestQueue svc ++ [queueItem]);
         awaiting := awaiting rt;
         promises := S p;
         effects := effects rt |}
    else
      {| this := svc;
         awaiting := awaiting rt;
         promises := S p;
         effects := RejectFull p :: effects rt |}.
Proof.
  cbv zeta. unfold queueRequest. record_fields.
  destruct (currentRequests (this rt) <? maxConcurrentRequests (this rt));
    [reflexivity|].
  rewrite Z.geb_leb, Z.leb_antisym.
  destruct (queue_length (this rt) <? maxQueueSize (this rt)); reflexivity.
Qed.

Lemma burst_step requestFn now rt k :
  0 <= k -> 0 <= maxQueueSize (this rt) ->
  burst_numbers rt k ->
  burst_numbers (fst (queueRequest requestFn now rt)) (k + 1).
Proof.
  intros Hk Hq [Hc [Hlen [Hfull Hinv]]]. unfold burst_numbers in *.
  rewrite queueRequest_cases. cbv zeta in *.
  destruct (currentRequests (this rt) <? maxConcurrentRequests (this rt))
    eqn:Hfree; [apply Z.ltb_lt in Hfree | apply Z.ltb_ge in Hfree].
  - unfold queue_length in *. record_fields. rewrite !count_cons.
    cbn [is_full is_invoke]. lia.
  - destruct (queue_length (this rt) <? maxQueueSize (this rt)) eqn:Hroom;
      [apply Z.ltb_lt in Hroom | apply Z.ltb_ge in Hroom];
      unfold queue_length in *; record_fields.
    + rewrite length_app. simpl List.length. lia.
    + rewrite !count_cons. cbn [is_full is_invoke]. lia.
Qed.

Lemma burst_run works :
  forall rt k,
    0 <= k -> 0 <= maxQueueSize (this rt) ->
    burst_numbers rt k ->
    burst_numbers (submit_all works rt) (k + Z.of_nat (List.length works))
    /\ maxConcurrentRequests (this (submit_all works rt))
       = maxConcurrentRequests (this rt)
    /\ maxQueueSize (this (submit_all works rt)) = maxQueueSize (this rt).
Proof.
  induction works as [|w works IH]; intros rt k Hk Hq Hrt.
  - simpl. rewrite Z.add_0_r. auto.
  - cbn [submit_all fold_left]. 
    destruct (step_config rt _ (step_submit rt (fst w) (snd w))) as [Hm Hs].
    destruct (IH (fst (queueRequest (fst w) (snd w) rt)) (k + 1))
      as [Hn [Hm' Hs']]; [lia|lia|now apply burst_step|].
    unfold submit_all in *. rewrite Hm', Hs'.
    split; [|split; assumption].
    replace (k + Z.of_nat (List.length (w :: works)))
      with (k + 1 + Z.of_nat (List.length works))
      by (simpl List.length; lia).
    exact Hn.
Qed.

(** X1.  A burst on a freshly constructed service whose bounds are not
    negative: of [k] submissions with no completion in between, the first
    [maxConcurrentRequests] are invoked and run, the next [maxQueueSize]
    wait, and all the others are rejected with the queue-full error. *)
Theorem burst_fills_slots_then_queue_then_rejects url mdl conc size works :
  not_negative conc -> not_negative size ->
  let rt := submit_all works (boot (constructor url mdl conc size)) in
  let k := Z.of_nat (List.length works) in
  let m := parseInt_or conc 3 in
  let q := parseInt_or size 10 in
  currentRequests (this rt) = Z.min k m
  /\ queue_length (this rt) = Z.min (Z.max 0 (k - m)) q
  /\ Z.of_nat (count is_full (effects rt)) = Z.max 0 (k - m - q)
  /\ Z.of_nat (count is_invoke (effects rt)) = Z.min k m.
Proof.
  intros Hc Hs. cbv zeta.
  destruct (constructor_boot url mdl conc size Hc Hs) as [Hboot _].
  pose proof (cfg_concurrent _ Hboot) as Hm.
  pose proof (cfg_queue _ Hboot) as Hq.
  destruct (burst_run works (boot (constructor url mdl conc size)) 0)
    as [Hn [Hm' Hs']]; [lia|exact Hq| |].
  - unfold burst_numbers, queue_length, count. simpl in *. lia.
  - unfold burst_numbers in Hn. rewrite Hm', Hs' in Hn. exact Hn.
Qed.

Lemma sorted_snoc l p :
  StronglySorted Nat.lt l -> Forall (fun x => (x < p)%nat) l ->
  StronglySorted Nat.lt (l ++ [p]).
Proof.
  induction l as [|x l IH]; intros Hs Hp; simpl.
  - constructor; constructor.
  - apply StronglySorted_inv in Hs as [Hs Hx].
    inversion Hp; subst. constructor; [now apply IH|].
    apply Forall_app. split; [exact Hx|]. constructor; [assumption|constructor].
Qed.

Lemma in_order_submit requestFn now rt :
  saturated rt -> in_order rt ->
  in_order (fst (queueRequest requestFn now rt)).
Proof.
  intros Hsat [Hsorted Hissued Heff Hlast]. rewrite queueRequest_cases.
  cbv zeta. unfold waiting in *.
  assert (forall l : list nat,
            Forall (fun p => (p < promises rt)%nat) l ->
            Forall (fun p => (p < S (promises rt))%nat) l) as Hup.
  { intros l. apply Forall_impl. intros; lia. }
  assert (Forall (fun e => (handled e < S (promises rt))%nat) (effects rt))
    as Heff'.
  { revert Heff. apply Forall_impl. intros; lia. }
  destruct (currentRequests (this rt) <? maxConcurrentRequests (this rt))
    eqn:Hfree; [apply Z.ltb_lt in Hfree | apply Z.ltb_ge in Hfree].
  - assert (requestQueue (this rt) = []) as Hq.
    { destruct (requestQueue (this rt)) eqn:Hq; [reflexivity|].
      unfold saturated in Hsat. rewrite Hq in Hsat.
      specialize (Hsat ltac:(discriminate)). lia. }
    constructor; unfold waiting; record_fields;
      [exact Hsorted|now apply Hup| |].
    + constructor; [cbn; lia|exact Heff'].
    + intros e p _ _ Hin. rewrite Hq in Hin. destruct Hin.
  - destruct (queue_length (this rt) <? maxQueueSize (this rt)).
    + constructor; unfold waiting; record_fields;
        rewrite ?map_app; cbn [map ticket]; [| |exact Heff'|].
      * now apply sorted_snoc.
      * apply Forall_app. split; [now apply Hup|].
        constructor; [lia|constructor].
      * intros e p He Ht Hin. apply in_app_or in Hin as [Hin|[<-|[]]].
        -- now apply Hlast.
        -- rewrite Forall_forall in Heff. now apply Heff.
    + constructor; unfold waiting; record_fields;
        [exact Hsorted|now apply Hup| |].
      * constructor; [cbn; lia|exact Heff'].
      * intros e p [<-|He] Ht Hin; [discriminate Ht|now apply Hlast].
Qed.

Lemma in_order_drain clock queue :
  forall k rt,
    requestQueue (this rt) = queue -> in_order rt ->
    in_order (processQueue_from clock k queue rt).
Proof.
  induction queue as [|x rest IH]; intros k rt Hq Hrt;
    cbn [processQueue_from]; [exact Hrt|].
  destruct (currentRequests (this rt) <? maxConcurrentRequests (this rt));
    [|exact Hrt].
  destruct Hrt as [Hsorted Hissued Heff Hlast]. unfold waiting in *.
  rewrite Hq in *. cbn [map] in *.
  apply StronglySorted_inv in Hsorted as [Hsorted Hx].
  assert (ticket x < promises rt)%nat as Hxp by now inversion Hissued.
  assert (Forall (fun p => (p < promises rt)%nat) (map ticket rest))
    as Hrest by now inversion Hissued.
  assert (forall e p, In e (effects rt) -> taken e = true ->
                      In p (map ticket rest) -> (handled e < p)%nat)
    as Hlast'.
  { intros e p He Ht Hin. apply Hlast; auto. now right. }
  rewrite Forall_forall in Hx.
  cbv zeta. destruct (clock k - timestamp x >? 30000).
  - apply IH; [reflexivity|].
    constructor; unfold waiting; record_fields;
      [exact Hsorted|exact Hrest| |].
    + constructor; [exact Hxp|exact Heff].
    + intros e p [<-|He] Ht Hin; [now apply Hx|now apply Hlast'].
  - constructor; unfold waiting; record_fields;
      [exact Hsorted|exact Hrest| |].
    + constructor; [exact Hxp|exact Heff].
    + intros e p [<-|He] Ht Hin; [now apply Hx|now apply Hlast'].
Qed.

Lemma in_order_resume queueItem outcome clock rt :
  (ticket queueItem < promises rt)%nat -> in_order rt ->
  in_order (executeRequest_resume queueItem outcome clock rt).
Proof.
  intros Hp [Hsorted Hissued Heff Hlast].
  unfold executeRequest_resume, processQueue.
  apply in_order_drain; [reflexivity|].
  constructor; unfold waiting in *; record_fields;
    [exact Hsorted|exact Hissued| |].
  - constructor; [now destruct outcome|exact Heff].
  - intros e p [<-|He] Ht Hq; [now destruct outcome|now apply Hlast].
Qed.

Lemma reachable_in_order url mdl conc size rt :
  reachable (constructor url mdl conc size) rt -> in_order rt.
Proof.
  intros Hreach.
  induction Hreach as [|rt rt' Hreach IH Hstep].
  - constructor; unfold waiting, boot; record_fields;
      cbn [constructor requestQueue map]; try constructor.
    intros e p [].
  - pose proof (reachable_saturated _ _ _ _ _ Hreach) as Hsat.
    destruct (reachable_numbered _ _ _ _ _ Hreach) as [_ _ Hrunning _].
    destruct Hstep as [rt requestFn now|rt queueItem outcome clock Hin|
                       rt clock].
    + now apply in_order_submit.
    + apply in_order_resume; [|exact IH].
      rewrite Forall_forall in Hrunning. now apply Hrunning.
    + now apply in_order_drain.
Qed.

(** X2.  First in, first out, with no overtaking.  In every state the
    service can reach, whatever its environment, the promises that wait
    are queued in the order of their submission, and every promise whose
    work has been invoked, or that was rejected as expired, was submitted
    before all that still wait. *)
Theorem queue_is_first_in_first_out url mdl conc size rt :
  reachable (constructor url mdl conc size) rt ->
  StronglySorted Nat.lt (waiting rt)
  /\ (forall p fn q,
        In (Invoke p fn) (effects rt) -> In q (waiting rt) -> (p < q)%nat)
  /\ (forall p q,
        In (RejectTimeout p) (effects rt) -> In q (waiting rt) ->
        (p < q)%nat).
Proof.
  intros Hreach.
  destruct (reachable_in_order _ _ _ _ _ Hreach) as [Hsorted _ _ Hlast].
  repeat apply conj; [exact Hsorted| |].
  - intros p fn q He Hq. now apply (Hlast (Invoke p fn) q).
  - intros p q He Hq. now apply (Hlast (RejectTimeout p) q).
Qed.

Lemma resume_absent queueItem l :
  occurrences (ticket queueItem) l = 0%nat -> resume queueItem l = l.
Proof.
  induction l as [|x l IH]; [reflexivity|].
  rewrite occurrences_cons. unfold resume in *. simpl.
  destruct (Nat.eqb (ticket x) (ticket queueItem)); simpl; [lia|].
  intros H. now rewrite IH.
Qed.

(** X3.  Round trip with a free slot and nobody waiting: submitting a unit
    of work and letting it settle gives the service object back as it
    was, leaves the other running work alone, and settles the promise
    handed out with the outcome of the work, a value [X] with exactly
    [X]. *)
Theorem submit_then_settle_round_trip requestFn now outcome clock rt :
  consistent rt ->
  currentRequests (this rt) < maxConcurrentRequests (this rt) ->
  requestQueue (this rt) = [] ->
  let p := promises rt in
  let queueItem :=
    {| execute := requestFn; ticket := p; timestamp := now |} in
  let rt' := executeRequest_resume queueItem outcome clock
               (fst (queueRequest requestFn now rt)) in
  snd (queueRequest requestFn now rt) = p
  /\ this rt' = this rt
  /\ awaiting rt' = awaiting rt
  /\ effects rt'
     = match outcome with
       | Fulfilled X => Resolve p X
       | Rejected error => RejectWork p error
       end :: Invoke p requestFn :: effects rt.
Proof.
  intros Hrt Hfree Hq. cbv zeta.
  assert (occurrences (promises rt) (awaiting rt) = 0%nat) as Hnew.
  { pose proof (each_once rt Hrt (promises rt)) as H.
    rewrite Nat.ltb_irrefl in H. lia. }
  apply Z.ltb_lt in Hfree.
  split; [unfold queueRequest; record_fields; now rewrite Hfree|].
  rewrite queueRequest_cases. cbv zeta. rewrite Hfree.
  unfold executeRequest_resume, processQueue. record_fields.
  rewrite Hq. cbn [processQueue_from]. record_fields.
  repeat apply conj; [| |reflexivity].
  - destruct (this rt) as [u m t mc mq c q]. unfold set_currentRequests.
    record_fields. f_equal. lia.
  - unfold resume. cbn [filter ticket]. rewrite Nat.eqb_refl. cbn [negb].
    exact (resume_absent
             {| execute := requestFn; ticket := promises rt;
                timestamp := now |} (awaiting rt) Hnew).
Qed.

Lemma processQueue_from_once clock queue :
  forall k rt,
    let rt' := processQueue_from clock k queue rt in
    (awaiting rt' = awaiting rt
     /\ currentRequests (this rt') = currentRequests (this rt)
     /\ count is_invoke (effects rt') = count is_invoke (effects rt))
    \/ (exists next,
          In next queue
          /\ awaiting rt' = next :: awaiting rt
          /\ currentRequests (this rt') = currentRequests (this rt) + 1
          /\ currentRequests (this rt) < maxConcurrentRequests (this rt)
          /\ count is_invoke (effects rt')
             = S (count is_invoke (effects rt))).
Proof.
  induction queue as [|x rest IH]; intros k rt; cbv zeta;
    cbn [processQueue_from]; [now left|].
  destruct (currentRequests (this rt) <? maxConcurrentRequests (this rt))
    eqn:Hfree; [apply Z.ltb_lt in Hfree|now left].
  cbv zeta. destruct (clock k - timestamp x >? 30000).
  - specialize (IH (S k) (emit (RejectTimeout (ticket x))
                            (set_this rt (set_requestQueue (this rt) rest)))).
    cbv zeta in IH. record_fields. rewrite count_cons in IH.
    cbn [is_invoke] in IH.
    destruct IH as [[Ha [Hc Hi]]|[next [Hin [Ha [Hc [Hlt Hi]]]]]].
    + left. auto.
    + right. exists next. repeat apply conj; auto. now right.
  - right. exists x. record_fields. rewrite count_cons. cbn [is_invoke].
    repeat apply conj; auto. now left.
Qed.

(** X4.  One call of [processQueue] starts at most one unit of work,
    whatever the state it is called in and however many slots are free;
    the unit it starts comes from the queue, and the call never takes
    [currentRequests] beyond [maxConcurrentRequests]. *)
Theorem processQueue_starts_at_most_one clock rt :
  ((awaiting (processQueue clock rt) = awaiting rt
    /\ currentRequests (this (processQueue clock rt))
       = currentRequests (this rt))
   \/ (exists next,
         In next (requestQueue (this rt))
         /\ awaiting (processQueue clock rt) = next :: awaiting rt
         /\ currentRequests (this (processQueue clock rt))
            = currentRequests (this rt) + 1))
  /\ (count is_invoke (effects (processQueue clock rt))
      <= S (count is_invoke (effects rt)))%nat
  /\ currentRequests (this (processQueue clock rt))
     <= Z.max (currentRequests (this rt))
              (maxConcurrentRequests (this rt)).
Proof.
  unfold processQueue.
  destruct (processQueue_from_once clock (requestQueue (this rt)) 0%nat rt)
    as [[Ha [Hc Hi]]|[next [Hin [Ha [Hc [Hlt Hi]]]]]].
  - repeat apply conj; [left; auto|lia|lia].
  - repeat apply conj; [right; exists next; auto|lia|lia].
Qed.

(** X5.  Between completions [processQueue] changes nothing: in every
    state the service can reach, whatever its environment, a call of it
    returns the state as it is, so an item that has expired stays in the
    queue until a unit of work completes. *)
Theorem processQueue_is_idle_between_completions url mdl conc size rt clock :
  reachable (constructor url mdl conc size) rt ->
  processQueue clock rt = rt.
Proof.
  intros Hreach.
  pose proof (reachable_saturated _ _ _ _ _ Hreach) as Hsat.
  unfold processQueue.
  destruct (requestQueue (this rt)) as [|x rest] eqn:Hq; [reflexivity|].
  cbn [processQueue_from]. unfold saturated in Hsat. rewrite Hq in Hsat.
  specialize (Hsat ltac:(discriminate)). apply Z.ltb_ge in Hsat.
  now rewrite Hsat.
Qed.

(** X6.  No slot stays free while a request waits: in every state
    reachable from a freshly constructed service whose bounds are not
    negative, a non-empty queue means that [currentRequests] equals
    [maxConcurrentRequests], and a free slot means that the queue is
    empty. *)
Theorem requests_wait_only_when_all_slots_are_taken url mdl conc size rt :
  not_negative conc -> not_negative size ->
  reachable (constructor url mdl conc size) rt ->
  (requestQueue (this rt) <> [] ->
   currentRequests (this rt) = maxConcurrentRequests (this rt))
  /\ (currentRequests (this rt) < maxConcurrentRequests (this rt) ->
      requestQueue (this rt) = []).
Proof.
  intros Hc Hs Hreach.
  destruct (reachable_consistent _ _
              (constructor_boot url mdl conc size Hc Hs) Hreach)
    as [Hrt Hsat].
  pose proof (running_bounded rt Hrt) as Hle. unfold saturated in Hsat.
  split.
  - intros Hq. specialize (Hsat Hq). lia.
  - intros Hfree. destruct (requestQueue (this rt)); [reflexivity|].
    specialize (Hsat ltac:(discriminate)). lia.
Qed.

End MoreQueueFacts.


(** ** More properties of the probes and the inference call *)

Section MoreServiceFacts.
Import Ollama ServiceSpec.
Context {engine : Js.Engine}.

Variable JSON_stringify : JsVal -> string.
Variable String_of : JsVal -> Settled string.
Variable ToNumber_other : JsVal -> Settled spec_float.

(** X7.  The model can only be reported ready by a response that also
    reports the service available: both probes read the same endpoint, and
    a response on which [isModelAvailable] answers true makes
    [isAvailable] answer true. *)
Theorem model_ready_implies_service_available svc probe :
  isModelAvailable svc probe = Fulfilled true ->
  isAvailable probe = Fulfilled true.
Proof.
  intros H. apply isModelAvailable_true in H as [r [entries [-> [Hs _]]]].
  rewrite isAvailable_answer. apply Z.eqb_eq in Hs. now rewrite Hs.
Qed.

(** X8.  The pre-flight checks gate the call: when the first probe does
    not report the service available the closure is rejected with the
    not-available message, and when it does but the second probe does not
    report the model the closure is rejected with the pull hint for the
    configured model; in both cases whatever the POST would give, which
    plays no part. *)
Theorem preflight_failure_rejects_before_the_post svc development
    prompt_text probe1 probe2 post startTime endTime :
  (isAvailable probe1 = Fulfilled false ->
   classifyImage_work JSON_stringify String_of ToNumber_other svc development
     prompt_text probe1 probe2 post startTime endTime
   = Rejected (new_Error ("Ollama service error: " ++ unavailable_message)))
  /\ (isAvailable probe1 = Fulfilled true ->
      isModelAvailable svc probe2 = Fulfilled false ->
      classifyImage_work JSON_stringify String_of ToNumber_other svc
        development prompt_text probe1 probe2 post startTime endTime
      = Rejected (new_Error ("Ollama service error: "
                             ++ model_unavailable_message (model svc)))).
Proof.
  split.
  - intros H1. unfold classifyImage_work. rewrite H1. reflexivity.
  - intros H1 H2. unfold classifyImage_work. rewrite H1, H2. reflexivity.
Qed.

Lemma handleNetworkError_shape error :
  exists text,
    handleNetworkError JSON_stringify error = new_Error text
    /\ text <> EmptyString.
Proof.
  unfold handleNetworkError.
  repeat match goal with
  | |- context [if ?b then _ else _] => destruct b
  end; eexists; (split; [reflexivity|discriminate]).
Qed.

(** X10.  Whatever goes wrong inside the closure, the caller gets a fresh
    [Error] made by [handleNetworkError]: it has a message that is not
    empty and neither the [code] nor the [response] of the error that was
    thrown. *)
Theorem rejections_carry_a_message_only svc development prompt_text
    probe1 probe2 post startTime endTime error :
  classifyImage_work JSON_stringify String_of ToNumber_other svc development
    prompt_text probe1 probe2 post startTime endTime = Rejected error ->
  (exists thrown, error = handleNetworkError JSON_stringify thrown)
  /\ message error <> EmptyString
  /\ code error = None
  /\ response error = None.
Proof.
  unfold classifyImage_work.
  match goal with
  | |- try_catch ?body _ = _ -> _ => destruct body as [res|thrown]
  end; cbn [try_catch]; intros H; [discriminate H|].
  injection H as <-.
  destruct (handleNetworkError_shape thrown) as [text [Heq Htext]].
  split; [now exists thrown|]. rewrite Heq. auto.
Qed.

Lemma classifyImage_after_validation svc development prompt_text
    probe1 probe2 r answer startTime endTime :
  preflight_ok svc probe1 probe2 ->
  debug_quiet development r ->
  Js.truthy (data r) = true ->
  status r = 200 ->
  Js.hasOwnProperty (data r) "response" = Fulfilled true ->
  Js.get (data r) "response" = Fulfilled answer ->
  answer <> JNull -> answer <> JUndefined ->
  classifyImage_work JSON_stringify String_of ToNumber_other svc development
    prompt_text probe1 probe2 (Fulfilled r) startTime endTime
  = try_catch
      (text <- String_of answer ;;
       time <- reported_time ToNumber_other r (endTime - startTime) ;;
       Fulfilled {| success := true;
                    classification := Js.trim text;
                    result_model := model svc;
                    prompt := prompt_text;
                    processingTime := time |})
      (fun error => Rejected (handleNetworkError JSON_stringify error)).
Proof.
  intros [H1 H2] Hquiet Ht Hs Hhas Hanswer Hnull Hundef.
  unfold classifyImage_work, debug_quiet in *.
  rewrite H1, H2. cbn [bind negb]. rewrite Hquiet. cbn [bind].
  rewrite Ht. cbn [negb]. apply Z.eqb_eq in Hs. rewrite Hs. cbn [negb].
  rewrite Hhas. cbn [bind negb]. rewrite Hanswer. cbn [bind].
  unfold reported_time.
  destruct answer; try contradiction;
    destruct (String_of _) as [text|e]; cbn [bind]; try reflexivity;
    destruct (Js.get (data r) "total_duration") as [td|e]; cbn [bind];
    try reflexivity;
    destruct (Js.truthy td); try reflexivity;
    destruct (ToNumber ToNumber_other td); reflexivity.
Qed.

(** X9.  When the closure yields a result, and what the result is: exactly
    when both pre-flight probes pass, the POST resolves with a response
    that passes the four checks (and on which neither the debug log nor
    the call of [hasOwnProperty] throws), and the conversions of the
    answer and of the duration succeed; the result then has [success]
    true, the text of the [response] field trimmed, the configured model,
    the prompt as submitted, and the processing time. *)
Theorem result_exactly_for_a_well_formed_response svc development
    prompt_text probe1 probe2 post startTime endTime res :
  classifyImage_work JSON_stringify String_of ToNumber_other svc development
    prompt_text probe1 probe2 post startTime endTime = Fulfilled res <->
  preflight_ok svc probe1 probe2
  /\ exists r answer text time,
       post = Fulfilled r
       /\ debug_quiet development r
       /\ ~ malformed r
       /\ Js.hasOwnProperty (data r) "response" = Fulfilled true
       /\ Js.get (data r) "response" = Fulfilled answer
       /\ String_of answer = Fulfilled text
       /\ reported_time ToNumber_other r (endTime - startTime)
          = Fulfilled time
       /\ res = {| success := true;
                   classification := Js.trim text;
                   result_model := model svc;
                   prompt := prompt_text;
                   processingTime := time |}.
Proof.
  split.
  - intros H.
    assert (preflight_ok svc probe1 probe2) as Hpre.
    { apply try_catch_fulfilled in H. unfold preflight_ok.
      destruct (isAvailable probe1) as [[|]|e1]; cbn [bind negb] in H;
        try discriminate H.
      destruct (isModelAvailable svc probe2) as [[|]|e2];
        cbn [bind negb] in H; try discriminate H. auto. }
    split; [exact Hpre|].
    destruct post as [r|e].
    2: { rewrite (classifyImage_transport JSON_stringify String_of
                    ToNumber_other svc development prompt_text probe1 probe2
                    e startTime endTime Hpre) in H.
         discriminate H. }
    assert (debug_quiet development r
            /\ Js.truthy (data r) = true /\ status r = 200
            /\ Js.hasOwnProperty (data r) "response" = Fulfilled true
            /\ exists answer,
                 Js.get (data r) "response" = Fulfilled answer
                 /\ answer <> JNull /\ answer <> JUndefined)
      as [Hquiet [Ht [Hs [Hhas [answer [Hanswer [Hnull Hundef]]]]]]].
    { apply try_catch_fulfilled in H. destruct Hpre as [H1 H2].
      rewrite H1, H2 in H. cbn [bind negb] in H. unfold debug_quiet.
      destruct (logResponseDebug development r) as [[]|e3];
        cbn [bind] in H; [|discriminate H].
      destruct (Js.truthy (data r)); cbn [negb] in H; [|discriminate H].
      destruct (status r =? 200) eqn:Hs; cbn [negb] in H;
        [|discriminate H].
      apply Z.eqb_eq in Hs.
      destruct (Js.hasOwnProperty (data r) "response") as [[|]|e4];
        cbn [bind negb] in H; try discriminate H.
      destruct (Js.get (data r) "response") as [answer|e5];
        cbn [bind] in H; [|discriminate H].
      repeat apply conj; auto. exists answer.
      destruct answer; try discriminate H;
        (repeat apply conj; [reflexivity|discriminate|discriminate]). }
    rewrite (classifyImage_after_validation _ _ _ _ _ _ _ _ _ Hpre Hquiet Ht
               Hs Hhas Hanswer Hnull Hundef) in H.
    apply try_catch_fulfilled in H.
    destruct (String_of answer) as [text|e6] eqn:Htext; cbn [bind] in H;
      [|discriminate H].
    destruct (reported_time ToNumber_other r (endTime - startTime))
      as [time|e7] eqn:Htime; cbn [bind] in H; [|discriminate H].
    injection H as <-.
    exists r, answer, text, time. repeat apply conj; auto.
    intros [Hb|[Hb|[Hb|[Hb|Hb]]]]; congruence.
  - intros [Hpre [r [answer [text [time
              [-> [Hquiet [Hwell [Hhas [Hanswer [Htext [Htime ->]]]]]]]]]]]].
    assert (Js.truthy (data r) = true) as Ht.
    { destruct (Js.truthy (data r)) eqn:E; [reflexivity|].
      exfalso. apply Hwell. now left. }
    assert (status r = 200) as Hs.
    { destruct (Z.eq_dec (status r) 200) as [E|E]; [exact E|].
      exfalso. apply Hwell. right. now left. }
    assert (answer <> JNull) as Hnull.
    { intros ->. apply Hwell. do 3 right. now left. }
    assert (answer <> JUndefined) as Hundef.
    { intros ->. apply Hwell. now do 4 right. }
    rewrite (classifyImage_after_validation _ _ _ _ _ _ _ _ _ Hpre Hquiet Ht
               Hs Hhas Hanswer Hnull Hundef).
    rewrite Htext, Htime. reflexivity.
Qed.

End MoreServiceFacts.


(** ** Properties of the HTTP layer *)

Section ControllerFacts.
Import Ollama ServiceSpec.
Context {engine : Js.Engine}.

Variable JSON_stringify : JsVal -> string.

Lemma catch_of_plain stack text :
  Express.classifyImage_catch (Express.of_JsError stack (new_Error text))
  = if Js.includes text "Ollama service" then
      Express.Respond 503 (Express.service_unavailable text)
    else if Js.includes text "timeout" then
      Express.Respond 408 Express.request_timeout
    else Express.Next (Express.of_JsError stack (new_Error text)).
Proof. reflexivity. Qed.

(** X11.  How the handler of [classifyImage] answers the rejections of the
    service.  Every error made by [handleNetworkError] is answered with
    503 and the error's own message, unless it is the endpoint-not-found
    message (which the handler passes on) or the message of the 400
    branch (whose answer depends on the data printed in it).  A timed-out
    request (code ETIMEDOUT or TIMEOUT) is therefore answered with 503,
    not with 408. *)
Theorem service_rejections_are_answered_503 stack thrown :
  let e := handleNetworkError JSON_stringify thrown in
  (message e <> endpoint_message ->
   (forall text, message e <> ("Ollama API error: " ++ text)%string) ->
   Express.classifyImage_catch (Express.of_JsError stack e)
   = Express.Respond 503 (Express.service_unavailable (message e)))
  /\ (message e = endpoint_message ->
      Express.classifyImage_catch (Express.of_JsError stack e)
      = Express.Next (Express.of_JsError stack e))
  /\ (code_is thrown "ETIMEDOUT" || code_is thrown "TIMEOUT" = true ->
      Express.classifyImage_catch (Express.of_JsError stack e)
      = Express.Respond 503 (Express.service_unavailable timed_out_message)).
Proof.
  cbv zeta.
  destruct (handleNetworkError_shape JSON_stringify thrown) as [text [Heq _]].
  repeat apply conj.
  - intros Hend H400.
    destruct (recognized thrown) eqn:R.
    + destruct (handleNetworkError_recognized JSON_stringify thrown R)
        as [Hin _].
      rewrite Heq in *. cbn [message new_Error] in *.
      rewrite catch_of_plain.
      unfold condition_messages in Hin. simpl in Hin.
      destruct Hin as [<-|[<-|[<-|[<-|[<-|[<-|[]]]]]]];
        try reflexivity. contradiction.
    + rewrite (handleNetworkError_unrecognized JSON_stringify thrown R) in *.
      destruct (status_is thrown (fun s => s =? 400)).
      * exfalso. eapply H400. reflexivity.
      * reflexivity.
  - intros Hend. rewrite Heq in *. cbn [message new_Error] in Hend.
    subst text. reflexivity.
  - intros Hcode. unfold handleNetworkError. rewrite Hcode. reflexivity.
Qed.

(** X12.  A request the queue turns away is answered with 500.  The error
    of a queue-full or queue-timeout rejection, once it reaches the
    [catch] of the handler, matches neither of its two tests; it passes
    through the error handler of the router and is answered by
    [errorHandler] with status 500 and the message of the queue as the
    error text. *)
Theorem queue_rejections_are_answered_500 development stack e p error :
  e = RejectFull p \/ e = RejectTimeout p ->
  settlement e = Some (p, Rejected error) ->
  Express.classifyImage_catch (Express.of_JsError stack error)
  = Express.Next (Express.of_JsError stack error)
  /\ Express.classify_error_route development
       (Express.of_JsError stack error)
     = Fulfilled
         (500,
          {| Express.error := message error;
             Express.detail := None;
             Express.suggestion := None;
             Express.debug :=
               Express.in_development development stack
                 (Express.ErrorCopy (Express.of_JsError stack error)) |}).
Proof.
  intros [ -> | -> ] H; cbn in H; injection H as <-; split; reflexivity.
Qed.

End ControllerFacts.

Section UploadFacts.
Import ServiceSpec.

Variable Buffer : Type.
Variable toString_base64 : Buffer -> string.

Lemma append_empty (text : string) : (text ++ EmptyString)%string = text.
Proof.
  induction text as [|c text IH]; simpl; [reflexivity|now rewrite IH].
Qed.

Lemma split_without sep text :
  occurs sep text = false -> Express.split sep text = [text].
Proof.
  induction text as [|c text IH]; simpl; [reflexivity|].
  destruct (Ascii.eqb c sep); simpl; [discriminate|].
  intros H. now rewrite (IH H).
Qed.

Lemma split_at sep before after :
  occurs sep before = false ->
  Express.split sep (before ++ String sep after)%string
  = before :: Express.split sep after.
Proof.
  induction before as [|c before IH]; simpl.
  - intros _. now rewrite Ascii.eqb_refl.
  - destruct (Ascii.eqb c sep); simpl; [discriminate|].
    intros H. now rewrite (IH H).
Qed.

Lemma split_nonempty sep text : Express.split sep text <> [].
Proof.
  destruct text as [|c text]; simpl; [discriminate|].
  destruct (Ascii.eqb c sep); [discriminate|].
  destruct (Express.split sep text); discriminate.
Qed.

Lemma split_second_absent sep text :
  nth_error (Express.split sep text) 1 = None <-> occurs sep text = false.
Proof.
  split.
  - induction text as [|c text IH]; simpl; [reflexivity|].
    destruct (Ascii.eqb c sep); simpl.
    + pose proof (split_nonempty sep text).
      destruct (Express.split sep text); [contradiction|discriminate].
    + pose proof (split_nonempty sep text).
      destruct (Express.split sep text) as [|piece pieces];
        [contradiction|]. simpl. exact IH.
  - intros H. now rewrite (split_without _ _ H).
Qed.

Lemma second_piece sep before payload tail :
  occurs sep before = false ->
  occurs sep payload = false ->
  tail = EmptyString \/ (exists rest, tail = String sep rest) ->
  nth_error (Express.split sep (before ++ String sep (payload ++ tail))%string)
    1 = Some payload.
Proof.
  intros Hb Hp Htail. rewrite (split_at _ _ _ Hb). cbn [nth_error].
  destruct Htail as [->|[rest ->]].
  - now rewrite append_empty, (split_without _ _ Hp).
  - now rewrite (split_at _ _ _ Hp).
Qed.

Lemma read_image_data_url text :
  Js.prefix "data:image/" text = true ->
  Express.read_image Buffer toString_base64 None (Some text)
  = match nth_error (Express.split Express.comma text) 1 with
    | Some imageBase64 => Express.validate_base64 imageBase64
    | None => Express.InputThrows
    end.
Proof.
  intros H. destruct text as [|c text]; [discriminate H|].
  unfold Express.read_image. now rewrite H.
Qed.

Lemma validate_nonempty imageBase64 :
  imageBase64 <> EmptyString ->
  Express.validate_base64 imageBase64 = Express.Accepted imageBase64.
Proof.
  intros Hb. unfold Express.validate_base64.
  destruct (String.eqb imageBase64 EmptyString) eqn:E; [|reflexivity].
  apply String.eqb_eq in E. contradiction.
Qed.

(** X13.  A data URL round trip: from an image given as
    ["data:image/<type>,<payload>"], with no comma in the type part, the
    handler takes the payload up to the next comma, and accepts it when
    it is not empty; an image without the ["data:image/"] prefix is taken
    as it is. *)
Theorem data_url_payload_is_extracted mime payload tail :
  occurs Express.comma mime = false ->
  occurs Express.comma payload = false ->
  tail = EmptyString \/ (exists rest, tail = String Express.comma rest) ->
  Express.read_image Buffer toString_base64 None
    (Some ("data:image/" ++ mime ++ String Express.comma payload ++ tail)%string)
  = Express.validate_base64 payload
  /\ (payload <> EmptyString ->
      Express.read_image Buffer toString_base64 None
        (Some ("data:image/" ++ mime ++ String Express.comma payload
               ++ tail)%string)
      = Express.Accepted payload)
  /\ (Js.prefix "data:image/" payload = false ->
      payload <> EmptyString ->
      Express.read_image Buffer toString_base64 None (Some payload)
      = Express.Accepted payload).
Proof.
  intros Hmime Hpayload Htail.
  assert (Express.read_image Buffer toString_base64 None
            (Some ("data:image/" ++ mime ++ String Express.comma payload
                   ++ tail)%string)
          = Express.validate_base64 payload) as Hread.
  { rewrite read_image_data_url by reflexivity.
    change ("data:image/" ++ mime ++ String Express.comma payload ++ tail)%string
      with (("data:image/" ++ mime)
            ++ String Express.comma (payload ++ tail))%string.
    rewrite second_piece; auto. }
  repeat apply conj.
  - exact Hread.
  - intros Hne. rewrite Hread. now apply validate_nonempty.
  - intros Hplain Hne. unfold Express.read_image.
    destruct payload as [|c rest]; [contradiction|].
    rewrite Hplain. now apply validate_nonempty.
Qed.

Lemma validate_cases imageBase64 :
  (imageBase64 = EmptyString
   /\ Express.validate_base64 imageBase64
      = Express.BadRequest Express.invalid_image)
  \/ (imageBase64 <> EmptyString
      /\ Express.validate_base64 imageBase64 = Express.Accepted imageBase64).
Proof.
  unfold Express.validate_base64.
  destruct (String.eqb imageBase64 EmptyString) eqn:E.
  - left. apply String.eqb_eq in E. auto.
  - right. apply String.eqb_neq in E. auto.
Qed.

(** X14.  The ways out of the input stage of [classifyImage].  An uploaded
    file takes precedence over an image in the body.  Without a file, a
    missing or empty image is answered 400 'No image provided'.  What is
    accepted is never empty.  The stage throws, instead of answering 400,
    exactly when there is no file and the image starts with
    ["data:image/"] but has no comma. *)
Theorem input_stage_outcomes file image :
  (forall buffer, file = Some buffer ->
     Express.read_image Buffer toString_base64 file image
     = Express.validate_base64 (toString_base64 buffer))
  /\ (Express.read_image Buffer toString_base64 file image
      = Express.BadRequest Express.no_image <->
      file = None /\ (image = None \/ image = Some EmptyString))
  /\ (forall imageBase64,
        Express.read_image Buffer toString_base64 file image
        = Express.Accepted imageBase64 ->
        imageBase64 <> EmptyString)
  /\ (Express.read_image Buffer toString_base64 file image
      = Express.InputThrows <->
      file = None
      /\ exists text,
           image = Some text
           /\ Js.prefix "data:image/" text = true
           /\ occurs Express.comma text = false).
Proof.
  unfold Express.read_image. split; [|split; [|split]].
  - intros buffer ->. reflexivity.
  - split.
    + destruct file as [buffer|]; cbv beta iota.
      * destruct (validate_cases (toString_base64 buffer))
          as [[_ ->]|[_ ->]]; discriminate.
      * destruct image as [[|c text]|]; cbv beta iota; auto.
        destruct (Js.prefix "data:image/" (String c text)).
        -- destruct (nth_error _ 1) as [b|]; [|discriminate].
           destruct (validate_cases b) as [[_ ->]|[_ ->]]; discriminate.
        -- destruct (validate_cases (String c text)) as [[_ ->]|[_ ->]];
             discriminate.
    + intros [-> [ -> | -> ]]; reflexivity.
  - intros imageBase64.
    assert (forall b, Express.validate_base64 b
                      = Express.Accepted imageBase64 ->
                      imageBase64 <> EmptyString) as Hv.
    { intros b H. destruct (validate_cases b) as [[_ E]|[Hb E]];
        rewrite E in H; [discriminate|]. now injection H as <-. }
    destruct file as [buffer|]; cbv beta iota; [apply Hv|].
    destruct image as [[|c text]|]; cbv beta iota; try discriminate.
    destruct (Js.prefix "data:image/" (String c text)); [|apply Hv].
    destruct (nth_error _ 1) as [b|]; [apply Hv|discriminate].
  - split.
    + destruct file as [buffer|]; cbv beta iota.
      * destruct (validate_cases (toString_base64 buffer))
          as [[_ ->]|[_ ->]]; discriminate.
      * destruct image as [[|c text]|]; cbv beta iota; try discriminate.
        destruct (Js.prefix "data:image/" (String c text)) eqn:Hp.
        -- destruct (nth_error _ 1) as [b|] eqn:Hn.
           ++ destruct (validate_cases b) as [[_ ->]|[_ ->]]; discriminate.
           ++ intros _. split; [reflexivity|]. exists (String c text).
              apply split_second_absent in Hn. auto.
        -- destruct (validate_cases (String c text)) as [[_ ->]|[_ ->]];
             discriminate.
    + intros [-> [text [-> [Hp Hc]]]].
      fold (Express.read_image Buffer toString_base64 None (Some text)).
      rewrite (read_image_data_url _ Hp).
      apply split_second_absent in Hc. now rewrite Hc.
Qed.

End UploadFacts.


Section ErrorHandlerFacts.
Context {engine : Js.Engine}.

(** The answer of [errorHandler] with a text and a code an [if] has put
    in place. *)
Lemma status_or_nonzero v w : w <> 0 -> Express.status_or v w <> 0.
Proof.
  intros Hw. unfold Express.status_or. destruct v as [n|]; [|exact Hw].
  destruct (n =? 0) eqn:E; [exact Hw|]. now apply Z.eqb_neq.
Qed.

(** X15.  [errorHandler] answers every error it does not throw on with a
    status that is not 0 and an error text that is not empty, adds stack
    and details in development only, and throws exactly when the error is
    named ['ValidationError'] and has no [errors]. *)
Theorem errorHandler_always_answers development err :
  (forall thrown,
     Express.errorHandler development err = Rejected thrown <->
     Express.err_name err = "ValidationError"
     /\ Express.err_errors err = None
     /\ thrown = Js.TypeError (Js.ToObject JUndefined))
  /\ (forall statusCode body,
        Express.errorHandler development err = Fulfilled (statusCode, body) ->
        statusCode <> 0
        /\ Express.error body <> EmptyString
        /\ Express.detail body = None
        /\ (development = false -> Express.debug body = None)
        /\ (development = true -> Express.debug body <> None)).
Proof.
  unfold Express.errorHandler. cbv zeta.
  destruct (String.eqb (Express.err_name err) "ValidationError") eqn:Hname.
  - apply String.eqb_eq in Hname.
    destruct (Express.err_errors err) as [messages|]; cbn [bind].
    + split.
      * intros thrown. split; [discriminate|]. intros [_ [H _]].
        discriminate H.
      * intros statusCode body H. injection H as <- <-.
        cbn [Express.error Express.detail Express.debug].
        repeat apply conj; auto.
        -- unfold Express.replace_when.
           repeat match goal with
           | |- context [if ?b then _ else _] => destruct b
           end; cbn -[Express.status_or]; try discriminate;
             repeat apply status_or_nonzero; discriminate.
        -- destruct (String.eqb _ EmptyString) eqn:E; [discriminate|].
           now apply String.eqb_neq in E.
        -- now intros ->.
        -- intros ->. discriminate.
    + split.
      * intros thrown. split.
        -- intros H. injection H as <-. auto.
        -- intros [_ [_ ->]]. reflexivity.
      * discriminate.
  - cbn [bind]. split.
    + intros thrown. split; [discriminate|].
      intros [H _]. apply String.eqb_neq in Hname. contradiction.
    + intros statusCode body H. injection H as <- <-.
      cbn [Express.error Express.detail Express.debug].
      repeat apply conj; auto.
      * unfold Express.replace_when.
        repeat match goal with
        | |- context [if ?b then _ else _] => destruct b
        end; cbn -[Express.status_or];
          try discriminate; repeat apply status_or_nonzero; discriminate.
      * destruct (String.eqb _ EmptyString) eqn:E; [discriminate|].
        now apply String.eqb_neq in E.
      * now intros ->.
      * intros ->. discriminate.
Qed.

Lemma status_or_twice v w :
  Express.status_or v (Express.status_or v w) = Express.status_or v w.
Proof.
  unfold Express.status_or. destruct v as [n|]; [|reflexivity].
  now destruct (n =? 0).
Qed.

(** X16.  The rules of [errorHandler] are plain [if]s, so the last one
    that applies decides.  In order of precedence: the upload codes
    (LIMIT_UNEXPECTED_FILE, then LIMIT_FILE_SIZE), the token errors, the
    validation error with its joined messages, the duplicate key code
    11000, the cast error; an error none of them applies to is answered
    with its own status code, 500 when that is absent or 0, and its own
    message, ['Internal server error'] when that is empty. *)
Theorem errorHandler_rules_in_order development err :
  let name_is text := String.eqb (Express.err_name err) text in
  let code_is text := Express.code_is_text (Express.err_code err) text in
  let put text statusCode :=
    Fulfilled
      (statusCode,
       {| Express.error :=
            if String.eqb text EmptyString then "Internal server error"
            else text;
          Express.detail := None;
          Express.suggestion := None;
          Express.debug :=
            Express.in_development development (Express.err_stack err)
              (Express.Override text statusCode) |}) in
  Express.errorHandler development err
  = match Express.err_errors err with
    | None =>
        if name_is "ValidationError" then
          Rejected (Js.TypeError (Js.ToObject JUndefined))
        else if code_is "LIMIT_UNEXPECTED_FILE" then
          put "Unexpected file field" 400
        else if code_is "LIMIT_FILE_SIZE" then put "File size too large" 413
        else if name_is "TokenExpiredError" then put "Token expired" 401
        else if name_is "JsonWebTokenError" then put "Invalid token" 401
        else if match Express.err_code err with
                | JNum n => n =? 11000
                | _ => false
                end then put "Duplicate field value entered" 400
        else if name_is "CastError" then put "Invalid resource ID format" 400
        else
          Fulfilled
            (Express.status_or (Express.err_statusCode err) 500,
             {| Express.error :=
                  if String.eqb (Express.err_message err) EmptyString
                  then "Internal server error" else Express.err_message err;
                Express.detail := None;
                Express.suggestion := None;
                Express.debug :=
                  Express.in_development development (Express.err_stack err)
                    (Express.ErrorCopy err) |})
    | Some messages =>
        if code_is "LIMIT_UNEXPECTED_FILE" then
          put "Unexpected file field" 400
        else if code_is "LIMIT_FILE_SIZE" then put "File size too large" 413
        else if name_is "TokenExpiredError" then put "Token expired" 401
        else if name_is "JsonWebTokenError" then put "Invalid token" 401
        else if name_is "ValidationError" then
          put (String.concat ", " messages) 400
        else if match Express.err_code err with
                | JNum n => n =? 11000
                | _ => false
                end then put "Duplicate field value entered" 400
        else if name_is "CastError" then put "Invalid resource ID format" 400
        else
          Fulfilled
            (Express.status_or (Express.err_statusCode err) 500,
             {| Express.error :=
                  if String.eqb (Express.err_message err) EmptyString
                  then "Internal server error" else Express.err_message err;
                Express.detail := None;
                Express.suggestion := None;
                Express.debug :=
                  Express.in_development development (Express.err_stack err)
                    (Express.ErrorCopy err) |})
    end.
Proof.
  cbv zeta. unfold Express.errorHandler, Express.replace_when. cbv zeta.
  destruct (Express.err_errors err) as [messages|];
    destruct (String.eqb (Express.err_name err) "ValidationError");
    cbn [bind]; try reflexivity;
    destruct (Express.code_is_text (Express.err_code err)
                "LIMIT_UNEXPECTED_FILE");
    try reflexivity;
    destruct (Express.code_is_text (Express.err_code err) "LIMIT_FILE_SIZE");
    try reflexivity;
    destruct (String.eqb (Express.err_name err) "TokenExpiredError");
    try reflexivity;
    destruct (String.eqb (Express.err_name err) "JsonWebTokenError");
    try reflexivity;
    destruct (match Express.err_code err with
              | JNum n => n =? 11000
              | _ => false
              end);
    try reflexivity;
    destruct (String.eqb (Express.err_name err) "CastError");
    try reflexivity;
    now rewrite status_or_twice.
Qed.

End ErrorHandlerFacts.

Section AuthFacts.

Lemma bearer_cases authorization :
  (exists rest, authorization = Some ("Bearer " ++ rest)%string)
  \/ (forall verify,
        exists body,
          Express.authMiddleware authorization verify
          = Express.Respond 401 body)
     /\ forall rest, authorization <> Some ("Bearer " ++ rest)%string.
Proof.
  destruct authorization as [[|c header]|].
  - right. split; [intros; eexists; reflexivity|]. intros rest H.
    discriminate H.
  - destruct (Js.prefix "Bearer " (String c header)) eqn:Hp.
    + left. apply prefix_spec in Hp as [rest ->]. eauto.
    + right. split.
      * intros verify. unfold Express.authMiddleware. rewrite Hp.
        eexists. reflexivity.
      * intros rest H.
        assert (String c header = ("Bearer " ++ rest)%string) as H'
          by congruence.
        assert (Js.prefix "Bearer " (String c header) = true) as Hp'
          by (apply prefix_spec; exists rest; exact H').
        congruence.
  - right. split; [intros; eexists; reflexivity|]. intros rest H.
    discriminate H.
Qed.

Lemma bearer_injective a b :
  Some ("Bearer " ++ a)%string = Some ("Bearer " ++ b)%string -> a = b.
Proof.
  intros H. injection H as H. exact H.
Qed.

Lemma authMiddleware_bearer rest verify :
  Express.authMiddleware (Some ("Bearer " ++ rest)%string) verify
  = if String.eqb (Express.trim rest) EmptyString then
      Express.Respond 401
        (Express.unauthorized "Token not provided"
           "Please provide a valid Bearer token")
    else
      match verify (Express.trim rest) with
      | Express.Decoded JUndefined | Express.Decoded JNull =>
          Express.Respond 500
            (Express.unauthorized "Authentication error"
               "An error occurred during authentication")
      | Express.Decoded payload => Express.Next payload
      | Express.Refused name =>
          if String.eqb name "TokenExpiredError" then
            Express.Respond 401
              (Express.unauthorized "Token expired"
                 "Please login again to get a new token")
          else if String.eqb name "JsonWebTokenError" then
            Express.Respond 401
              (Express.unauthorized "Invalid token"
                 "Please provide a valid token")
          else
            Express.Respond 500
              (Express.unauthorized "Authentication error"
                 "An error occurred during authentication")
      end.
Proof. reflexivity. Qed.

(** X17.  [authMiddleware] lets a request through only with a verified
    token: [next] is reached exactly when the header is ['Bearer ']
    followed by a text that is not blank and [jwt.verify] returns a
    payload for that text, trimmed; the payload becomes [req.user].  Every
    other request is answered 401, or 500 when the verification fails
    with another error than the two token errors; [jwt.verify] is never
    asked about a blank token. *)
Theorem authMiddleware_passes_verified_tokens_only authorization verify :
  (forall payload,
     Express.authMiddleware authorization verify = Express.Next payload <->
     exists rest,
       authorization = Some ("Bearer " ++ rest)%string
       /\ Express.trim rest <> EmptyString
       /\ verify (Express.trim rest) = Express.Decoded payload
       /\ payload <> JUndefined /\ payload <> JNull)
  /\ (forall statusCode body,
        Express.authMiddleware authorization verify
        = Express.Respond statusCode body ->
        statusCode = 401
        \/ (statusCode = 500
            /\ exists rest,
                 authorization = Some ("Bearer " ++ rest)%string
                 /\ Express.trim rest <> EmptyString
                 /\ forall name,
                      verify (Express.trim rest) = Express.Refused name ->
                      name <> "TokenExpiredError"
                      /\ name <> "JsonWebTokenError")).
Proof.
  destruct (bearer_cases authorization) as [[rest ->]|[H401 Hother]].
  2: { split.
       - intros payload. split.
         + intros H. destruct (H401 verify) as [body Hb]. congruence.
         + intros [rest [H _]]. now apply Hother in H.
       - intros statusCode body H. destruct (H401 verify) as [body' Hb].
         left. congruence. }
  rewrite authMiddleware_bearer.
  destruct (String.eqb (Express.trim rest) EmptyString) eqn:Hblank;
    [apply String.eqb_eq in Hblank | apply String.eqb_neq in Hblank].
  - split.
    + intros payload. split; [discriminate|].
      intros [rest' [H [Hne _]]]. apply bearer_injective in H. subst rest'.
      contradiction.
    + intros statusCode body H. injection H as <- _. now left.
  - split.
    + intros payload. split.
      * intros H. exists rest.
        destruct (verify (Express.trim rest)) as [p|name].
        -- destruct p; try discriminate H; injection H as <-;
             repeat apply conj; auto; discriminate.
        -- repeat match type of H with
           | context [if ?b then _ else _] => destruct b
           end; discriminate H.
      * intros [rest' [H [Hne [Hv [Hu Hn]]]]].
        apply bearer_injective in H. subst rest'. rewrite Hv.
        destruct payload; try reflexivity; contradiction.
    + intros statusCode body H.
      destruct (verify (Express.trim rest)) as [p|name] eqn:Hv.
      * destruct p; try discriminate H; injection H as <- _; right;
          (split; [reflexivity|]); exists rest;
          (repeat apply conj; auto); intros name Hd; rewrite Hv in Hd;
          discriminate Hd.
      * destruct (String.eqb name "TokenExpiredError") eqn:E1;
          [injection H as <- _; now left|].
        destruct (String.eqb name "JsonWebTokenError") eqn:E2;
          [injection H as <- _; now left|].
        injection H as <- _. right. split; [reflexivity|]. exists rest.
        repeat apply conj; auto. intros name' Hd. rewrite Hv in Hd.
        injection Hd as <-.
        apply String.eqb_neq in E1, E2. auto.
Qed.

End AuthFacts.

Section RouteFacts.
Import HttpSpec.
Local Open Scope list_scope.

Lemma search_route_matches request path :
  Express.route_matches request path search_route = true ->
  Express.handles Express.GET request = true
  /\ exists piece,
       Express.segments path = Some [piece]
       /\ Express.lowercase piece = "search".
Proof.
  unfold Express.route_matches. cbn [Express.route_method Express.route_path
    search_route].
  intros H. apply andb_true_iff in H. destruct H as [Hm Hp].
  split; [exact Hm|].
  destruct (Express.segments path) as [pieces|]; [|discriminate].
  destruct pieces as [|piece [|other pieces]]; try discriminate.
  - exists piece. split; [reflexivity|].
    cbn [Express.path_matches Express.segment_matches] in Hp.
    rewrite andb_true_r in Hp. apply String.eqb_eq in Hp.
    now symmetry.
  - cbn [Express.path_matches] in Hp. rewrite andb_false_r in Hp.
    discriminate.
Qed.

Lemma search_goes_to_id_route request path :
  Express.route_matches request path search_route = true ->
  Express.dispatch request path = Some id_route.
Proof.
  intros H. apply search_route_matches in H.
  destruct H as [Hm [piece [Hs Hl]]].
  assert (Hne : String.eqb piece EmptyString = false).
  { destruct piece; [discriminate Hl|reflexivity]. }
  unfold Express.dispatch, Express.routes, Express.route_matches.
  cbn [find Express.route_method Express.route_path].
  rewrite Hs. cbn [Express.path_matches Express.segment_matches].
  rewrite Hl, Hne, Hm.
  destruct request; try discriminate Hm; reflexivity.
Qed.

(** X18.  A request never reaches [searchClassifications]: whatever the
    method and the path, the first route that matches is another one.  A
    request the route [GET /search] would take is taken by [GET /:id],
    registered before it, and handled by [getClassification]. *)
Theorem search_route_is_never_dispatched request path :
  (forall r,
     Express.dispatch request path = Some r ->
     Express.route_handler r <> Express.searchClassifications)
  /\ (Express.route_matches request path search_route = true ->
      exists r,
        Express.dispatch request path = Some r
        /\ Express.route_path r = [Express.Param "id"]
        /\ Express.route_handler r = Express.getClassification).
Proof.
  split.
  - intros r H. pose proof H as Hfind.
    unfold Express.dispatch in Hfind. apply find_some in Hfind.
    destruct Hfind as [Hin Hmatch].
    unfold Express.routes in Hin. cbn [In] in Hin.
    repeat (destruct Hin as [<-|Hin]; [discriminate|]).
    destruct Hin as [<-|[]].
    apply search_goes_to_id_route in Hmatch. rewrite Hmatch in H.
    discriminate H.
  - intros H. exists id_route. split; [|split; reflexivity].
    now apply search_goes_to_id_route.
Qed.

Lemma search_route_is_never_dispatched_witness :
  Express.route_matches Express.GET "/Search/" search_route = true
  /\ exists r,
       Express.dispatch Express.GET "/Search/" = Some r
       /\ Express.route_path r = [Express.Param "id"]
       /\ Express.route_handler r = Express.getClassification.
Proof.
  split; [reflexivity|].
  apply (search_route_is_never_dispatched Express.GET "/Search/").
  reflexivity.
Defined.

End RouteFacts.

Section FilterFacts.
Local Open Scope list_scope.

(** X19.  [fileFilter] accepts a file exactly when its MIME type is one of
    the five allowed ones.  The error of a refused file is answered by the
    error handler of the router with status 400 and the error
    ['Invalid file type'], in every environment; it never reaches
    [errorHandler]. *)
Theorem refused_uploads_are_answered_400 development stack mimetype :
  (Express.fileFilter stack mimetype = None <->
   In mimetype Express.allowedMimes)
  /\ (forall e,
        Express.fileFilter stack mimetype = Some e ->
        ~ In mimetype Express.allowedMimes
        /\ exists body,
             Express.routes_error_handler development e
             = Express.Respond 400 body
             /\ Express.error body = "Invalid file type"
             /\ Express.detail body = Some Express.invalid_file_type).
Proof.
  assert (Hin : existsb (String.eqb mimetype) Express.allowedMimes = true
                <-> In mimetype Express.allowedMimes).
  { rewrite existsb_exists. split.
    - intros [x [Hx Heq]]. apply String.eqb_eq in Heq. now subst.
    - intros H. exists mimetype. split; [exact H|apply String.eqb_refl]. }
  unfold Express.fileFilter.
  destruct (existsb (String.eqb mimetype) Express.allowedMimes) eqn:E.
  - split.
    + split; [intros _; now apply Hin|reflexivity].
    + discriminate.
  - split.
    + split; [discriminate|]. intros H. apply Hin in H. discriminate H.
    + intros e H. injection H as <-. split.
      * intros H. apply Hin in H. discriminate H.
      * eexists. split; [reflexivity|]. split; reflexivity.
Qed.

Lemma refused_uploads_are_answered_400_witness :
  Express.fileFilter "Error: at fileFilter" "image/svg+xml"
  = Some (Express.of_JsError "Error: at fileFilter"
            (new_Error Express.invalid_file_type))
  /\ exists body,
       Express.routes_error_handler false
         (Express.of_JsError "Error: at fileFilter"
            (new_Error Express.invalid_file_type))
       = Express.Respond 400 body
       /\ Express.error body = "Invalid file type"
       /\ Express.detail body = Some Express.invalid_file_type.
Proof.
  split; [reflexivity|].
  apply (refused_uploads_are_answered_400 false "Error: at fileFilter"
           "image/svg+xml").
  reflexivity.
Defined.

End FilterFacts.

Section StatusPageFacts.
Import Ollama.
Context {engine : Js.Engine}.

Variable Template : JsVal -> Settled string.

Lemma getStatus_flags svc probe1 probe2 :
  exists a b st,
    isAvailable probe1 = Fulfilled a
    /\ isModelAvailable svc probe2 = Fulfilled b
    /\ getStatus svc probe1 probe2 = Fulfilled st
    /\ StatusReport.available (StatusReport.service st) = a
    /\ StatusReport.model_available (StatusReport.model st) = b.
Proof.
  unfold getStatus. rewrite isAvailable_answer.
  destruct (isModelAvailable_answers svc probe2) as [b ->].
  cbn [bind try_catch]. do 3 eexists.
  repeat apply conj; reflexivity.
Qed.

Lemma getStatus_page_after_status svc probe1 probe2 stats modelStats st :
  getStatus svc probe1 probe2 = Fulfilled st ->
  Express.getStatus_page Template svc probe1 probe2 stats modelStats
  = (stats' <- stats ;;
     modelStats' <- modelStats ;;
     total <- Js.get stats' "total_classifications" ;;
     rate <- Js.get stats' "success_rate" ;;
     rate_text <- Template rate ;;
     avg <- Js.get stats' "avg_processing_time" ;;
     avg_text <- Template avg ;;
     last <- Js.get stats' "last_24h" ;;
     Fulfilled
       {| Express.page_status :=
            if StatusReport.available (StatusReport.service st)
               && StatusReport.model_available (StatusReport.model st)
            then "healthy" else "degraded";
          Express.page_ollama := st;
          Express.total_classifications := total;
          Express.success_rate := (rate_text ++ "%")%string;
          Express.avg_processing_time := (avg_text ++ "ms")%string;
          Express.last_24h := last;
          Express.page_models := modelStats' |}).
Proof.
  intros H. unfold Express.getStatus_page. rewrite H. reflexivity.
Qed.

Lemma bind_fulfilled {A B : Type} (m : Settled A) (k : A -> Settled B) b :
  bind m k = Fulfilled b -> exists a, m = Fulfilled a /\ k a = Fulfilled b.
Proof.
  destruct m as [a|e]; [|discriminate]. intros H. now exists a.
Qed.

(** X20.  The status page of the controller: when it is sent, it is
    labelled ['healthy'] exactly when both probes of the service answer
    [true], and ['degraded'] otherwise, and it carries the status object
    of the service.  Whether it is sent does not depend on Ollama: if the
    page is sent for one pair of probe outcomes, it is sent for every
    other pair, with the same statistics. *)
Theorem status_page_is_healthy_iff_both_probes svc probe1 probe2
    stats modelStats page :
  Express.getStatus_page Template svc probe1 probe2 stats modelStats
  = Fulfilled page ->
  (Express.page_status page = "healthy" <->
   isAvailable probe1 = Fulfilled true
   /\ isModelAvailable svc probe2 = Fulfilled true)
  /\ (Express.page_status page <> "healthy" ->
      Express.page_status page = "degraded")
  /\ getStatus svc probe1 probe2 = Fulfilled (Express.page_ollama page)
  /\ (forall other1 other2,
        exists page',
          Express.getStatus_page Template svc other1 other2 stats modelStats
          = Fulfilled page'
          /\ Express.total_classifications page'
             = Express.total_classifications page
          /\ Express.success_rate page' = Express.success_rate page
          /\ Express.avg_processing_time page'
             = Express.avg_processing_time page
          /\ Express.last_24h page' = Express.last_24h page
          /\ Express.page_models page' = Express.page_models page).
Proof.
  intros H.
  destruct (getStatus_flags svc probe1 probe2)
    as [a [b [st [Ha [Hb [Hst [Hsa Hsb]]]]]]].
  rewrite (getStatus_page_after_status _ _ _ _ _ _ Hst) in H.
  apply bind_fulfilled in H. destruct H as [stats' [Hstats H]].
  apply bind_fulfilled in H. destruct H as [modelStats' [Hmodel H]].
  apply bind_fulfilled in H. destruct H as [total [Htotal H]].
  apply bind_fulfilled in H. destruct H as [rate [Hrate H]].
  apply bind_fulfilled in H. destruct H as [rate_text [Hrt H]].
  apply bind_fulfilled in H. destruct H as [avg [Havg H]].
  apply bind_fulfilled in H. destruct H as [avg_text [Hat H]].
  apply bind_fulfilled in H. destruct H as [last [Hlast H]].
  injection H as <-.
  cbn [Express.page_status Express.page_ollama Express.total_classifications
       Express.success_rate Express.avg_processing_time Express.last_24h
       Express.page_models].
  rewrite Hsa, Hsb, Ha, Hb.
  split; [|split; [|split]].
  - destruct a, b; cbn [andb]; split; try discriminate;
      try (intros [Hx Hy]; discriminate); auto.
  - destruct a, b; cbn [andb]; intros Hn; try reflexivity;
      now contradiction Hn.
  - exact Hst.
  - intros other1 other2.
    destruct (getStatus_flags svc other1 other2)
      as [a' [b' [st' [_ [_ [Hst' _]]]]]].
    rewrite (getStatus_page_after_status _ _ _ _ _ _ Hst').
    rewrite Hstats, Hmodel. cbn [bind]. rewrite Htotal. cbn [bind].
    rewrite Hrate. cbn [bind]. rewrite Hrt. cbn [bind].
    rewrite Havg. cbn [bind]. rewrite Hat. cbn [bind].
    rewrite Hlast. cbn [bind].
    eexists. split; [reflexivity|].
    repeat apply conj; reflexivity.
Qed.

End StatusPageFacts.

(** ** Properties of the configuration *)

Section ConfigFacts.
Import Ollama QueueSpec QueueRuns.
Local Open Scope list_scope.

Lemma parseInt_or_nonzero parsed dflt :
  dflt <> 0 -> parseInt_or parsed dflt <> 0.
Proof.
  intros Hd. destruct parsed as [n|]; simpl; [|exact Hd].
  destruct (n =? 0) eqn:E; [exact Hd|]. now apply Z.eqb_neq.
Qed.

Lemma env_or_nonempty value dflt :
  dflt <> EmptyString -> env_or value dflt <> EmptyString.
Proof.
  intros Hd. destruct value as [text|]; simpl; [|exact Hd].
  destruct (String.eqb text EmptyString) eqn:E; [exact Hd|].
  now apply String.eqb_neq.
Qed.

(** X21.  The environment cannot switch a bound off or leave a name
    empty: a freshly constructed service has bounds that are not 0, a URL
    and a model name that are not empty, nothing in flight and nothing
    queued.  A bound set to 0 gives the default (3 and 10), like an unset
    or unreadable one; every other number is taken as it is, a negative one
    too. *)
Theorem constructor_never_leaves_a_bound_at_zero url mdl conc size :
  maxConcurrentRequests (constructor url mdl conc size) <> 0
  /\ maxQueueSize (constructor url mdl conc size) <> 0
  /\ baseURL (constructor url mdl conc size) <> EmptyString
  /\ model (constructor url mdl conc size) <> EmptyString
  /\ currentRequests (constructor url mdl conc size) = 0
  /\ requestQueue (constructor url mdl conc size) = []
  /\ (maxConcurrentRequests (constructor url mdl (Some 0) size) = 3
      /\ maxQueueSize (constructor url mdl conc (Some 0)) = 10)
  /\ (forall n, n <> 0 ->
        maxConcurrentRequests (constructor url mdl (Some n) size) = n
        /\ maxQueueSize (constructor url mdl conc (Some n)) = n).
Proof.
  cbn [constructor maxConcurrentRequests maxQueueSize baseURL model
       currentRequests requestQueue].
  split; [apply parseInt_or_nonzero; discriminate|].
  split; [apply parseInt_or_nonzero; discriminate|].
  split; [apply env_or_nonempty; discriminate|].
  split; [apply env_or_nonempty; discriminate|].
  split; [reflexivity|]. split; [reflexivity|]. split; [split; reflexivity|].
  intros n Hn. apply Z.eqb_neq in Hn. unfold parseInt_or. rewrite Hn.
  split; reflexivity.
Qed.

Lemma constructor_never_leaves_a_bound_at_zero_witness :
  maxConcurrentRequests (constructor None None (Some (-1)) None) = -1
  /\ maxQueueSize (constructor None None None (Some (-1))) = -1.
Proof.
  destruct (constructor_never_leaves_a_bound_at_zero None None None None)
    as [_ [_ [_ [_ [_ [_ [_ Htaken]]]]]]].
  apply (Htaken (-1)). discriminate.
Defined.

(** X22.  A negative [OLLAMA_MAX_CONCURRENT] starves the service: in no
    state reachable from its construction is any work invoked or any
    promise settled by work; nothing is in flight, the requests that fit
    the queue wait for good, and the only thing the queue ever does to a
    caller is the queue-full rejection. *)
Theorem negative_concurrency_starves_every_request url mdl n size rt :
  n < 0 ->
  reachable (constructor url mdl (Some n) size) rt ->
  currentRequests (this rt) = 0
  /\ awaiting rt = []
  /\ count is_invoke (effects rt) = 0%nat
  /\ (forall e, In e (effects rt) -> exists p, e = RejectFull p)
  /\ (forall clock, processQueue clock rt = rt).
Proof.
  intros Hn Hreach.
  assert (H : starved n rt).
  { induction Hreach as [|rt rt' _ IH Hstep].
    - constructor; cbn [boot this awaiting effects constructor
        maxConcurrentRequests currentRequests]; auto.
      unfold parseInt_or. destruct (n =? 0) eqn:E; [|reflexivity].
      apply Z.eqb_eq in E. lia.
    - exact (starved_step n rt rt' Hn IH Hstep). }
  destruct H as [Hb Hi Ha He].
  split; [exact Hi|]. split; [exact Ha|]. split; [|split].
  - induction He as [|e l He _ IH]; [reflexivity|].
    rewrite count_cons. destruct e; try discriminate He. exact IH.
  - intros e Hin. rewrite Forall_forall in He. apply He in Hin.
    destruct e; try discriminate Hin. now eexists.
  - intros clock. unfold processQueue.
    destruct (requestQueue (this rt)) as [|nextRequest rest];
      cbn [processQueue_from]; [reflexivity|].
    rewrite Hb, Hi.
    destruct (0 <? n) eqn:E; [apply Z.ltb_lt in E; lia|reflexivity].
Qed.

Lemma negative_concurrency_starves_every_request_witness :
  awaiting starving = []
  /\ count is_invoke (effects starving) = 0%nat
  /\ queue_length (this starving) = 2.
Proof.
  assert (Hreach : reachable (constructor None None (Some (-1)) None)
                     starving).
  { repeat (eapply reach_step; [|apply step_submit]). apply reach_boot. }
  destruct (negative_concurrency_starves_every_request None None (-1) None
              starving ltac:(lia) Hreach)
    as [_ [Hnobody [Hnone _]]].
  split; [exact Hnobody|]. split; [exact Hnone|reflexivity].
Defined.

(** X23.  A negative [OLLAMA_MAX_QUEUE_SIZE] leaves no room to wait: in
    every state reachable from the construction of the service the queue
    is empty, so a request that finds no free slot is rejected with the
    queue-full error at once. *)
Theorem negative_queue_size_never_queues url mdl conc n rt :
  n < 0 ->
  reachable (constructor url mdl conc (Some n)) rt ->
  requestQueue (this rt) = []
  /\ (forall requestFn now,
        maxConcurrentRequests (this rt) <= currentRequests (this rt) ->
        fst (queueRequest requestFn now rt)
        = emit (RejectFull (promises rt))
            {| this := this rt; awaiting := awaiting rt;
               promises := S (promises rt); effects := effects rt |}).
Proof.
  intros Hn Hreach.
  assert (H : maxQueueSize (this rt) = n /\ requestQueue (this rt) = []).
  { induction Hreach as [|rt rt' _ [Hs Hq] Hstep].
    - split; [|reflexivity].
      cbn [boot this constructor maxQueueSize]. unfold parseInt_or.
      destruct (n =? 0) eqn:E; [|reflexivity]. apply Z.eqb_eq in E. lia.
    - destruct Hstep
        as [rt requestFn now|rt queueItem outcome clock Hin|rt clock].
      + unfold queueRequest. cbn [this awaiting promises effects].
        unfold queue_length. rewrite Hs, Hq. cbn [List.length Z.of_nat].
        destruct (currentRequests (this rt) <? maxConcurrentRequests (this rt));
          [cbn [fst executeRequest this set_currentRequests maxQueueSize
                requestQueue]; auto|].
        destruct (0 >=? n) eqn:E; [|rewrite Z.geb_leb in E; apply Z.leb_gt in E; lia].
        cbn [fst emit this]. auto.
      + unfold executeRequest_resume, processQueue.
        cbn [this set_currentRequests requestQueue]. rewrite Hq.
        cbn [processQueue_from this set_currentRequests maxQueueSize
             requestQueue]. auto.
      + unfold processQueue. rewrite Hq. cbn [processQueue_from]. auto. }
  destruct H as [Hs Hq]. split; [exact Hq|].
  intros requestFn now Hbusy. unfold queueRequest.
  cbn [this awaiting promises effects]. unfold queue_length.
  rewrite Hs, Hq. cbn [List.length Z.of_nat].
  destruct (currentRequests (this rt) <? maxConcurrentRequests (this rt))
    eqn:E; [apply Z.ltb_lt in E; lia|].
  destruct (0 >=? n) eqn:E'; [|rewrite Z.geb_leb in E'; apply Z.leb_gt in E'; lia].
  reflexivity.
Qed.

Lemma negative_queue_size_never_queues_witness :
  requestQueue (this no_room) = []
  /\ effects (fst (queueRequest 13 3000 no_room))
     = RejectFull 3 :: effects no_room.
Proof.
  assert (Hreach : reachable (constructor None None None (Some (-1)))
                     no_room).
  { repeat (eapply reach_step; [|apply step_submit]). apply reach_boot. }
  destruct (negative_queue_size_never_queues None None None (-1) no_room
              ltac:(lia) Hreach) as [Hempty Hfull].
  split; [exact Hempty|].
  rewrite (Hfull 13%nat 3000 ltac:(simpl; lia)). reflexivity.
Defined.

End ConfigFacts.

(** ** The properties at work *)

Section MoreScenarios.
Import Ollama QueueSpec ServiceSpec QueueRuns HttpSpec.
#[local] Existing Instance Scenario.Node.
Local Open Scope list_scope.

Lemma burst_fills_slots_then_queue_then_rejects_witness :
  currentRequests (this after_burst) = 3
  /\ queue_length (this after_burst) = 10
  /\ Z.of_nat (count is_full (effects after_burst)) = 2
  /\ Z.of_nat (count is_invoke (effects after_burst)) = 3.
Proof.
  exact (burst_fills_slots_then_queue_then_rejects None None None None burst
           I I).
Defined.

Lemma queue_is_first_in_first_out_witness :
  StronglySorted Nat.lt (waiting Scenario.overflow)
  /\ In 1%nat (waiting Scenario.overflow)
  /\ (0 < 1)%nat.
Proof.
  destruct (queue_is_first_in_first_out None None (Some 1) (Some 2)
              Scenario.overflow (proj2 scenario_reachable))
    as [Hsorted [Hinvoked _]].
  split; [exact Hsorted|]. split; [now left|].
  apply (Hinvoked 0%nat 10%nat 1%nat).
  - right. now left.
  - now left.
Defined.

Lemma submit_then_settle_round_trip_witness :
  this first_alone = this (boot Scenario.service)
  /\ awaiting first_alone = awaiting (boot Scenario.service)
  /\ effects first_alone = [Resolve 0 (JStr "cat"); Invoke 0 10].
Proof.
  destruct (submit_then_settle_round_trip 10%nat 1000 (Fulfilled (JStr "cat"))
              Scenario.at_45000 (boot Scenario.service)
              (proj1 (constructor_boot None None (Some 1) (Some 2)
                        ltac:(simpl; lia) ltac:(simpl; lia)))
              ltac:(simpl; lia) eq_refl)
    as [_ [Hthis [Hawaiting Heffects]]].
  exact (conj Hthis (conj Hawaiting Heffects)).
Defined.

Lemma processQueue_is_idle_between_completions_witness :
  processQueue Scenario.at_45000 Scenario.two_waiting = Scenario.two_waiting.
Proof.
  exact (processQueue_is_idle_between_completions None None (Some 1) (Some 2)
           Scenario.two_waiting Scenario.at_45000
           (proj1 scenario_reachable)).
Defined.

Lemma requests_wait_only_when_all_slots_are_taken_witness :
  requestQueue (this Scenario.two_waiting) <> []
  /\ currentRequests (this Scenario.two_waiting)
     = maxConcurrentRequests (this Scenario.two_waiting).
Proof.
  assert (H : requestQueue (this Scenario.two_waiting) <> [])
    by discriminate.
  split; [exact H|].
  exact (proj1 (requests_wait_only_when_all_slots_are_taken None None
                  (Some 1) (Some 2) Scenario.two_waiting
                  ltac:(simpl; lia) ltac:(simpl; lia)
                  (proj1 scenario_reachable)) H).
Defined.

Lemma model_ready_implies_service_available_witness :
  isModelAvailable (constructor None None None None)
    (Fulfilled Scenario.tags_ok) = Fulfilled true
  /\ isAvailable (Fulfilled Scenario.tags_ok) = Fulfilled true.
Proof.
  split; [reflexivity|].
  exact (model_ready_implies_service_available
           (constructor None None None None) (Fulfilled Scenario.tags_ok)
           eq_refl).
Defined.

Lemma preflight_failure_rejects_before_the_post_witness :
  classifyImage_work Scenario.no_JSON Scenario.String_of_answer
    Scenario.no_number (constructor None None None None) false
    "What is in this image?" down (Fulfilled Scenario.tags_ok)
    (Fulfilled Scenario.timed) 0 5
  = Rejected (new_Error ("Ollama service error: " ++ unavailable_message))
  /\ classifyImage_work Scenario.no_JSON Scenario.String_of_answer
       Scenario.no_number (constructor None None None None) false
       "What is in this image?" (Fulfilled Scenario.tags_ok) no_models
       (Fulfilled Scenario.timed) 0 5
     = Rejected (new_Error ("Ollama service error: "
                            ++ model_unavailable_message "moondream")).
Proof.
  split.
  - exact (proj1 (preflight_failure_rejects_before_the_post Scenario.no_JSON
                    Scenario.String_of_answer Scenario.no_number
                    (constructor None None None None) false
                    "What is in this image?" down
                    (Fulfilled Scenario.tags_ok) (Fulfilled Scenario.timed)
                    0 5) eq_refl).
  - exact (proj2 (preflight_failure_rejects_before_the_post Scenario.no_JSON
                    Scenario.String_of_answer Scenario.no_number
                    (constructor None None None None) false
                    "What is in this image?" (Fulfilled Scenario.tags_ok)
                    no_models (Fulfilled Scenario.timed) 0 5)
             eq_refl eq_refl).
Defined.

Lemma result_exactly_for_a_well_formed_response_witness :
  Scenario.classify (Fulfilled Scenario.timed) 1000 1020
  = Fulfilled
      {| success := true;
         classification := "This is a test image classification result";
         result_model := "moondream";
         prompt := "What is in this image?";
         processingTime := Js.RInt 1500 |}.
Proof.
  apply (proj2 (result_exactly_for_a_well_formed_response Scenario.no_JSON
                  Scenario.String_of_answer Scenario.no_number
                  (constructor None None None None) false
                  "What is in this image?"
                  (Fulfilled Scenario.tags_ok) (Fulfilled Scenario.tags_ok)
                  (Fulfilled Scenario.timed) 1000 1020 _)).
  split; [split; reflexivity|].
  exists Scenario.timed,
    (JStr "This is a test image classification result"),
    "This is a test image classification result", (Js.RInt 1500).
  split; [reflexivity|]. split; [reflexivity|]. split.
  - intros [H|[H|[H|[H|H]]]]; try discriminate H. now apply H.
  - repeat split.
Defined.

Lemma rejections_carry_a_message_only_witness :
  Scenario.classify (Rejected Scenario.hang_up) 0 5
  = Rejected (new_Error "Ollama service error: socket hang up")
  /\ (exists thrown,
        new_Error "Ollama service error: socket hang up"
        = handleNetworkError Scenario.no_JSON thrown)
  /\ message (new_Error "Ollama service error: socket hang up")
     <> EmptyString.
Proof.
  split; [reflexivity|].
  destruct (rejections_carry_a_message_only Scenario.no_JSON
              Scenario.String_of_answer Scenario.no_number
              (constructor None None None None) false
              "What is in this image?"
              (Fulfilled Scenario.tags_ok) (Fulfilled Scenario.tags_ok)
              (Rejected Scenario.hang_up) 0 5
              (new_Error "Ollama service error: socket hang up") eq_refl)
    as [Hthrown [Hmessage _]].
  exact (conj Hthrown Hmessage).
Defined.

Lemma service_rejections_are_answered_503_witness :
  Express.classifyImage_catch
    (Express.of_JsError stack
       (handleNetworkError Scenario.no_JSON Scenario.refused))
  = Express.Respond 503 (Express.service_unavailable connect_refused_message)
  /\ Express.classifyImage_catch
       (Express.of_JsError stack
          (handleNetworkError Scenario.no_JSON connect_timeout))
     = Express.Respond 503 (Express.service_unavailable timed_out_message)
  /\ Express.classifyImage_catch
       (Express.of_JsError stack
          (handleNetworkError Scenario.no_JSON axios_timeout))
     = Express.Respond 503
         (Express.service_unavailable
            "Ollama service error: timeout of 60000ms exceeded").
Proof.
  split; [|split].
  - apply (proj1 (service_rejections_are_answered_503 Scenario.no_JSON stack
                    Scenario.refused)).
    + discriminate.
    + intros text. discriminate.
  - apply (proj2 (proj2 (service_rejections_are_answered_503 Scenario.no_JSON
                           stack connect_timeout))).
    reflexivity.
  - apply (proj1 (service_rejections_are_answered_503 Scenario.no_JSON stack
                    axios_timeout)).
    + discriminate.
    + intros text. discriminate.
Defined.

Lemma queue_rejections_are_answered_500_witness :
  Express.classify_error_route false
    (Express.of_JsError stack (new_Error queue_full_message))
  = Fulfilled
      (500,
       {| Express.error := queue_full_message;
          Express.detail := None;
          Express.suggestion := None;
          Express.debug := None |}).
Proof.
  exact (proj2 (queue_rejections_are_answered_500 false stack (RejectFull 3) 3
                  (new_Error queue_full_message) (or_introl eq_refl)
                  eq_refl)).
Defined.

Lemma data_url_payload_is_extracted_witness :
  Express.read_image string text_of_buffer None
    (Some "data:image/png;base64,iVBORw0KGgo=")
  = Express.Accepted "iVBORw0KGgo=".
Proof.
  destruct (data_url_payload_is_extracted string text_of_buffer "png;base64"
              "iVBORw0KGgo=" EmptyString eq_refl eq_refl
              (or_introl eq_refl))
    as [_ [Haccepted _]].
  apply Haccepted. discriminate.
Defined.

Lemma input_stage_outcomes_witness :
  Express.read_image string text_of_buffer (Some "iVBORw0KGgo=")
    (Some "data:image/png")
  = Express.validate_base64 "iVBORw0KGgo="
  /\ Express.read_image string text_of_buffer None (Some "data:image/png")
     = Express.InputThrows.
Proof.
  split.
  - exact (proj1 (input_stage_outcomes string text_of_buffer
                    (Some "iVBORw0KGgo=") (Some "data:image/png"))
             "iVBORw0KGgo=" eq_refl).
  - apply (proj2 (proj2 (proj2 (input_stage_outcomes string text_of_buffer
                                  None (Some "data:image/png"))))).
    split; [reflexivity|]. exists "data:image/png".
    repeat split.
Defined.

Lemma errorHandler_always_answers_witness :
  Express.errorHandler false validation_without_errors
  = Rejected (Js.TypeError (Js.ToObject JUndefined))
  /\ exists statusCode body,
       Express.errorHandler false boom = Fulfilled (statusCode, body)
       /\ statusCode <> 0
       /\ Express.error body <> EmptyString
       /\ Express.debug body = None.
Proof.
  split.
  - apply (proj1 (errorHandler_always_answers false
                    validation_without_errors)).
    repeat split.
  - do 2 eexists. split; [reflexivity|].
    destruct (proj2 (errorHandler_always_answers false boom) _ _ eq_refl)
      as [Hstatus [Htext [_ [Hdebug _]]]].
    exact (conj Hstatus (conj Htext (Hdebug eq_refl))).
Defined.

Lemma authMiddleware_passes_verified_tokens_only_witness :
  Express.authMiddleware (Some "Bearer  abc.def.ghi ") verify_one
  = Express.Next (JObj [("userId", JNum 1)])
  /\ (401 = 401
      \/ (401 = 500
          /\ exists rest,
               Some "Bearer abc" = Some ("Bearer " ++ rest)%string
               /\ Express.trim rest <> EmptyString
               /\ forall name,
                    verify_one (Express.trim rest) = Express.Refused name ->
                    name <> "TokenExpiredError"
                    /\ name <> "JsonWebTokenError")).
Proof.
  split.
  - apply (proj1 (authMiddleware_passes_verified_tokens_only
                    (Some "Bearer  abc.def.ghi ") verify_one) _).
    exists " abc.def.ghi ". repeat split; discriminate.
  - exact (proj2 (authMiddleware_passes_verified_tokens_only
                    (Some "Bearer abc") verify_one) 401
             (Express.unauthorized "Invalid token"
                "Please provide a valid token") eq_refl).
Defined.

Lemma status_page_is_healthy_iff_both_probes_witness :
  exists page,
    page_when_down = Fulfilled page
    /\ Express.page_status page = "degraded"
    /\ Express.success_rate page = "75%"
    /\ getStatus (constructor None None None None) down down
       = Fulfilled (Express.page_ollama page).
Proof.
  eexists. split; [reflexivity|].
  destruct (status_page_is_healthy_iff_both_probes Template_of_scalar
              (constructor None None None None) down down (Fulfilled stats)
              (Fulfilled (JArr [])) _ eq_refl)
    as [_ [Hdegraded [Hstatus _]]].
  split; [apply Hdegraded; discriminate|].
  split; [reflexivity|exact Hstatus].
Defined.

End MoreScenarios.
